(** * MedChain blockchain simulator: a shallow embedding and its properties

    The development follows [scripts/blockchain_simulator.py]:

    - [Digest]: the two library digests the simulator calls
      ([hashlib.sha256] for block hashes, [hashlib.md5] for transaction
      ids), written out over 32-bit words held in [Z];
    - [Json]: the part of [json.dumps] the simulator relies on;
    - [Block] and [MedChainBlockchain]: the two classes, with the list
      objects that blocks hold kept in an explicit object store, because
      [Block.summary] hands the block's own list to the caller;
    - [JsonDecoder]: the part of [json.loads] that [world_state_view]
      relies on;

    and [scripts/setup_database.py]:

    - [Mongo]: the calls the script makes on the MongoDB driver, the
      console and the clock, and scripts of such calls with their runs;
    - [SetupDatabase]: the helpers and [setup_medchain_database].

    Python [str] values are modelled by [string]; a character stands for
    the code point of the same number (0 to 255), so the ledger is
    followed on the strings of these code points, and what is proved of
    the text that [json.dumps] writes is proved for them (beyond 65535
    [json.dumps] writes a code point as its pair of surrogates is
    written, see [escape_point]).  Only [hash_passcode], which encodes
    its argument itself, takes a sequence of any code points.  Python
    [int] values are modelled by [Z]; [str], an f-string and
    [json.dumps] raise [ValueError] on an integer of more than 4300
    digits, and [create_drug_batch] says so.  The clock readings
    ([utc_iso()], [time.time()]) are inputs of the operations that read
    the clock. *)

From Stdlib Require Import ZArith List String Ascii Lia Sorting.Sorted.
From Stdlib Require Import DecimalString DecimalZ DecimalPos DecimalN.
From stdpp Require Import gmap strings list.

Local Open Scope Z_scope.
Local Set Warnings "-register-all".

(* ===================================================================== *)
(** ** Strings as Python sees them *)
(* ===================================================================== *)

(** [s.startswith(p)] *)
Fixpoint startswith (p s : string) : bool :=
  match p with
  | EmptyString => true
  | String a p' =>
      match s with
      | EmptyString => false
      | String b s' => if Ascii.eqb a b then startswith p' s' else false
      end
  end.

(** [c * n] for a one-character string [c] *)
Fixpoint repeat_char (c : ascii) (n : nat) : string :=
  match n with
  | O => EmptyString
  | S n' => String c (repeat_char c n')
  end.

(** [s[:n]] *)
Fixpoint take_str (n : nat) (s : string) : string :=
  match n, s with
  | S n', String c s' => String c (take_str n' s')
  | _, _ => EmptyString
  end.

(** [str(z)] for an [int]: decimal digits, a leading minus sign for
    negative numbers. *)
Definition str_of_int (z : Z) : string :=
  NilZero.string_of_int (Z.to_int z).

(** [str(z)], an f-string and [json.dumps] raise [ValueError] for an
    [int] of more than [sys.get_int_max_str_digits()] decimal digits,
    4300 unless the interpreter is told otherwise. *)
Definition int_max_str_digits : nat := 4300.

Definition str_returns (z : Z) : bool :=
  Nat.leb (String.length (str_of_int (Z.abs z))) int_max_str_digits.

Definition int_max_str_digits_message : string :=
  "Exceeds the limit (4300 digits) for integer string conversion; use sys.set_int_max_str_digits() to increase the limit".

(** [s.encode()] on a string of code points below 128 (the only strings
    the simulator ever encodes: [json.dumps] escapes everything else). *)
Definition encode (s : string) : list Z :=
  map (fun c => Z.of_N (N_of_ascii c)) (list_ascii_of_string s).

(** every character of [s] passes [p] *)
Fixpoint all_chars (p : ascii -> bool) (s : string) : bool :=
  match s with
  | EmptyString => true
  | String c s' => p c && all_chars p s'
  end.

Definition is_digit (c : ascii) : bool :=
  let n := Z.of_N (N_of_ascii c) in (48 <=? n) && (n <=? 57).

Definition is_lower_hex (c : ascii) : bool :=
  let n := Z.of_N (N_of_ascii c) in
  ((48 <=? n) && (n <=? 57)) || ((97 <=? n) && (n <=? 102)).

(* ===================================================================== *)
(** ** The digests of [hashlib] *)
(* ===================================================================== *)

Module Digest.

Definition mask32 : Z := 0xFFFFFFFF.
Definition w32 (x : Z) : Z := Z.land x mask32.
Definition add32 (x y : Z) : Z := w32 (x + y).
Definition not32 (x : Z) : Z := Z.lxor x mask32.
Definition rotr32 (n x : Z) : Z :=
  Z.lor (Z.shiftr x n) (w32 (Z.shiftl x (32 - n))).
Definition rotl32 (n x : Z) : Z :=
  Z.lor (w32 (Z.shiftl x n)) (Z.shiftr x (32 - n)).

Definition hexdigit (d : Z) : ascii :=
  ascii_of_N (Z.to_N (if d <? 10 then 48 + d else 87 + d)).

(** two lowercase hexadecimal digits of a byte *)
Definition hex_byte (b : Z) (rest : string) : string :=
  String (hexdigit (Z.land (Z.shiftr b 4) 15))
    (String (hexdigit (Z.land b 15)) rest).

(** the four bytes of a word, most significant first *)
Definition bytes_be (w : Z) : list Z :=
  [Z.land (Z.shiftr w 24) 255; Z.land (Z.shiftr w 16) 255;
   Z.land (Z.shiftr w 8) 255; Z.land w 255].

Definition hex_of_bytes (bs : list Z) : string :=
  fold_right hex_byte EmptyString bs.

(** a 64-bit length as eight bytes, most significant first *)
Definition len_bytes_be (n : Z) : list Z :=
  bytes_be (Z.shiftr n 32) ++ bytes_be (w32 n).

(** message, then 0x80, then zeros up to 56 mod 64 *)
Definition pad_zeros (len : Z) : list Z :=
  List.repeat 0 (Z.to_nat ((55 - len) mod 64)).

(** cut a list into groups of [n] (the last group may be shorter) *)
Fixpoint chunks_aux {A} (fuel n : nat) (l : list A) : list (list A) :=
  match fuel with
  | O => []
  | S fuel' =>
      match l with
      | [] => []
      | _ => firstn n l :: chunks_aux fuel' n (skipn n l)
      end
  end.
Definition chunks {A} (n : nat) (l : list A) : list (list A) :=
  chunks_aux (length l) n l.

Definition word_be (bs : list Z) : Z :=
  fold_left (fun acc b => Z.lor (Z.shiftl acc 8) b) bs 0.
Definition word_le (bs : list Z) : Z :=
  fold_right (fun b acc => Z.lor (Z.shiftl acc 8) b) 0 bs.

(* ------------------------------------------------------------------- *)
(** *** SHA-256 (FIPS 180-4) *)

(** The constants are the first 32 bits of the fractional parts of the
    cube roots of the first sixty-four primes, and the initial registers
    those of the square roots of the first eight. *)
Definition is_prime (n : Z) : bool :=
  (1 <? n) &&
  forallb (fun d => negb (n mod Z.of_nat d =? 0)) (seq 2 (Z.to_nat n - 2)).

Definition first_primes : list Z :=
  Eval vm_compute in filter is_prime (map Z.of_nat (seq 2 310)).

(** the integer cube root, one bit at a time from bit [bits - 1] down *)
Fixpoint cube_root_bits (bits : nat) (n r : Z) : Z :=
  match bits with
  | O => r
  | S bits' =>
      let c := r + 2 ^ Z.of_nat bits' in
      cube_root_bits bits' n (if c * c * c <=? n then c else r)
  end.

Definition frac_cube_root (p : Z) : Z :=
  w32 (cube_root_bits 40 (p * 2 ^ 96) 0).
Definition frac_square_root (p : Z) : Z :=
  w32 (Z.sqrt (p * 2 ^ 64)).

Definition sha_K : list Z :=
  Eval vm_compute in map frac_cube_root first_primes.

Definition sha_H0 : list Z :=
  Eval vm_compute in map frac_square_root (firstn 8 first_primes).

Definition Ch (x y z : Z) := Z.lxor (Z.land x y) (Z.land (not32 x) z).
Definition Maj (x y z : Z) :=
  Z.lxor (Z.lxor (Z.land x y) (Z.land x z)) (Z.land y z).
Definition bsig0 x := Z.lxor (Z.lxor (rotr32 2 x) (rotr32 13 x)) (rotr32 22 x).
Definition bsig1 x := Z.lxor (Z.lxor (rotr32 6 x) (rotr32 11 x)) (rotr32 25 x).
Definition ssig0 x := Z.lxor (Z.lxor (rotr32 7 x) (rotr32 18 x)) (Z.shiftr x 3).
Definition ssig1 x := Z.lxor (Z.lxor (rotr32 17 x) (rotr32 19 x)) (Z.shiftr x 10).

Record sha_regs := ShaRegs { ra : Z; rb : Z; rc : Z; rd : Z;
                             re : Z; rf : Z; rg : Z; rh : Z }.

Definition sha_round (r : sha_regs) (k w : Z) : sha_regs :=
  let t1 := add32 (add32 (add32 (add32 (rh r) (bsig1 (re r)))
                                (Ch (re r) (rf r) (rg r))) k) w in
  let t2 := add32 (bsig0 (ra r)) (Maj (ra r) (rb r) (rc r)) in
  ShaRegs (add32 t1 t2) (ra r) (rb r) (rc r)
          (add32 (rd r) t1) (re r) (rf r) (rg r).

(** The message schedule is kept as a window of sixteen words: the head
    is the word of the current round, and the word sixteen rounds ahead
    is computed from the window and put at its end. *)
Definition sha_next_word (win : list Z) : Z :=
  add32 (add32 (add32 (ssig1 (nth 14 win 0)) (nth 9 win 0))
               (ssig0 (nth 1 win 0))) (nth 0 win 0).

Fixpoint sha_rounds (ks win : list Z) (r : sha_regs) : sha_regs :=
  match ks with
  | [] => r
  | k :: ks' =>
      sha_rounds ks' (tl win ++ [sha_next_word win])
                 (sha_round r k (hd 0 win))
  end.

Definition sha_regs_of (h : list Z) : sha_regs :=
  ShaRegs (nth 0 h 0) (nth 1 h 0) (nth 2 h 0) (nth 3 h 0)
          (nth 4 h 0) (nth 5 h 0) (nth 6 h 0) (nth 7 h 0).

Definition sha_compress (h : list Z) (block : list Z) : list Z :=
  let r0 := sha_regs_of h in
  let r := sha_rounds sha_K (map word_be (chunks 4 block)) r0 in
  [add32 (ra r0) (ra r); add32 (rb r0) (rb r);
   add32 (rc r0) (rc r); add32 (rd r0) (rd r);
   add32 (re r0) (re r); add32 (rf r0) (rf r);
   add32 (rg r0) (rg r); add32 (rh r0) (rh r)].

Definition sha_pad (msg : list Z) : list Z :=
  let len := Z.of_nat (length msg) in
  msg ++ [128] ++ pad_zeros len ++ len_bytes_be (8 * len).

Definition sha256_words (msg : list Z) : list Z :=
  fold_left sha_compress (chunks 64 (sha_pad msg)) sha_H0.

(** [hashlib.sha256(msg).hexdigest()] *)
Definition sha256_hexdigest (msg : list Z) : string :=
  hex_of_bytes (concat (map bytes_be (sha256_words msg))).

(* ------------------------------------------------------------------- *)
(** *** MD5 (RFC 1321) *)

Definition md5_K : list Z :=
  [0xd76aa478; 0xe8c7b756; 0x242070db; 0xc1bdceee;
   0xf57c0faf; 0x4787c62a; 0xa8304613; 0xfd469501;
   0x698098d8; 0x8b44f7af; 0xffff5bb1; 0x895cd7be;
   0x6b901122; 0xfd987193; 0xa679438e; 0x49b40821;
   0xf61e2562; 0xc040b340; 0x265e5a51; 0xe9b6c7aa;
   0xd62f105d; 0x02441453; 0xd8a1e681; 0xe7d3fbc8;
   0x21e1cde6; 0xc33707d6; 0xf4d50d87; 0x455a14ed;
   0xa9e3e905; 0xfcefa3f8; 0x676f02d9; 0x8d2a4c8a;
   0xfffa3942; 0x8771f681; 0x6d9d6122; 0xfde5380c;
   0xa4beea44; 0x4bdecfa9; 0xf6bb4b60; 0xbebfbc70;
   0x289b7ec6; 0xeaa127fa; 0xd4ef3085; 0x04881d05;
   0xd9d4d039; 0xe6db99e5; 0x1fa27cf8; 0xc4ac5665;
   0xf4292244; 0x432aff97; 0xab9423a7; 0xfc93a039;
   0x655b59c3; 0x8f0ccc92; 0xffeff47d; 0x85845dd1;
   0x6fa87e4f; 0xfe2ce6e0; 0xa3014314; 0x4e0811a1;
   0xf7537e82; 0xbd3af235; 0x2ad7d2bb; 0xeb86d391].

Definition md5_shifts : list Z :=
  [7; 12; 17; 22; 7; 12; 17; 22; 7; 12; 17; 22; 7; 12; 17; 22;
   5; 9; 14; 20; 5; 9; 14; 20; 5; 9; 14; 20; 5; 9; 14; 20;
   4; 11; 16; 23; 4; 11; 16; 23; 4; 11; 16; 23; 4; 11; 16; 23;
   6; 10; 15; 21; 6; 10; 15; 21; 6; 10; 15; 21; 6; 10; 15; 21].

Record md5_regs := Md5Regs { ma : Z; mb : Z; mc : Z; md : Z }.

(** the round function and the index of the message word of step [i] *)
Definition md5_mix (i : nat) (b c d : Z) : Z * nat :=
  if (i <? 16)%nat then
    (Z.lor (Z.land b c) (Z.land (not32 b) d), i)
  else if (i <? 32)%nat then
    (Z.lor (Z.land d b) (Z.land (not32 d) c), ((5 * i + 1) mod 16)%nat)
  else if (i <? 48)%nat then
    (Z.lxor (Z.lxor b c) d, ((3 * i + 5) mod 16)%nat)
  else
    (Z.lxor c (Z.lor b (not32 d)), ((7 * i) mod 16)%nat).

Definition md5_step (m : list Z) (r : md5_regs) (iks : nat * (Z * Z))
  : md5_regs :=
  let '(i, (k, s)) := iks in
  let '(f, g) := md5_mix i (mb r) (mc r) (md r) in
  let f' := add32 (add32 (add32 f (ma r)) k) (nth g m 0) in
  Md5Regs (md r) (add32 (mb r) (rotl32 s f')) (mb r) (mc r).

Definition md5_steps : list (nat * (Z * Z)) :=
  combine (seq 0 64) (combine md5_K md5_shifts).

Definition md5_compress (r0 : md5_regs) (block : list Z) : md5_regs :=
  let m := map word_le (chunks 4 block) in
  let r := fold_left (md5_step m) md5_steps r0 in
  Md5Regs (add32 (ma r0) (ma r)) (add32 (mb r0) (mb r))
          (add32 (mc r0) (mc r)) (add32 (md r0) (md r)).

Definition md5_pad (msg : list Z) : list Z :=
  let len := Z.of_nat (length msg) in
  msg ++ [128] ++ pad_zeros len ++ rev (len_bytes_be (8 * len)).

Definition md5_init : md5_regs :=
  Md5Regs 0x67452301 0xefcdab89 0x98badcfe 0x10325476.

Definition md5_regs_of (msg : list Z) : md5_regs :=
  fold_left md5_compress (chunks 64 (md5_pad msg)) md5_init.

(** [hashlib.md5(msg).hexdigest()] *)
Definition md5_hexdigest (msg : list Z) : string :=
  let r := md5_regs_of msg in
  hex_of_bytes (concat (map (fun w => rev (bytes_be w))
                            [ma r; mb r; mc r; md r])).

End Digest.

(* ===================================================================== *)
(** ** [json.dumps] *)
(* ===================================================================== *)

Module Json.

(** The values the simulator serialises: integers, strings, lists and
    dictionaries with string keys (members in insertion order). *)
Inductive value :=
| Int (z : Z)
| Str (s : string)
| Arr (items : list value)
| Obj (members : list (string * value)).

Definition quote_char : ascii := ascii_of_N 34.
Definition backslash : ascii := ascii_of_N 92.

(** One character of a string literal, as [ensure_ascii=True] writes
    it: the quote and the backslash are escaped, so are the control
    characters, and every code point outside the range from the space
    to the tilde becomes a [\u] escape with four lowercase hexadecimal
    digits. *)
Definition escape_char (c : ascii) (rest : string) : string :=
  let n := Z.of_N (N_of_ascii c) in
  if n =? 34 then String backslash (String quote_char rest)
  else if n =? 92 then String backslash (String backslash rest)
  else if n =? 10 then String backslash (String "n" rest)
  else if n =? 13 then String backslash (String "r" rest)
  else if n =? 9 then String backslash (String "t" rest)
  else if n =? 8 then String backslash (String "b" rest)
  else if n =? 12 then String backslash (String "f" rest)
  else if (32 <=? n) && (n <=? 126) then String c rest
  else String backslash (String "u" (String "0" (String "0"
         (Digest.hex_byte n rest)))).

Fixpoint escape (s : string) : string :=
  match s with
  | EmptyString => EmptyString
  | String c s' => escape_char c (escape s')
  end.

Definition quote (s : string) : string :=
  String quote_char (escape s +:+ String quote_char EmptyString).

Fixpoint join (sep : string) (parts : list string) : string :=
  match parts with
  | [] => EmptyString
  | [p] => p
  | p :: rest => p +:+ sep +:+ join sep rest
  end.

(** [sorted(d.items())] on the serialised members: insertion sort on
    the keys, compared code point by code point. *)
Fixpoint insert_by_key (kv : string * string) (l : list (string * string))
  : list (string * string) :=
  match l with
  | [] => [kv]
  | kv' :: rest =>
      if String.leb (fst kv) (fst kv') then kv :: l
      else kv' :: insert_by_key kv rest
  end.

Definition sort_by_key (l : list (string * string)) : list (string * string) :=
  fold_right insert_by_key [] l.

Section Dumps.
(** [separators=(item_sep, key_sep)] and [sort_keys] *)
Variables (item_sep key_sep : string) (sort_keys : bool).

Fixpoint dumps (v : value) : string :=
  match v with
  | Int z => str_of_int z
  | Str s => quote s
  | Arr items =>
      String "[" (join item_sep (map dumps items) +:+ "]")
  | Obj members =>
      let written := map (fun kv => (fst kv, dumps (snd kv))) members in
      let ordered := if sort_keys then sort_by_key written else written in
      String "{" (join item_sep
                   (map (fun kv => quote (fst kv) +:+ key_sep +:+ snd kv)
                        ordered) +:+ "}")
  end.
End Dumps.

End Json.

(* ===================================================================== *)
(** ** Python dictionaries and the object store *)
(* ===================================================================== *)

(** A [Dict] with string keys, members in insertion order. *)
Definition Dict := list (string * Json.value).

(** [d[k]] *)
Fixpoint dict_get (k : string) (d : Dict) : option Json.value :=
  match d with
  | [] => None
  | (k', v) :: d' => if String.eqb k k' then Some v else dict_get k d'
  end.

(** [d[k] = v]: an existing key keeps its place, a new key goes last. *)
Fixpoint dict_set (k : string) (v : Json.value) (d : Dict) : Dict :=
  match d with
  | [] => [(k, v)]
  | (k', v') :: d' =>
      if String.eqb k k' then (k, v) :: d' else (k', v') :: dict_set k v d'
  end.

(** [class Transaction(TypedDict)] *)
Record Transaction := mkTransaction {
  tx_id : string;
  type : string;
  payload : Dict;
  timestamp : string;
}.

(** The list objects that blocks hold.  A location is the position of the
    object in allocation order. *)
Abbreviation loc := nat (only parsing).
Abbreviation store := (list (list Transaction)) (only parsing).

(** a new list object *)
Definition alloc (l : list Transaction) (σ : store) : loc * store :=
  (length σ, σ ++ [l]).

(** the contents of a list object (no location outside the store is ever
    handed out; reading there gives the empty list) *)
Definition deref (σ : store) (ℓ : loc) : list Transaction :=
  default [] (σ !! ℓ).

(** [l.append(tx)] on the list object at [ℓ] *)
Definition list_append (ℓ : loc) (tx : Transaction) (σ : store) : store :=
  alter (fun l => l ++ [tx]) ℓ σ.

(** What a Python call can do besides returning. *)
Inductive exn :=
| ValueError (msg : string)
| IndexError.

Inductive outcome (A : Type) :=
| Returned (a : A)
| Raised (e : exn).
Arguments Returned {A} a.
Arguments Raised {A} e.

Definition tx_json (tx : Transaction) : Json.value :=
  Json.Obj [("tx_id", Json.Str (tx_id tx)); ("type", Json.Str (type tx));
            ("payload", Json.Obj (payload tx));
            ("timestamp", Json.Str (timestamp tx))]%string.

(* ===================================================================== *)
(** ** [json.loads]

    The decoder of the standard library as CPython runs it, for the
    texts whose values are integers, strings, lists and dictionaries.
    The recursion is on [fuel]; [loads] gives it twice the length of the
    text, which is enough for the texts [json.dumps] writes. *)
(* ===================================================================== *)

Module JsonDecoder.

(** What [json.loads] does with a text: it returns a value, raises
    [JSONDecodeError], or raises the [ValueError] of [int] on a numeral
    of more than 4300 digits.  [Unmodelled] marks the texts of which
    this model says nothing: those with a float, [true], [false],
    [null], [NaN] or an infinity, those with an escape of a code point
    beyond 255, and those for which the fuel does not last. *)
Inductive result (A : Type) :=
| Decoded (a : A)
| JSONDecodeError
| IntValueError
| Unmodelled.
Arguments Decoded {A} a.
Arguments JSONDecodeError {A}.
Arguments IntValueError {A}.
Arguments Unmodelled {A}.

Definition bind {A B} (r : result A) (f : A -> result B) : result B :=
  match r with
  | Decoded a => f a
  | JSONDecodeError => JSONDecodeError
  | IntValueError => IntValueError
  | Unmodelled => Unmodelled
  end.

Definition code (c : ascii) : Z := Z.of_N (N_of_ascii c).

(** the whitespace of JSON: space, tab, line feed, carriage return *)
Definition is_ws (c : ascii) : bool :=
  let n := code c in (n =? 32) || (n =? 9) || (n =? 10) || (n =? 13).

Fixpoint skip_ws (s : string) : string :=
  match s with
  | String c r => if is_ws c then skip_ws r else s
  | EmptyString => s
  end.

Definition hex_value (c : ascii) : option Z :=
  let n := code c in
  if (48 <=? n) && (n <=? 57) then Some (n - 48)
  else if (97 <=? n) && (n <=? 102) then Some (n - 87)
  else if (65 <=? n) && (n <=? 70) then Some (n - 55)
  else None.

(** the character a backslash escape other than [\u] stands for *)
Definition unescape (e : ascii) : option ascii :=
  let n := code e in
  if n =? 34 then Some e
  else if n =? 92 then Some e
  else if n =? 47 then Some e
  else if n =? 98 then Some (ascii_of_N 8)
  else if n =? 102 then Some (ascii_of_N 12)
  else if n =? 110 then Some (ascii_of_N 10)
  else if n =? 114 then Some (ascii_of_N 13)
  else if n =? 116 then Some (ascii_of_N 9)
  else None.

(** [scanstring], strict, from after the opening quote: the text of the
    literal and what follows its closing quote. *)
Fixpoint scanstring (s : string) : result (string * string) :=
  match s with
  | EmptyString => JSONDecodeError
  | String c r =>
      let n := code c in
      if n =? 34 then Decoded (EmptyString, r)
      else if n =? 92 then
        match r with
        | String e r1 =>
            if code e =? 117 then
              match r1 with
              | String h1 (String h2 (String h3 (String h4 r2))) =>
                  match hex_value h1, hex_value h2, hex_value h3, hex_value h4 with
                  | Some a, Some b, Some c', Some d =>
                      let cp := ((a * 16 + b) * 16 + c') * 16 + d in
                      if cp <? 256 then
                        bind (scanstring r2) (fun tr =>
                          Decoded (String (ascii_of_N (Z.to_N cp)) (fst tr), snd tr))
                      else Unmodelled
                  | _, _, _, _ => JSONDecodeError
                  end
              | _ => JSONDecodeError
              end
            else
              match unescape e with
              | Some c' =>
                  bind (scanstring r1) (fun tr =>
                    Decoded (String c' (fst tr), snd tr))
              | None => JSONDecodeError
              end
        | EmptyString => JSONDecodeError
        end
      else if n <? 32 then JSONDecodeError
      else
        bind (scanstring r) (fun tr => Decoded (String c (fst tr), snd tr))
  end.

(** the longest prefix of digits, and the rest *)
Fixpoint digits (s : string) : string * string :=
  match s with
  | String c r =>
      if is_digit c then let '(d, rest) := digits r in (String c d, rest)
      else (EmptyString, s)
  | EmptyString => (EmptyString, EmptyString)
  end.

(** a number is not an [int] if a fraction or an exponent follows *)
Definition goes_on (rest : string) : bool :=
  match rest with
  | String c _ => let n := code c in (n =? 46) || (n =? 101) || (n =? 69)
  | EmptyString => false
  end.

(** where no number starts, one of [null], [true], [false], [NaN] and
    [Infinity] may, and after a minus sign [Infinity] *)
Definition names_literal (sign : string) (c : ascii) : bool :=
  let n := code c in
  match sign with
  | EmptyString =>
      (n =? 110) || (n =? 116) || (n =? 102) || (n =? 78) || (n =? 73)
  | _ => n =? 73
  end.

(** [NUMBER_RE] for integers: an optional minus sign, then a zero or a
    digit other than zero followed by digits; and [int] of the match,
    which raises when the digits are more than 4300 *)
Definition scan_int (s : string) : result (Z * string) :=
  let '(sign, s1) :=
    match s with
    | String c r => if code c =? 45 then (String c EmptyString, r)
                    else (EmptyString, s)
    | EmptyString => (EmptyString, s)
    end in
  match s1 with
  | String c r =>
      let '(d, rest) :=
        if code c =? 48 then (String c EmptyString, r) else digits s1 in
      match d with
      | EmptyString =>
          if names_literal sign c then Unmodelled else JSONDecodeError
      | _ =>
          if goes_on rest then Unmodelled
          else if Nat.leb (String.length d) int_max_str_digits then
            match NilZero.int_of_string (sign +:+ d) with
            | Some i => Decoded (Z.of_int i, rest)
            | None => Unmodelled
            end
          else IntValueError
      end
  | EmptyString => JSONDecodeError
  end.

(** [dict(pairs)]: a key met again takes the new value where it is *)
Definition dict (pairs : list (string * Json.value)) : Dict :=
  fold_left (fun d kv => dict_set (fst kv) (snd kv) d) pairs [].

Fixpoint parse_value (fuel : nat) (s : string) {struct fuel}
  : result (Json.value * string) :=
  match fuel with
  | O => Unmodelled
  | S fuel' =>
      match s with
      | EmptyString => JSONDecodeError
      | String c r =>
          let n := code c in
          if n =? 34 then
            bind (scanstring r) (fun tr => Decoded (Json.Str (fst tr), snd tr))
          else if n =? 91 then
            match skip_ws r with
            | String c1 r2 =>
                if code c1 =? 93 then Decoded (Json.Arr [], r2)
                else
                  bind (parse_items fuel' (skip_ws r)) (fun ir =>
                    Decoded (Json.Arr (fst ir), snd ir))
            | EmptyString => JSONDecodeError
            end
          else if n =? 123 then
            match skip_ws r with
            | String c1 r2 =>
                if code c1 =? 125 then Decoded (Json.Obj [], r2)
                else
                  bind (parse_members fuel' (skip_ws r)) (fun pr =>
                    Decoded (Json.Obj (dict (fst pr)), snd pr))
            | EmptyString => JSONDecodeError
            end
          else
            bind (scan_int s) (fun zr => Decoded (Json.Int (fst zr), snd zr))
      end
  end
with parse_items (fuel : nat) (s : string) {struct fuel}
  : result (list Json.value * string) :=
  match fuel with
  | O => Unmodelled
  | S fuel' =>
      bind (parse_value fuel' s) (fun vr =>
        match skip_ws (snd vr) with
        | String c r1 =>
            if code c =? 44 then
              bind (parse_items fuel' (skip_ws r1)) (fun ir =>
                Decoded (fst vr :: fst ir, snd ir))
            else if code c =? 93 then Decoded ([fst vr], r1)
            else JSONDecodeError
        | EmptyString => JSONDecodeError
        end)
  end
with parse_members (fuel : nat) (s : string) {struct fuel}
  : result (list (string * Json.value) * string) :=
  match fuel with
  | O => Unmodelled
  | S fuel' =>
      match s with
      | String q r =>
          if code q =? 34 then
            bind (scanstring r) (fun kr =>
              match skip_ws (snd kr) with
              | String c r2 =>
                  if code c =? 58 then
                    bind (parse_value fuel' (skip_ws r2)) (fun vr =>
                      match skip_ws (snd vr) with
                      | String c' r4 =>
                          if code c' =? 44 then
                            bind (parse_members fuel' (skip_ws r4)) (fun mr =>
                              Decoded ((fst kr, fst vr) :: fst mr, snd mr))
                          else if code c' =? 125 then
                            Decoded ([(fst kr, fst vr)], r4)
                          else JSONDecodeError
                      | EmptyString => JSONDecodeError
                      end)
                  else JSONDecodeError
              | EmptyString => JSONDecodeError
              end)
          else JSONDecodeError
      | EmptyString => JSONDecodeError
      end
  end.

(** [json.loads]: one value, with whitespace around it and nothing else *)
Definition loads (s : string) : result Json.value :=
  bind (parse_value (2 * String.length s) (skip_ws s)) (fun vr =>
    match skip_ws (snd vr) with
    | EmptyString => Decoded (fst vr)
    | _ => JSONDecodeError
    end).

End JsonDecoder.

(* ===================================================================== *)
(** ** [class Block] *)
(* ===================================================================== *)

Module Block.

(** The attributes of a block.  [transactions] is the location of the
    list object the block was given: the block does not copy it. *)
Record t := mk {
  index : Z;
  timestamp : string;
  transactions : loc;
  previous_hash : string;
  nonce : Z;
  hash : string;
}.

(** [DIFFICULTY = 2] *)
Definition DIFFICULTY : nat := 2.

(** [_calculate_hash]: the digest of the five attributes other than
    [hash], serialised with sorted keys and no spaces. *)
Definition block_string (σ : store) (b : t) : string :=
  Json.dumps "," ":" true
    (Json.Obj [("index", Json.Int (index b));
               ("timestamp", Json.Str (timestamp b));
               ("transactions", Json.Arr (map tx_json (deref σ (transactions b))));
               ("previous_hash", Json.Str (previous_hash b));
               ("nonce", Json.Int (nonce b))]%string).

Definition _calculate_hash (σ : store) (b : t) : string :=
  Digest.sha256_hexdigest (encode (block_string σ b)).

(** [self.nonce = n; self.hash = self._calculate_hash()] *)
Definition rehash_at (σ : store) (n : Z) (b : t) : t :=
  let b' := mk (index b) (timestamp b) (transactions b) (previous_hash b)
               n (hash b) in
  mk (index b) (timestamp b) (transactions b) (previous_hash b)
     n (_calculate_hash σ b').

(** [Block(index, transactions, previous_hash)]; [now] is what
    [utc_iso()] returns. *)
Definition __init__ (σ : store) (now : string)
    (index : Z) (transactions : loc) (previous_hash : string) : t :=
  rehash_at σ 0 (mk index now transactions previous_hash 0 EmptyString).

(** The loop of [mine], for a target of [difficulty] zeros.  The loop
    has no bound of its own; [fuel] bounds the iterations the model
    follows, and [None] says that the loop is still running after that
    many. *)
Fixpoint mine_at (difficulty : nat) (fuel : nat) (σ : store) (b : t)
  : option t :=
  if startswith (repeat_char "0" difficulty) (hash b) then Some b
  else
    match fuel with
    | O => None
    | S fuel' => mine_at difficulty fuel' σ (rehash_at σ (nonce b + 1) b)
    end.

(** [mine]: the target is ["0" * Block.DIFFICULTY]. *)
Definition mine : nat -> store -> t -> option t := mine_at DIFFICULTY.

(** What a summary holds under a key: a number, a string, or the list
    object itself. *)
Inductive field :=
| FInt (z : Z)
| FStr (s : string)
| FList (ℓ : loc).

(** [summary]: a new dictionary of five entries. *)
Definition summary (b : t) : list (string * field) :=
  [("index", FInt (index b));
   ("timestamp", FStr (timestamp b));
   ("hash", FStr (hash b));
   ("previous_hash", FStr (previous_hash b));
   ("transactions", FList (transactions b))]%string.

End Block.

(** The world state as [json.dumps] is given it: the records of the
    batches, by key. *)
Definition state_json (items : list (string * Dict)) : Json.value :=
  Json.Obj (map (fun kr => (fst kr, Json.Obj (snd kr))) items).

(* ===================================================================== *)
(** ** [class MedChainBlockchain] *)
(* ===================================================================== *)

Module MedChainBlockchain.

Record t := mk {
  chain : list Block.t;
  pending_transactions : list Transaction;
  world_state : gmap string Dict;
}.

(** The Python process as far as the ledger is concerned: the list
    objects and the ledger's attributes. *)
Definition world : Type := store * t.

(** [_create_genesis_block]; [None] while [mine] is still running. *)
Definition _create_genesis_block (fuel : nat) (now : string) (w : world)
  : option world :=
  let '(σ, bc) := w in
  let '(ℓ, σ1) := alloc [] σ in
  let genesis := Block.__init__ σ1 now 0 ℓ (repeat_char "0" 64) in
  match Block.mine fuel σ1 genesis with
  | None => None
  | Some genesis' =>
      Some (σ1, mk (chain bc ++ [genesis']) (pending_transactions bc)
                   (world_state bc))
  end.

(** [MedChainBlockchain()] in a process holding the list objects [σ]. *)
Definition __init__ (fuel : nat) (now : string) (σ : store) : option world :=
  _create_genesis_block fuel now (σ, mk [] [] ∅).

(** [_new_tx]; [ms] is [int(time.time() * 1000)] and [now] is what
    [utc_iso()] returns.  This is the transaction built when
    [json.dumps] writes the payload; [create_drug_batch], the one caller
    with an [int] in the payload, says when it does. *)
Definition _new_tx (ms : Z) (now : string) (tx_type : string) (payload : Dict)
  : Transaction :=
  let digest :=
    Digest.md5_hexdigest
      (encode (Json.dumps ", " ": " true (Json.Obj payload))) in
  mkTransaction ("TX-" +:+ str_of_int ms +:+ "-" +:+ take_str 8 digest)
                tx_type payload now.

(** [_mine_pending]; [now] is read only when a block is built. *)
Definition _mine_pending (fuel : nat) (now : string) (w : world)
  : option (outcome string * world) :=
  let '(σ, bc) := w in
  match pending_transactions bc with
  | [] =>
      match last (chain bc) with
      | None => Some (Raised IndexError, w)
      | Some tip => Some (Returned (Block.hash tip), w)
      end
  | _ =>
      let '(ℓ, σ1) := alloc (pending_transactions bc) σ in
      match last (chain bc) with
      | None => Some (Raised IndexError, (σ1, bc))
      | Some tip =>
          let new_block :=
            Block.__init__ σ1 now (Z.of_nat (length (chain bc))) ℓ
                           (Block.hash tip) in
          match Block.mine fuel σ1 new_block with
          | None => None
          | Some new_block' =>
              Some (Returned (Block.hash new_block'),
                    (σ1, mk (chain bc ++ [new_block']) []
                            (world_state bc)))
          end
      end
  end.

(** [create_drug_batch].  The payload holds the one [int] a caller
    gives, [quantity]: if [json.dumps] cannot write it, [_new_tx] raises
    before anything is changed. *)
Definition create_drug_batch (ms : Z) (now : string)
    (batch_id drug_name manufacturer : string) (quantity : Z)
    (status : string) (bc : t) : outcome string * t :=
  let payload : Dict :=
    [("batch_id", Json.Str batch_id);
     ("drug_name", Json.Str drug_name);
     ("manufacturer", Json.Str manufacturer);
     ("quantity", Json.Int quantity);
     ("status", Json.Str status)]%string in
  if str_returns quantity then
    let tx := _new_tx ms now "CREATE_BATCH" payload in
    (Returned (tx_id tx),
     mk (chain bc) (pending_transactions bc ++ [tx])
        (<[batch_id := dict_set "timestamp" (Json.Str (timestamp tx)) payload]>
           (world_state bc)))
  else (Raised (ValueError int_max_str_digits_message), bc).

(** [update_batch_status] *)
Definition update_batch_status (ms : Z) (now : string)
    (batch_id status : string) (bc : t) : outcome string * t :=
  match world_state bc !! batch_id with
  | None =>
      (Raised (ValueError ("Batch " +:+ batch_id +:+
                           " does not exist in world state")), bc)
  | Some record =>
      let payload : Dict :=
        [("batch_id", Json.Str batch_id); ("status", Json.Str status)]%string in
      let tx := _new_tx ms now "UPDATE_STATUS" payload in
      (Returned (tx_id tx),
       mk (chain bc) (pending_transactions bc ++ [tx])
          (<[batch_id :=
               dict_set "timestamp" (Json.Str (timestamp tx))
                 (dict_set "status" (Json.Str status) record)]>
             (world_state bc)))
  end.

(** [mine] *)
Definition mine : nat -> string -> world -> option (outcome string * world) :=
  _mine_pending.

(** [blockchain_view] *)
Definition blockchain_view (bc : t) : list (list (string * Block.field)) :=
  map Block.summary (chain bc).

(** [world_state_view]: what [json.loads] makes of what [json.dumps]
    writes of the world state.  The map does not keep the order in which
    the batches were inserted; they are written here in the order of
    the map's own listing. *)
Definition world_state_view (bc : t) : JsonDecoder.result Json.value :=
  JsonDecoder.loads
    (Json.dumps ", " ": " false (state_json (map_to_list (world_state bc)))).

End MedChainBlockchain.

(* ===================================================================== *)
(** ** Runs of the ledger and what a reader sees *)
(* ===================================================================== *)

(** The proof-of-work condition at nonce [k]: the hash of [b] with its
    nonce replaced by [k] starts with [difficulty] zeros. *)
Definition sealed_by (difficulty : nat) (σ : store) (b : Block.t) (k : Z) : Prop :=
  startswith (repeat_char "0" difficulty)
             (Block.hash (Block.rehash_at σ k b)) = true.

(** The states a ledger goes through: it is constructed, and then
    commands are submitted and blocks are sealed, each call having
    returned or raised. *)
Inductive reachable : MedChainBlockchain.world -> Prop :=
| reach_init fuel now σ w :
    MedChainBlockchain.__init__ fuel now σ = Some w -> reachable w
| reach_create ms now batch_id drug_name manufacturer quantity status σ bc :
    reachable (σ, bc) ->
    reachable (σ, snd (MedChainBlockchain.create_drug_batch
                         ms now batch_id drug_name manufacturer quantity
                         status bc))
| reach_update ms now batch_id status σ bc :
    reachable (σ, bc) ->
    reachable (σ, snd (MedChainBlockchain.update_batch_status
                         ms now batch_id status bc))
| reach_mine fuel now w r w' :
    reachable w ->
    MedChainBlockchain.mine fuel now w = Some (r, w') -> reachable w'.

(** What every run keeps true of the chain: it has a genesis block; each
    block stands at its own index, holds a list object of the store,
    stores the hash of its fields, and is sealed at the least nonce that
    seals it; and each block names the hash of the block before it. *)
Definition ledger_inv (w : MedChainBlockchain.world) : Prop :=
  let σ := fst w in
  let chain := MedChainBlockchain.chain (snd w) in
  chain <> [] /\
  (forall (i : nat) b, chain !! i = Some b ->
     Block.index b = Z.of_nat i /\
     Block._calculate_hash σ b = Block.hash b /\
     (Block.transactions b < length σ)%nat /\
     0 <= Block.nonce b /\
     sealed_by Block.DIFFICULTY σ b (Block.nonce b) /\
     forall k, 0 <= k < Block.nonce b -> ~ sealed_by Block.DIFFICULTY σ b k) /\
  (forall (i : nat) p b, chain !! i = Some p -> chain !! S i = Some b ->
     Block.previous_hash b = Block.hash p).

(** The transactions a ledger has accepted so far: those of the blocks,
    in chain order, and then the pending ones. *)
Definition accepted (w : MedChainBlockchain.world) : list Transaction :=
  concat (map (fun b => deref (fst w) (Block.transactions b))
              (MedChainBlockchain.chain (snd w)))
  ++ MedChainBlockchain.pending_transactions (snd w).

(** [tx] is a [CREATE_BATCH] transaction for the key [k]. *)
Definition creates (k : string) (tx : Transaction) : Prop :=
  type tx = "CREATE_BATCH"%string /\
  dict_get "batch_id" (payload tx) = Some (Json.Str k).

(** [s[key]] on a summary *)
Fixpoint summary_get (key : string) (s : list (string * Block.field))
  : option Block.field :=
  match s with
  | [] => None
  | (k, f) :: s' => if String.eqb key k then Some f else summary_get key s'
  end.

(** What a reader finds under a key of a summary: the number, the string,
    or the present contents of the list object. *)
Inductive shown :=
| SInt (z : Z)
| SStr (s : string)
| STransactions (l : list Transaction).

Definition show (σ : store) (f : Block.field) : shown :=
  match f with
  | Block.FInt z => SInt z
  | Block.FStr s => SStr s
  | Block.FList ℓ => STransactions (deref σ ℓ)
  end.

Definition read_view (σ : store) (view : list (list (string * Block.field)))
  : list (list (string * shown)) :=
  map (map (fun kv => (fst kv, show σ (snd kv)))) view.

(* ===================================================================== *)
(** ** A run used for the concrete checks *)
(* ===================================================================== *)

Module Demo.
Local Open Scope string_scope.

Definition genesis_time := "2025-06-01T00:01:27+00:00".

(** [bc = MedChainBlockchain()] in a fresh process *)
Definition constructed : option MedChainBlockchain.world :=
  MedChainBlockchain.__init__ 8 genesis_time [].

Definition genesis : Block.t :=
  Block.mk 0 genesis_time 0%nat (repeat_char "0" 64) 3
    "001532fe578031e080d124da84691e0a76535e62a6a90c7bee698027a7d9079a".

Definition w0 : MedChainBlockchain.world :=
  ([[]], MedChainBlockchain.mk [genesis] [] ∅).

(** [bc.create_drug_batch("batch001", "Paracetamol", "Acme Pharma", 1000)] *)
Definition created : outcome string * MedChainBlockchain.t :=
  MedChainBlockchain.create_drug_batch 1748772000123
    "2025-06-01T10:00:00+00:00" "batch001" "Paracetamol" "Acme Pharma"
    1000 "pending" (snd w0).

Definition w1 : MedChainBlockchain.world := (fst w0, snd created).

(** [bc.mine()] *)
Definition sealed1 : option (outcome string * MedChainBlockchain.world) :=
  MedChainBlockchain.mine 8 "2025-06-02T00:00:06+00:00" w1.

Definition tx1 : Transaction :=
  mkTransaction "TX-1748772000123-5888e43c" "CREATE_BATCH"
    [("batch_id", Json.Str "batch001"); ("drug_name", Json.Str "Paracetamol");
     ("manufacturer", Json.Str "Acme Pharma"); ("quantity", Json.Int 1000);
     ("status", Json.Str "pending")]
    "2025-06-01T10:00:00+00:00".

Definition block1 : Block.t :=
  Block.mk 1 "2025-06-02T00:00:06+00:00" 1%nat
    "001532fe578031e080d124da84691e0a76535e62a6a90c7bee698027a7d9079a" 4
    "001a68a9fa675513e6ab7ab1fe727b5d5f0e063705cb3527328f4809bd8818ec".

Definition w2 : MedChainBlockchain.world :=
  ([[]; [tx1]],
   MedChainBlockchain.mk [genesis; block1] []
     (MedChainBlockchain.world_state (snd created))).

(** [bc.update_batch_status("batch001", "waiting")], twice within one
    millisecond *)
Definition updated : outcome string * MedChainBlockchain.t :=
  MedChainBlockchain.update_batch_status 1748858400456
    "2025-06-02T10:00:00+00:00" "batch001" "waiting" (snd w2).

Definition updated_again : outcome string * MedChainBlockchain.t :=
  MedChainBlockchain.update_batch_status 1748858400456
    "2025-06-02T10:00:00+00:00" "batch001" "waiting" (snd updated).

(** a transaction of the caller's own making *)
Definition forged : Transaction :=
  mkTransaction "TX-0-00000000" "CREATE_BATCH"
    [("batch_id", Json.Str "batch999")] "2025-06-03T00:00:00+00:00".
End Demo.

(* ===================================================================== *)
(** ** Sequences of calls and the log of a ledger *)
(* ===================================================================== *)

(** A call of one of the three public methods that change the ledger,
    with the clock readings it makes. *)
Inductive call :=
| CallCreate (ms : Z) (now : string)
             (batch_id drug_name manufacturer : string) (quantity : Z)
             (status : string)
| CallUpdate (ms : Z) (now : string) (batch_id status : string)
| CallMine (fuel : nat) (now : string).

Definition exec (c : call) (w : MedChainBlockchain.world)
  : option (outcome string * MedChainBlockchain.world) :=
  match c with
  | CallCreate ms now batch_id drug_name manufacturer quantity status =>
      let r := MedChainBlockchain.create_drug_batch
                 ms now batch_id drug_name manufacturer quantity status (snd w) in
      Some (fst r, (fst w, snd r))
  | CallUpdate ms now batch_id status =>
      let r := MedChainBlockchain.update_batch_status
                 ms now batch_id status (snd w) in
      Some (fst r, (fst w, snd r))
  | CallMine fuel now => MedChainBlockchain.mine fuel now w
  end.

(** The calls one after the other; a caller that catches the [ValueError]
    of a call goes on with the next call. *)
Fixpoint run (cs : list call) (w : MedChainBlockchain.world)
  : option (list (outcome string) * MedChainBlockchain.world) :=
  match cs with
  | [] => Some ([], w)
  | c :: cs' =>
      match exec c w with
      | None => None
      | Some (r, w1) =>
          match run cs' w1 with
          | None => None
          | Some (rs, w') => Some (r :: rs, w')
          end
      end
  end.

(** What a transaction of the log does to a world state, read off the
    two submitting methods: a [CREATE_BATCH] puts the payload and the
    timestamp under the batch id, an [UPDATE_STATUS] sets [status] and
    [timestamp] in the record that is there. *)
Definition apply_tx (ws : gmap string Dict) (tx : Transaction)
  : gmap string Dict :=
  match dict_get "batch_id" (payload tx) with
  | Some (Json.Str k) =>
      if String.eqb (type tx) "CREATE_BATCH" then
        <[k := dict_set "timestamp" (Json.Str (timestamp tx)) (payload tx)]> ws
      else if String.eqb (type tx) "UPDATE_STATUS" then
        match ws !! k, dict_get "status" (payload tx) with
        | Some record, Some status =>
            <[k := dict_set "timestamp" (Json.Str (timestamp tx))
                     (dict_set "status" status record)]> ws
        | _, _ => ws
        end
      else ws
  | _ => ws
  end.

Definition replay (log : list Transaction) : gmap string Dict :=
  fold_left apply_tx log ∅.

(* ===================================================================== *)
(** ** [scripts/setup_database.py]: the helpers *)
(* ===================================================================== *)

(** A Python [str] in full is a sequence of code points, from 0 to
    1114111; the surrogates, 55296 to 57343, are among them.  The
    passcode is any such sequence. *)
Definition is_surrogate (c : Z) : bool := (55296 <=? c) && (c <=? 57343).

(** UTF-8 of one code point that is not a surrogate: one byte below 128,
    two below 2048, three below 65536, four from there on. *)
Definition utf8 (c : Z) : list Z :=
  if c <? 128 then [c]
  else if c <? 2048 then
    [Z.lor 192 (Z.shiftr c 6); Z.lor 128 (Z.land c 63)]
  else if c <? 65536 then
    [Z.lor 224 (Z.shiftr c 12); Z.lor 128 (Z.land (Z.shiftr c 6) 63);
     Z.lor 128 (Z.land c 63)]
  else
    [Z.lor 240 (Z.shiftr c 18); Z.lor 128 (Z.land (Z.shiftr c 12) 63);
     Z.lor 128 (Z.land (Z.shiftr c 6) 63); Z.lor 128 (Z.land c 63)].

(** What [s.encode()] does: it returns the bytes, or raises
    [UnicodeEncodeError] with the position of the first surrogate
    ("surrogates not allowed"). *)
Inductive encoded (A : Type) :=
| Encoded (a : A)
| UnicodeEncodeError (start : nat).
Arguments Encoded {A} a.
Arguments UnicodeEncodeError {A} start.

Fixpoint encode_from (start : nat) (s : list Z) : encoded (list Z) :=
  match s with
  | [] => Encoded []
  | c :: s' =>
      if is_surrogate c then UnicodeEncodeError start
      else match encode_from (S start) s' with
           | Encoded bytes => Encoded (utf8 c ++ bytes)
           | UnicodeEncodeError i => UnicodeEncodeError i
           end
  end.

(** [s.encode()] on any [str] *)
Definition encode_utf8 (s : list Z) : encoded (list Z) := encode_from 0 s.

(** What the set-up script asks of its surroundings: the calls of the
    MongoDB driver, [print], and the clock.  A database is named by its
    name, a collection by the names of its database and itself, and a
    [datetime] by the reading of the clock. *)
Module Mongo.

Inductive bson :=
| Str (s : string)
| Int (z : Z)
| Array (items : list bson)
| Date (reading : Z).

Definition document := list (string * bson).

Inductive cmd : Type -> Type :=
| MongoClient (uri : string) : cmd unit
| list_collection_names (db : string) : cmd (list string)
| drop (db collection : string) : cmd unit
| create_collection (db name : string) : cmd unit
| insert_many (db collection : string) (docs : list document) : cmd unit
| create_index (db collection : string) (keys : list (string * Z))
               (unique : bool) : cmd unit
| close : cmd unit
| print (text : string) : cmd unit
| utcnow : cmd Z.

(** A call returns a value or raises an [Exception]; [msg] is what
    [str(e)] gives for it. *)
Inductive reply (X : Type) :=
| Value (x : X)
| Raise (msg : string).
Arguments Value {X} x.
Arguments Raise {X} msg.

(** A script: it returns, or it makes a call and goes on with the reply. *)
Inductive script (A : Type) :=
| Ret (a : A)
| Do {X : Type} (c : cmd X) (k : reply X -> script A).
Arguments Ret {A} a.
Arguments Do {A X} c k.

Fixpoint bind {A B} (m : script A) (f : A -> script B) : script B :=
  match m with
  | Ret a => f a
  | Do c k => Do c (fun r => bind (k r) f)
  end.

Definition call {X} (c : cmd X) : script (reply X) := Do c Ret.

(** One statement after the other inside a [try]: an exception of the
    first skips the second. *)
Definition and_then {A B} (m : script (reply A)) (f : A -> script (reply B))
  : script (reply B) :=
  bind m (fun r => match r with
                   | Value a => f a
                   | Raise e => Ret (Raise e)
                   end).

(** [for x in l: body] *)
Fixpoint for_each {A} (l : list A) (body : A -> script (reply unit))
  : script (reply unit) :=
  match l with
  | [] => Ret (Value tt)
  | a :: l' => and_then (body a) (fun _ => for_each l' body)
  end.

(** One call of a run with its reply. *)
Inductive entry :=
| Entry {X : Type} (c : cmd X) (r : reply X).

(** The surroundings: they answer every call, from a state of their own. *)
Definition handler (S : Type) : Type := forall X, cmd X -> S -> reply X * S.

(** A run of a script: the calls made, in order, and the result. *)
Fixpoint interp {S A} (h : handler S) (p : script A) (s : S)
  : list entry * A * S :=
  match p with
  | Ret a => ([], a, s)
  | Do c k =>
      let '(r, s1) := h _ c s in
      let '(t, a, s2) := interp h (k r) s1 in
      (Entry c r :: t, a, s2)
  end.

(** [Q] holds of the calls and the result of every run, whatever the
    replies. *)
Fixpoint always {A} (p : script A) (Q : list entry -> A -> Prop) : Prop :=
  match p with
  | Ret a => Q [] a
  | Do c k => forall r, always (k r) (fun t a => Q (Entry c r :: t) a)
  end.

End Mongo.

Module SetupDatabase.
Import Mongo.
Local Open Scope string_scope.

Notation "x <- m ;; k" := (and_then m (fun x => k))
  (at level 100, m at next level, right associativity, only parsing).

Definition MONGODB_URI : string := "mongodb://localhost:27017/".
Definition DATABASE_NAME : string := "medchain_mvp".

(** [hash_passcode]: [passcode.encode()] raises before anything is
    hashed when the passcode has a surrogate. *)
Definition hash_passcode (passcode : list Z) : encoded string :=
  match encode_utf8 passcode with
  | Encoded bytes => Encoded (Digest.sha256_hexdigest bytes)
  | UnicodeEncodeError start => UnicodeEncodeError start
  end.

(** [generate_aadhaar_id]; [drawn] is what
    [random.randint(100000000000, 999999999999)] returns. *)
Definition generate_aadhaar_id (drawn : Z) : string :=
  str_of_int drawn.

Definition collections_to_drop : list string :=
  ["drug_batches"; "scan_records"; "inventory"; "patients";
   "dispensing_records"; "audit_logs"; "dummy_numbers"].

Definition collections : list string :=
  ["drug_batches"; "audit_logs"; "inventory"; "patients"; "users";
   "blockchain_transactions"].

(** The sample documents; the arguments are the readings of
    [datetime.utcnow()], in the order the script makes them. *)
Definition drug_batches (t1 t2 : Z) : list document :=
  [[("batch_id", Str "BATCH-1ldf2g-ABCDE");
    ("drug_name", Str "Paracetamol 500mg");
    ("manufacturer", Str "Sun Pharma");
    ("quantity", Int 1000);
    ("manufacture_date", Str "2024-01-01");
    ("expiry_date", Str "2025-06-15");
    ("origin", Str "Mumbai");
    ("status", Str "dispatched");
    ("qr_code", Str "QR-eyJiYXRjaElkIjoiQkFUQ0gtMWxkZjJnLUFCQ0RFIn0=");
    ("blockchain_tx_id", Str "TX-1234567890");
    ("created_at", Date t1)];
   [("batch_id", Str "BATCH-1ldf2h-XYZAB");
    ("drug_name", Str "Amoxicillin 250mg");
    ("manufacturer", Str "Cipla Ltd");
    ("quantity", Int 500);
    ("manufacture_date", Str "2024-01-02");
    ("expiry_date", Str "2025-08-20");
    ("origin", Str "Goa");
    ("status", Str "in_transit");
    ("qr_code", Str "QR-eyJiYXRjaElkIjoiQkFUQ0gtMWxkZjJoLVhZWkFCIn0=");
    ("blockchain_tx_id", Str "TX-1234567891");
    ("created_at", Date t2)]].

Definition patients (t3 : Z) : list document :=
  [[("aadhaar_id", Str "1234-5678-9012");
    ("name", Str "Rajesh Kumar");
    ("age", Int 45);
    ("phone", Str "+91-9876543210");
    ("location", Str "Rural Health Center - Rajasthan");
    ("dob", Str "1979-03-15");
    ("health_history",
     Array [Str "Diabetes Type 2 (diagnosed 2018)";
            Str "Hypertension (controlled)";
            Str "Seasonal allergies"]);
    ("medicines_purchased",
     Array [Str "Metformin 500mg - 30 tablets (Jan 2024)";
            Str "Paracetamol 500mg - 20 tablets (Dec 2023)"]);
    ("created_at", Date t3)]].

Definition inventory_items (t4 t5 : Z) : list document :=
  [[("drug_name", Str "Paracetamol 500mg");
    ("current_stock", Int 45);
    ("min_threshold", Int 100);
    ("max_capacity", Int 500);
    ("location", Str "Rural Health Center - Rajasthan");
    ("location_type", Str "rural");
    ("batch_id", Str "BATCH-1ldf2g-ABCDE");
    ("expiry_date", Str "2025-06-15");
    ("last_updated", Date t4)];
   [("drug_name", Str "Amoxicillin 250mg");
    ("current_stock", Int 180);
    ("min_threshold", Int 50);
    ("max_capacity", Int 300);
    ("location", Str "AIIMS Delhi");
    ("location_type", Str "urban");
    ("batch_id", Str "BATCH-1ldf2h-XYZAB");
    ("expiry_date", Str "2025-08-20");
    ("last_updated", Date t5)]].

Definition users (t6 t7 t8 : Z) : list document :=
  [[("email", Str "manufacturer@sunpharma.com");
    ("role", Str "Manufacturer");
    ("org_name", Str "Sun Pharma Ltd");
    ("location", Str "Mumbai, Maharashtra");
    ("created_at", Date t6)];
   [("email", Str "distributor@delhi.com");
    ("role", Str "Distributor");
    ("org_name", Str "Delhi Distribution Center");
    ("location", Str "Delhi, India");
    ("created_at", Date t7)];
   [("email", Str "hospital@aiims.edu");
    ("role", Str "Hospital/Pharmacy");
    ("org_name", Str "AIIMS Delhi");
    ("location", Str "New Delhi, India");
    ("created_at", Date t8)]].

(** [x in l] for strings *)
Definition mem (x : string) (l : list string) : bool :=
  existsb (String.eqb x) l.

Definition newline : string := String (ascii_of_N 10) EmptyString.

(** [str(len(l))], as an f-string prints it *)
Definition len {A} (l : list A) : string := str_of_int (Z.of_nat (length l)).

(** Printed text is given as its UTF-8 bytes. *)
Definition drop_one (collection : string) : script (reply unit) :=
  names <- call (list_collection_names DATABASE_NAME) ;;
  if mem collection names then
    _ <- call (drop DATABASE_NAME collection) ;;
    call (print ("🗑️ Dropped collection: " +:+ collection))
  else Ret (Value tt).

Definition create_one (collection_name : string) : script (reply unit) :=
  names <- call (list_collection_names DATABASE_NAME) ;;
  if negb (mem collection_name names) then
    _ <- call (create_collection DATABASE_NAME collection_name) ;;
    call (print ("✅ Created collection: " +:+ collection_name))
  else Ret (Value tt).

(** The body of the [try], from after [client = pymongo.MongoClient(...)]
    to before [return True]. *)
Definition try_body : script (reply unit) :=
  _ <- call (print "🔗 Connected to MongoDB") ;;
  _ <- for_each collections_to_drop drop_one ;;
  _ <- for_each collections create_one ;;
  t1 <- call utcnow ;;
  t2 <- call utcnow ;;
  _ <- call (insert_many DATABASE_NAME "drug_batches" (drug_batches t1 t2)) ;;
  _ <- call (print "✅ Inserted sample drug batches") ;;
  t3 <- call utcnow ;;
  _ <- call (insert_many DATABASE_NAME "patients" (patients t3)) ;;
  _ <- call (print "✅ Inserted sample patients") ;;
  t4 <- call utcnow ;;
  t5 <- call utcnow ;;
  _ <- call (insert_many DATABASE_NAME "inventory" (inventory_items t4 t5)) ;;
  _ <- call (print "✅ Inserted sample inventory") ;;
  t6 <- call utcnow ;;
  t7 <- call utcnow ;;
  t8 <- call utcnow ;;
  _ <- call (insert_many DATABASE_NAME "users" (users t6 t7 t8)) ;;
  _ <- call (print "✅ Inserted sample users") ;;
  _ <- call (create_index DATABASE_NAME "drug_batches" [("batch_id", 1)] true) ;;
  _ <- call (create_index DATABASE_NAME "patients" [("aadhaar_id", 1)] true) ;;
  _ <- call (create_index DATABASE_NAME "audit_logs" [("timestamp", 1)] false) ;;
  _ <- call (create_index DATABASE_NAME "inventory"
               [("drug_name", 1); ("location", 1)] false) ;;
  _ <- call (print "✅ Created database indexes") ;;
  _ <- call (print (newline +:+
                    "🎉 MedChain database setup completed successfully!")) ;;
  _ <- call (print ("📊 Database: " +:+ DATABASE_NAME)) ;;
  _ <- call (print ("📋 Collections created: " +:+ len collections)) ;;
  _ <- call (print ("💊 Drug batches: " +:+ len (drug_batches t1 t2))) ;;
  _ <- call (print ("👥 Patients: " +:+ len (patients t3))) ;;
  _ <- call (print ("📦 Inventory items: " +:+ len (inventory_items t4 t5))) ;;
  call (print ("👤 Users: " +:+ len (users t6 t7 t8))).

(** [f"❌ Error setting up database: {str(e)}"] *)
Definition error_text (e : string) : string :=
  "❌ Error setting up database: " +:+ e.

(** [except Exception as e]: print the error and return [False]. *)
Definition handle_error (e : string) : script (reply bool) :=
  Do (print (error_text e))
     (fun p => match p with
               | Value _ => Ret (Value false)
               | Raise e' => Ret (Raise e')
               end).

(** [setup_medchain_database]: the [try] with its [except] and its
    [finally], which closes the client if it was made. *)
Definition setup_medchain_database : script (reply bool) :=
  Do (MongoClient MONGODB_URI)
     (fun made =>
        match made with
        | Raise e => handle_error e
        | Value _ =>
            bind try_body (fun r =>
            bind (match r with
                  | Value _ => Ret (Value true)
                  | Raise e => handle_error e
                  end) (fun result =>
            Do close (fun closed =>
                        match closed with
                        | Value _ => Ret result
                        | Raise e' => Ret (Raise e')
                        end)))
        end).

End SetupDatabase.

(** ** Runs of the set-up script

    A run is the script answered by some surroundings; what is observed
    of it is the list of the calls made, with their replies, and the
    result. *)

Definition trace_of {S A} (h : Mongo.handler S) (p : Mongo.script A) (s : S)
  : list Mongo.entry :=
  fst (fst (Mongo.interp h p s)).

Definition result_of {S A} (h : Mongo.handler S) (p : Mongo.script A) (s : S)
  : A :=
  snd (fst (Mongo.interp h p s)).

(** The call raised. *)
Definition raised (e : Mongo.entry) : bool :=
  match e with
  | Mongo.Entry _ (Mongo.Raise _) => true
  | Mongo.Entry _ (Mongo.Value _) => false
  end.

(** No call of the list raised. *)
Definition clean (t : list Mongo.entry) : bool :=
  forallb (fun e => negb (raised e)) t.

Definition closes {X} (c : Mongo.cmd X) : bool :=
  match c with
  | Mongo.close => true
  | _ => false
  end.

Definition is_close (e : Mongo.entry) : bool :=
  match e with
  | Mongo.Entry c _ => closes c
  end.

Definition is_insert (e : Mongo.entry) : bool :=
  match e with
  | Mongo.Entry (Mongo.insert_many _ _ _) _ => true
  | _ => false
  end.

(** The listing that [prev], the call made just before, returned. *)
Definition listed (prev : option Mongo.entry) (names : list string) : Prop :=
  prev = Some (Mongo.Entry
                 (Mongo.list_collection_names SetupDatabase.DATABASE_NAME)
                 (Mongo.Value names)).

(** The discipline of the script towards the server: the client is made
    first and for [MONGODB_URI]; every call on a database is on
    [DATABASE_NAME]; a collection is dropped only if it is one of
    [collections_to_drop] and the listing just made has it; it is created
    only if it is one of [collections] and the listing just made does not
    have it. *)
Definition allowed (prev : option Mongo.entry) {X} (c : Mongo.cmd X) : Prop :=
  match c with
  | Mongo.MongoClient uri => uri = SetupDatabase.MONGODB_URI /\ prev = None
  | Mongo.list_collection_names db => db = SetupDatabase.DATABASE_NAME
  | Mongo.drop db collection =>
      db = SetupDatabase.DATABASE_NAME /\
      In collection SetupDatabase.collections_to_drop /\
      exists names, listed prev names /\ In collection names
  | Mongo.create_collection db name =>
      db = SetupDatabase.DATABASE_NAME /\
      In name SetupDatabase.collections /\
      exists names, listed prev names /\ ~ In name names
  | Mongo.insert_many db _ _ => db = SetupDatabase.DATABASE_NAME
  | Mongo.create_index db _ _ _ => db = SetupDatabase.DATABASE_NAME
  | Mongo.close => True
  | Mongo.print _ => True
  | Mongo.utcnow => True
  end.

(** Every call of [t], made after [prev], is allowed where it is made. *)
Fixpoint guarded_from (prev : option Mongo.entry) (t : list Mongo.entry)
  : Prop :=
  match t with
  | [] => True
  | Mongo.Entry c r :: t' =>
      allowed prev c /\ guarded_from (Some (Mongo.Entry c r)) t'
  end.

(** What the script returns once its [except] clause has printed, and once
    its [finally] clause has closed the client: an exception of the later
    statement replaces what was to be returned. *)
Definition after_print (printed : Mongo.reply unit) : Mongo.reply bool :=
  match printed with
  | Mongo.Value _ => Mongo.Value false
  | Mongo.Raise e => Mongo.Raise e
  end.

Definition after_close (closed : Mongo.reply unit) (result : Mongo.reply bool)
  : Mongo.reply bool :=
  match closed with
  | Mongo.Value _ => result
  | Mongo.Raise e => Mongo.Raise e
  end.


(** No call of the list closes the client. *)
Definition unclosed (t : list Mongo.entry) : bool :=
  forallb (fun e => negb (is_close e)) t.

(** The reading of the clock that the call returned. *)
Definition reading (e : Mongo.entry) : option Z :=
  match e with
  | Mongo.Entry c r =>
      match c in Mongo.cmd X return Mongo.reply X -> option Z with
      | Mongo.utcnow =>
          fun r => match r with
                   | Mongo.Value z => Some z
                   | Mongo.Raise _ => None
                   end
      | _ => fun _ => None
      end r
  end.

(** What the call asked to insert: database, collection, documents. *)
Definition insertion (e : Mongo.entry)
  : option (string * string * list Mongo.document) :=
  match e with
  | Mongo.Entry (Mongo.insert_many db collection docs) _ =>
      Some (db, collection, docs)
  | _ => None
  end.

Definition readings (t : list Mongo.entry) : list Z := omap reading t.

Definition inserted (t : list Mongo.entry)
  : list (string * string * list Mongo.document) :=
  omap insertion t.

(** The client, made. *)
Definition the_client : Mongo.entry :=
  Mongo.Entry (Mongo.MongoClient SetupDatabase.MONGODB_URI) (Mongo.Value tt).

(** Four properties of the calls of a part of the [try] body, each kept
    by sequencing.  [inner]: it keeps the discipline wherever it is put
    after the first call.  [tidy]: it does not close the client, and it
    stops at its first exception, which is its result.  [quiet]: it
    neither reads the clock nor inserts.  [on_success]: if it returns,
    it has made the four insertions from eight readings of the clock. *)
Definition inner (A : Type) (t : list Mongo.entry) (_ : Mongo.reply A)
  : Prop :=
  forall prev, prev <> None -> guarded_from prev t.

Definition stops_at {A} (t : list Mongo.entry) (r : Mongo.reply A) : Prop :=
  match r with
  | Mongo.Value _ => clean t = true
  | Mongo.Raise e =>
      exists pre X (c : Mongo.cmd X),
        t = pre ++ [Mongo.Entry c (Mongo.Raise e)] /\
        clean pre = true /\ closes c = false
  end.

Definition tidy (A : Type) (t : list Mongo.entry) (r : Mongo.reply A) : Prop :=
  unclosed t = true /\ stops_at t r.

Definition quiet (A : Type) (t : list Mongo.entry) (_ : Mongo.reply A)
  : Prop :=
  readings t = [] /\ inserted t = [].

Definition sample_data (t : list Mongo.entry) : Prop :=
  exists t1 t2 t3 t4 t5 t6 t7 t8,
    readings t = [t1; t2; t3; t4; t5; t6; t7; t8] /\
    inserted t =
      [(SetupDatabase.DATABASE_NAME, "drug_batches"%string,
        SetupDatabase.drug_batches t1 t2);
       (SetupDatabase.DATABASE_NAME, "patients"%string,
        SetupDatabase.patients t3);
       (SetupDatabase.DATABASE_NAME, "inventory"%string,
        SetupDatabase.inventory_items t4 t5);
       (SetupDatabase.DATABASE_NAME, "users"%string,
        SetupDatabase.users t6 t7 t8)].

Definition on_success (A : Type) (t : list Mongo.entry) (r : Mongo.reply A)
  : Prop :=
  match r with
  | Mongo.Value _ => sample_data t
  | Mongo.Raise _ => True
  end.

(** Two servers to run the script against.  [memory] keeps the
    collections in a list and counts the readings of its clock;
    [offline] is no server at all: the client is made, as the driver makes
    it without connecting, and every call on the database raises. *)
Record server := mkServer {
  held : list (string * list Mongo.document);
  clock : Z
}.

Definition insert_into (collection : string) (docs : list Mongo.document)
  (cs : list (string * list Mongo.document))
  : list (string * list Mongo.document) :=
  if SetupDatabase.mem collection (map fst cs)
  then map (fun p => if String.eqb (fst p) collection
                     then (fst p, snd p ++ docs) else p) cs
  else cs ++ [(collection, docs)].

Definition memory : Mongo.handler server :=
  fun X c s =>
    match c in Mongo.cmd X return Mongo.reply X * server with
    | Mongo.MongoClient _ => (Mongo.Value tt, s)
    | Mongo.list_collection_names _ => (Mongo.Value (map fst (held s)), s)
    | Mongo.drop _ collection =>
        (Mongo.Value tt,
         mkServer (filter (fun p => negb (String.eqb (fst p) collection))
                          (held s))
                  (clock s))
    | Mongo.create_collection _ name =>
        if SetupDatabase.mem name (map fst (held s))
        then (Mongo.Raise ("collection " +:+ name +:+ " already exists"), s)
        else (Mongo.Value tt, mkServer (held s ++ [(name, [])]) (clock s))
    | Mongo.insert_many _ collection docs =>
        (Mongo.Value tt,
         mkServer (insert_into collection docs (held s)) (clock s))
    | Mongo.create_index _ _ _ _ => (Mongo.Value tt, s)
    | Mongo.close => (Mongo.Value tt, s)
    | Mongo.print _ => (Mongo.Value tt, s)
    | Mongo.utcnow => (Mongo.Value (clock s), mkServer (held s) (clock s + 1))
    end.

(** A server left by an earlier run: an old batch, and no users yet. *)
Definition left_behind : server :=
  mkServer [("drug_batches"%string,
             [[("batch_id"%string, Mongo.Str "BATCH-OLD")]]);
            ("users"%string, [])]
           0.

Definition refused : string :=
  "localhost:27017: [Errno 111] Connection refused".

Definition offline : Mongo.handler unit :=
  fun X c s =>
    match c in Mongo.cmd X return Mongo.reply X * unit with
    | Mongo.MongoClient _ => (Mongo.Value tt, s)
    | Mongo.list_collection_names _ => (Mongo.Raise refused, s)
    | Mongo.drop _ _ => (Mongo.Raise refused, s)
    | Mongo.create_collection _ _ => (Mongo.Raise refused, s)
    | Mongo.insert_many _ _ _ => (Mongo.Raise refused, s)
    | Mongo.create_index _ _ _ _ => (Mongo.Raise refused, s)
    | Mongo.close => (Mongo.Value tt, s)
    | Mongo.print _ => (Mongo.Value tt, s)
    | Mongo.utcnow => (Mongo.Value 0, s)
    end.

(* ===================================================================== *)
(** ** Reading back what [json.dumps] wrote *)

(** The 256 characters. *)
Definition all_ascii : list ascii := map ascii_of_nat (seq 0 256).

(** [json.dumps] on one code point of any [str], as [ensure_ascii=True]
    writes it: as [Json.escape_char] does up to 255, a [\u] escape of
    four digits up to 65535, and beyond that the two surrogates that
    encode the code point in UTF-16, each as a [\u] escape. *)
Definition hex4 (n : Z) (rest : string) : string :=
  Digest.hex_byte (Z.shiftr n 8) (Digest.hex_byte (Z.land n 255) rest).

Definition escape_point (c : Z) (rest : string) : string :=
  if c =? 34 then String Json.backslash (String Json.quote_char rest)
  else if c =? 92 then String Json.backslash (String Json.backslash rest)
  else if c =? 10 then String Json.backslash (String "n" rest)
  else if c =? 13 then String Json.backslash (String "r" rest)
  else if c =? 9 then String Json.backslash (String "t" rest)
  else if c =? 8 then String Json.backslash (String "b" rest)
  else if c =? 12 then String Json.backslash (String "f" rest)
  else if (32 <=? c) && (c <=? 126) then String (ascii_of_N (Z.to_N c)) rest
  else if c <? 65536 then String Json.backslash (String "u" (hex4 c rest))
  else
    let n := c - 65536 in
    String Json.backslash (String "u"
      (hex4 (Z.lor 55296 (Z.land (Z.shiftr n 10) 1023))
         (String Json.backslash (String "u"
            (hex4 (Z.lor 56320 (Z.land n 1023)) rest))))).

Definition escape_points (s : list Z) : string :=
  fold_right escape_point EmptyString s.

(** A character of a decimal numeral: a digit or the minus sign. *)
Definition is_numeral (c : ascii) : bool :=
  is_digit c || (Z.of_N (N_of_ascii c) =? 45).

(** [r] does not go on with a character that passes [p]. *)
Definition stops (p : ascii -> bool) (r : string) : bool :=
  match r with
  | EmptyString => true
  | String c _ => negb (p c)
  end.

(** What follows the first part in [Json.join]: each further part, after
    a separator. *)
Fixpoint more (sep : string) (parts : list string) : string :=
  match parts with
  | [] => ""
  | p :: rest => sep +:+ p +:+ more sep rest
  end.

(** A member as [Json.dumps] writes it, and a member with its value
    written. *)
Definition member_text (key_sep : string) (kv : string * string) : string :=
  Json.quote (fst kv) +:+ key_sep +:+ snd kv.

Definition written (dumps : Json.value -> string) (kv : string * Json.value)
  : string * string :=
  (fst kv, dumps (snd kv)).

(** Payloads of integers and strings, as the commands make them. *)
Definition flat_value (v : Json.value) : bool :=
  match v with
  | Json.Int _ | Json.Str _ => true
  | _ => false
  end.

Definition flat (d : Dict) : bool :=
  forallb (fun kv => flat_value (snd kv)) d.

(** [json.dumps] writes the value if it is not an integer of more than
    4300 digits. *)
Definition writes (v : Json.value) : bool :=
  match v with
  | Json.Int z => str_returns z
  | _ => true
  end.

Definition all_flat (txs : list Transaction) : bool :=
  forallb (fun tx => flat (payload tx)) txs.

(** The blocks [_calculate_hash] can hash: payloads of integers and
    strings, and every integer of the block of at most 4300 digits. *)
Definition hashable (σ : store) (b : Block.t) : bool :=
  str_returns (Block.index b) && str_returns (Block.nonce b) &&
  forallb (fun tx => flat (payload tx) &&
                     forallb (fun kv => writes (snd kv)) (payload tx))
          (deref σ (Block.transactions b)).

Definition flat_text (kd : string * string) : Prop :=
  exists v, flat_value v = true /\ snd kd = Json.dumps "," ":" true v.

(** No key twice, as in a Python dictionary. *)
Definition keyed (txs : list Transaction) : Prop :=
  Forall (fun tx => List.NoDup (map fst (payload tx))) txs.

(** The same transaction, but for the order of the keys of the payload. *)
Definition tx_same (tx tx' : Transaction) : Prop :=
  tx_id tx = tx_id tx' /\ type tx = type tx' /\
  timestamp tx = timestamp tx' /\ Permutation (payload tx) (payload tx').

Definition key_le (kv kv' : string * string) : Prop :=
  String.leb (fst kv) (fst kv') = true.

(** The payloads of [create_drug_batch] and [update_batch_status], and
    the transactions the two commands make. *)
Definition create_payload (k dn mf : string) (q : Z) (st : string) : Dict :=
  [("batch_id", Json.Str k); ("drug_name", Json.Str dn);
   ("manufacturer", Json.Str mf); ("quantity", Json.Int q);
   ("status", Json.Str st)]%string.

Definition update_payload (k st : string) : Dict :=
  [("batch_id", Json.Str k); ("status", Json.Str st)]%string.

Definition minted (tx : Transaction) : Prop :=
  (exists ms now k dn mf q st,
      tx = MedChainBlockchain._new_tx ms now "CREATE_BATCH"
             (create_payload k dn mf q st)) \/
  (exists ms now k st,
      tx = MedChainBlockchain._new_tx ms now "UPDATE_STATUS"
             (update_payload k st)).

(** The transaction of the demo with the first two keys of its payload
    the other way round, and the store of the demo with it in place of
    the original. *)
Definition reordered : Transaction :=
  mkTransaction "TX-1748772000123-5888e43c" "CREATE_BATCH"
    [("drug_name", Json.Str "Paracetamol"); ("batch_id", Json.Str "batch001");
     ("manufacturer", Json.Str "Acme Pharma"); ("quantity", Json.Int 1000);
     ("status", Json.Str "pending")]
    "2025-06-01T10:00:00+00:00".

Definition reordered_store : list (list Transaction) := [[]; [reordered]].

(** well formed: no integer of more than 4300 digits, which [json.dumps]
    does not write, and no key twice in any dictionary *)
Fixpoint wf (v : Json.value) : Prop :=
  match v with
  | Json.Int z => str_returns z = true
  | Json.Str _ => True
  | Json.Arr items =>
      (fix all (l : list Json.value) : Prop :=
         match l with
         | [] => True
         | x :: l' => wf x /\ all l'
         end) items
  | Json.Obj members =>
      List.NoDup (map fst members) /\
      (fix all (l : list (string * Json.value)) : Prop :=
         match l with
         | [] => True
         | (_, x) :: l' => wf x /\ all l'
         end) members
  end.

(** what may follow a value: not a digit, nor a fraction or an exponent *)
Definition after_value (rest : string) : bool :=
  stops is_digit rest && negb (JsonDecoder.goes_on rest).

(** the first character of a value: a digit, a minus sign, a quote or an
    opening bracket *)
Definition opens_value (c : ascii) : bool :=
  let n := JsonDecoder.code c in
  is_numeral c || (n =? 34) || (n =? 91) || (n =? 123).

(** A value is read back from its text, whatever follows, with fuel
    for twice the length of the text. *)
Definition value_ok (v : Json.value) : Prop :=
  wf v ->
  forall (fuel : nat) (rest : string),
    (2 * String.length (Json.dumps ", " ": " false v) <= fuel)%nat ->
    after_value rest = true ->
    JsonDecoder.parse_value fuel (Json.dumps ", " ": " false v +:+ rest)
    = JsonDecoder.Decoded (v, rest).

(** A member as [json.dumps] writes it with its default separators. *)
Definition member (kv : string * Json.value) : string :=
  Json.quote (fst kv) +:+ ": " +:+ Json.dumps ", " ": " false (snd kv).

(** A record of the world state: no key twice, integers and strings,
    the integers of at most 4300 digits. *)
Definition record_ok (record : Dict) : Prop :=
  List.NoDup (map fst record) /\ flat record = true /\
  forallb (fun kv => writes (snd kv)) record = true.

(** What [json.loads] returned, read as a dictionary of records. *)
Definition as_state (v : Json.value) : option (gmap string Dict) :=
  match v with
  | Json.Obj members =>
      foldr (fun kv acc =>
               match snd kv, acc with
               | Json.Obj record, Some m => Some (<[fst kv := record]> m)
               | _, _ => None
               end)
            (Some ∅) members
  | _ => None
  end.

(* ===================================================================== *)
(** ** The library models against known values *)
(* ===================================================================== *)

Example sha_constants :
  length Digest.first_primes = 64%nat /\
  nth 0 Digest.sha_K 0 = 0x428a2f98 /\ nth 63 Digest.sha_K 0 = 0xc67178f2 /\
  nth 0 Digest.sha_H0 0 = 0x6a09e667 /\ nth 7 Digest.sha_H0 0 = 0x5be0cd19.
Proof. vm_compute. repeat split. Qed.

Example sha256_abc :
  Digest.sha256_hexdigest (encode "abc") =
  "ba7816bf8f01cfea414140de5dae2223b00361a396177a9cb410ff61f20015ad"%string.
Proof. vm_compute. reflexivity. Qed.

Example sha256_empty :
  Digest.sha256_hexdigest (encode "") =
  "e3b0c44298fc1c149afbf4c8996fb92427ae41e4649b934ca495991b7852b855"%string.
Proof. vm_compute. reflexivity. Qed.

Example sha256_two_blocks :
  Digest.sha256_hexdigest
    (encode "abcdbcdecdefdefgefghfghighijhijkijkljklmklmnlmnomnopnopq") =
  "248d6a61d20638b8e5c026930c3e6039a33ce45964ff2167f6ecedd419db06c1"%string.
Proof. vm_compute. reflexivity. Qed.

Example sha256_a119 :
  Digest.sha256_hexdigest (encode (repeat_char "a" 119)) =
  "31eba51c313a5c08226adf18d4a359cfdfd8d2e816b13f4af952f7ea6584dcfb"%string.
Proof. vm_compute. reflexivity. Qed.

Example md5_empty :
  Digest.md5_hexdigest (encode "") = "d41d8cd98f00b204e9800998ecf8427e"%string.
Proof. vm_compute. reflexivity. Qed.

Example md5_abc :
  Digest.md5_hexdigest (encode "abc") = "900150983cd24fb0d6963f7d28e17f72"%string.
Proof. vm_compute. reflexivity. Qed.

Example md5_a56 :
  Digest.md5_hexdigest (encode (repeat_char "a" 56)) =
  "3b0c8ac703f828b04c6c197006d17218"%string.
Proof. vm_compute. reflexivity. Qed.

Example md5_a200 :
  Digest.md5_hexdigest (encode (repeat_char "a" 200)) =
  "887f30b43b2867f4a9accceee7d16e6c"%string.
Proof. vm_compute. reflexivity. Qed.

Example dumps_sorted_compact :
  Json.dumps "," ":" true
    (Json.Obj [("b", Json.Int 1); ("a", Json.Int (-5));
               ("B", Json.Arr [Json.Int 1; Json.Str "x"; Json.Obj []]);
               ("", Json.Int 0)]%string) =
  String "{" (Json.quote "" +:+ ":0," +:+ Json.quote "B" +:+ ":[1," +:+
              Json.quote "x" +:+ ",{}]," +:+ Json.quote "a" +:+ ":-5," +:+
              Json.quote "b" +:+ ":1}").
Proof. vm_compute. reflexivity. Qed.

Example escape_control_and_high :
  Json.escape (String (ascii_of_N 10) (String (ascii_of_N 127)
                 (String (ascii_of_N 233) (String (ascii_of_N 1) "a"%string)))) =
  "\n\u007f\u00e9\u0001a"%string.
Proof. vm_compute. reflexivity. Qed.

Example demo_constructed : Demo.constructed = Some Demo.w0.
Proof. vm_compute. reflexivity. Qed.

Example demo_created_id :
  fst Demo.created = Returned "TX-1748772000123-5888e43c"%string.
Proof. vm_compute. reflexivity. Qed.

Example demo_sealed1 :
  Demo.sealed1 = Some (Returned (Block.hash Demo.block1), Demo.w2).
Proof. vm_compute. reflexivity. Qed.

(* ===================================================================== *)
(** ** Strings and digests *)
(* ===================================================================== *)

Section StringFacts.
Local Open Scope nat_scope.

Lemma length_app_str (a b : string) :
  String.length (a +:+ b) = String.length a + String.length b.
Proof. induction a as [|c a IH]; simpl; [reflexivity | now rewrite IH]. Qed.

Lemma app_str_inj (a1 a2 b1 b2 : string) :
  String.length a1 = String.length a2 ->
  a1 +:+ b1 = a2 +:+ b2 -> a1 = a2 /\ b1 = b2.
Proof.
  revert a2; induction a1 as [|c a1 IH]; intros [|c2 a2]; simpl;
    try discriminate.
  - intros _ H; split; [reflexivity | exact H].
  - intros Hlen H. injection Hlen as Hlen. injection H as -> H.
    destruct (IH a2 Hlen H) as [-> ->]. split; reflexivity.
Qed.



Lemma length_take_str n s :
  n <= String.length s -> String.length (take_str n s) = n.
Proof.
  revert s; induction n as [|n IH]; intros s; simpl; [reflexivity |].
  destruct s as [|c s]; simpl; [lia |].
  intros H. rewrite IH; [reflexivity | lia].
Qed.

Lemma length_hex_of_bytes bs :
  String.length (Digest.hex_of_bytes bs) = 2 * List.length bs.
Proof.
  induction bs as [|b bs IH]; simpl; [reflexivity |]. rewrite IH. lia.
Qed.

Lemma length_sha_fold blocks h :
  List.length h = 8 ->
  List.length (fold_left Digest.sha_compress blocks h) = 8.
Proof.
  revert h; induction blocks as [|blk blocks IH]; intros h Hh; simpl;
    [exact Hh |].
  apply IH. reflexivity.
Qed.

(** A SHA-256 hexadecimal digest has 64 characters. *)
Lemma length_sha256_hexdigest msg :
  String.length (Digest.sha256_hexdigest msg) = 64.
Proof.
  unfold Digest.sha256_hexdigest. rewrite length_hex_of_bytes.
  pose proof (length_sha_fold (Digest.chunks 64 (Digest.sha_pad msg))
                Digest.sha_H0 eq_refl) as H.
  unfold Digest.sha256_words.
  destruct (fold_left _ _ _) as [|a [|b [|c [|d [|e [|f [|g [|h [|]]]]]]]]];
    simpl in H; try discriminate. reflexivity.
Qed.

(** An MD5 hexadecimal digest has 32 characters. *)
Lemma length_md5_hexdigest msg :
  String.length (Digest.md5_hexdigest msg) = 32.
Proof. unfold Digest.md5_hexdigest. rewrite length_hex_of_bytes. reflexivity. Qed.

Lemma str_of_int_inj z1 z2 : str_of_int z1 = str_of_int z2 -> z1 = z2.
Proof.
  unfold str_of_int. intros H.
  assert (Hnn : forall z, Z.to_int z <> Decimal.Pos Decimal.Nil /\
                          Z.to_int z <> Decimal.Neg Decimal.Nil).
  { intros [|p|p]; simpl; split; try discriminate;
      intros [= Hp]; now apply DecimalPos.Unsigned.to_uint_nonnil in Hp. }
  apply DecimalZ.to_int_inj.
  destruct (Hnn z1) as [H1 H1'], (Hnn z2) as [H2 H2'].
  pose proof (NilZero.isi _ H1 H1') as E1.
  pose proof (NilZero.isi _ H2 H2') as E2.
  rewrite H in E1. congruence.
Qed.
End StringFacts.

(** Decimal numerals. *)
Section Decimal.
Import Decimal.
Local Open Scope N_scope.

Lemma usize_nb_digits d :
  DecimalPos.Unsigned.usize d = N.of_nat (nb_digits d).
Proof.
  induction d; cbn [DecimalPos.Unsigned.usize nb_digits];
    rewrite ?IHd, ?Nat2N.inj_succ; reflexivity.
Qed.

Lemma of_lu_lt d :
  DecimalPos.Unsigned.of_lu d < 10 ^ DecimalPos.Unsigned.usize d.
Proof.
  induction d; cbn [DecimalPos.Unsigned.of_lu DecimalPos.Unsigned.usize];
    rewrite ?N.pow_succ_r'; lia.
Qed.

(** The value of a numeral is below ten to the number of its digits. *)
Lemma of_uint_lt d : Pos.of_uint d < 10 ^ N.of_nat (nb_digits d).
Proof.
  rewrite DecimalPos.Unsigned.of_uint_alt.
  rewrite <- (DecimalFacts.nb_digits_rev d), <- usize_nb_digits.
  apply of_lu_lt.
Qed.

Definition leading_nonzero (d : uint) : Prop :=
  match d with
  | Nil | D0 _ => False
  | _ => True
  end.

(** A numeral that does not start with 0 is at least ten to the number
    of its other digits. *)
Lemma of_uint_ge d :
  leading_nonzero d -> 10 ^ N.of_nat (Nat.pred (nb_digits d)) <= Pos.of_uint d.
Proof.
  destruct d; cbn [leading_nonzero]; try contradiction; intros _;
    cbn [Pos.of_uint nb_digits Nat.pred];
    rewrite DecimalPos.Unsigned.of_uint_acc_rev, usize_nb_digits; nia.
Qed.

Lemma to_uint_leading_nonzero p : leading_nonzero (Pos.to_uint p).
Proof.
  pose proof (DecimalPos.Unsigned.to_of (Pos.to_uint p)) as H.
  rewrite DecimalPos.Unsigned.of_to in H. cbn [N.to_uint] in H.
  pose proof (DecimalPos.Unsigned.to_uint_nonzero p) as Hz.
  pose proof (DecimalPos.Unsigned.to_uint_nonnil p) as Hn.
  destruct (Pos.to_uint p) as [|l| | | | | | | | |] eqn:E;
    cbn [leading_nonzero]; auto.
  rewrite DecimalFacts.unorm_D0 in H.
  destruct (uint_eq_dec l Nil) as [-> | Hl]; [now apply Hz |].
  pose proof (DecimalFacts.nb_digits_unorm l Hl) as Hle.
  rewrite <- H in Hle. cbn [nb_digits] in Hle. lia.
Qed.

Lemma length_string_of_uint d :
  String.length (NilEmpty.string_of_uint d) = nb_digits d.
Proof. induction d; cbn; congruence. Qed.

Lemma string_of_uint_digits d :
  all_chars is_digit (NilEmpty.string_of_uint d) = true.
Proof. induction d; cbn [NilEmpty.string_of_uint all_chars]; auto. Qed.
End Decimal.

(** [str(p)] for a positive [p]: as many characters as [p] has decimal
    digits, all of them digits, the first not a zero. *)
Lemma str_of_int_positive p :
  let s := str_of_int (Zpos p) in
  10 ^ Z.of_nat (Nat.pred (String.length s)) <= Zpos p < 10 ^ Z.of_nat (String.length s) /\
  all_chars is_digit s = true /\
  startswith "0" s = false.
Proof.
  cbv zeta. unfold str_of_int. cbn [Z.to_int NilZero.string_of_int].
  pose proof (to_uint_leading_nonzero p) as Hlead.
  pose proof (of_uint_lt (Pos.to_uint p)) as Hlt.
  pose proof (of_uint_ge (Pos.to_uint p) Hlead) as Hge.
  rewrite DecimalPos.Unsigned.of_to in Hlt, Hge.
  assert (Hs : NilZero.string_of_uint (Pos.to_uint p) =
               NilEmpty.string_of_uint (Pos.to_uint p)).
  { destruct (Pos.to_uint p); [contradiction | reflexivity ..]. }
  rewrite Hs, length_string_of_uint. split; [| split].
  - split.
    + apply N2Z.inj_le in Hge. rewrite N2Z.inj_pow, nat_N_Z in Hge. exact Hge.
    + apply N2Z.inj_lt in Hlt. rewrite N2Z.inj_pow, nat_N_Z in Hlt. exact Hlt.
  - apply string_of_uint_digits.
  - destruct (Pos.to_uint p); cbn [leading_nonzero] in Hlead;
      try contradiction; reflexivity.
Qed.

(** [str(z)] returns exactly for the integers below ten to the 4300. *)
Lemma str_returns_iff z : str_returns z = true <-> Z.abs z < 10 ^ 4300.
Proof.
  unfold str_returns, int_max_str_digits. rewrite Nat.leb_le.
  assert (Hup : forall n : nat, (n <= 4300)%nat -> 10 ^ Z.of_nat n <= 10 ^ 4300).
  { intros n Hn. apply Z.pow_le_mono_r; [reflexivity |].
    change 4300 with (Z.of_nat 4300). now apply Nat2Z.inj_le. }
  assert (Hdown : forall n : nat, (4300 <= n)%nat -> 10 ^ 4300 <= 10 ^ Z.of_nat n).
  { intros n Hn. apply Z.pow_le_mono_r; [reflexivity |].
    change 4300 with (Z.of_nat 4300). now apply Nat2Z.inj_le. }
  assert (Hpos : 0 < 10 ^ 4300) by now apply Z.pow_pos_nonneg.
  set (B := 10 ^ 4300) in *. clearbody B.
  destruct (Z.abs z) as [| p | p] eqn:E; [| | lia].
  - split; [intros _; exact Hpos | intros _; simpl; lia].
  - destruct (str_of_int_positive p) as ((Hge & Hlt) & _). cbv zeta in *.
    set (n := String.length (str_of_int (Z.pos p))) in *. split.
    + intros Hn. eapply Z.lt_le_trans; [exact Hlt | now apply Hup].
    + intros Hz. destruct (Nat.le_gt_cases n 4300) as [Hn | Hn]; [exact Hn |].
      exfalso. assert (H : B <= 10 ^ Z.of_nat (Nat.pred n)) by (apply Hdown; lia).
      lia.
Qed.

(* ===================================================================== *)
(** ** The mining loop *)
(* ===================================================================== *)

Section Mining.
Variables (difficulty : nat) (σ : store).

Lemma block_string_ignores_hash i ts txs ph n h h' :
  Block.block_string σ (Block.mk i ts txs ph n h) =
  Block.block_string σ (Block.mk i ts txs ph n h').
Proof. reflexivity. Qed.

Lemma rehash_rehash k j b :
  Block.rehash_at σ k (Block.rehash_at σ j b) = Block.rehash_at σ k b.
Proof. destruct b. reflexivity. Qed.

Lemma rehash_nonce k b : Block.nonce (Block.rehash_at σ k b) = k.
Proof. reflexivity. Qed.

(** After [rehash_at] the stored hash is the hash of the stored fields. *)
Lemma rehash_consistent k b :
  Block._calculate_hash σ (Block.rehash_at σ k b) =
  Block.hash (Block.rehash_at σ k b).
Proof. destruct b. reflexivity. Qed.


Lemma mine_at_step fuel n b :
  Block.mine_at difficulty fuel σ (Block.rehash_at σ n b) =
  if startswith (repeat_char "0" difficulty)
                (Block.hash (Block.rehash_at σ n b))
  then Some (Block.rehash_at σ n b)
  else match fuel with
       | O => None
       | S fuel' =>
           Block.mine_at difficulty fuel' σ (Block.rehash_at σ (n + 1) b)
       end.
Proof.
  destruct fuel as [|fuel']; [reflexivity |].
  cbn [Block.mine_at]. now rewrite rehash_nonce, rehash_rehash.
Qed.

(** Whatever the loop returns is the block at the first nonce, counted
    from where the loop started, at which the condition holds. *)
Lemma mine_at_sound fuel :
  forall n b b',
    Block.mine_at difficulty fuel σ (Block.rehash_at σ n b) = Some b' ->
    exists k, n <= k <= n + Z.of_nat fuel /\
              b' = Block.rehash_at σ k b /\
              sealed_by difficulty σ b k /\
              forall j, n <= j < k -> ~ sealed_by difficulty σ b j.
Proof.
  induction fuel as [|fuel IH]; intros n b b' H; rewrite mine_at_step in H;
    destruct (startswith _ _) eqn:E; try discriminate.
  - injection H as <-. exists n.
    split; [lia |]. split; [reflexivity |]. split; [exact E |]. intros; lia.
  - injection H as <-. exists n.
    split; [lia |]. split; [reflexivity |]. split; [exact E |]. intros; lia.
  - destruct (IH _ _ _ H) as (k & Hk & -> & Hs & Hmin).
    exists k. split; [lia |]. split; [reflexivity |]. split; [exact Hs |].
    intros j Hj Hsj. destruct (Z.eq_dec j n) as [-> | Hne].
    + unfold sealed_by in Hsj. congruence.
    + apply (Hmin j); [lia | exact Hsj].
Qed.

(** The loop returns as soon as the fuel reaches a nonce at which the
    condition holds. *)
Lemma mine_at_complete fuel :
  forall n b k,
    n <= k <= n + Z.of_nat fuel -> sealed_by difficulty σ b k ->
    exists b', Block.mine_at difficulty fuel σ (Block.rehash_at σ n b) = Some b'.
Proof.
  induction fuel as [|fuel IH]; intros n b k Hk Hs; rewrite mine_at_step;
    destruct (startswith _ _) eqn:E; eauto.
  - assert (k = n) as -> by lia. unfold sealed_by in Hs. congruence.
  - destruct (Z.eq_dec k n) as [-> | Hne].
    + unfold sealed_by in Hs. congruence.
    + apply (IH (n + 1) b k); [lia | exact Hs].
Qed.


Lemma init_is_rehash now i ℓ ph :
  Block.__init__ σ now i ℓ ph =
  Block.rehash_at σ 0 (Block.mk i now ℓ ph 0 EmptyString).
Proof. reflexivity. Qed.

Lemma rehash_init k now i ℓ ph :
  Block.rehash_at σ k (Block.__init__ σ now i ℓ ph) =
  Block.rehash_at σ k (Block.mk i now ℓ ph 0 EmptyString).
Proof. reflexivity. Qed.
End Mining.

(* ===================================================================== *)
(** ** Sealing a block *)
(* ===================================================================== *)

(** The loop on a newly built block, for any difficulty. *)
Lemma mine_at_fresh_block difficulty σ now i ℓ ph fuel b' :
  Block.mine_at difficulty fuel σ (Block.__init__ σ now i ℓ ph) = Some b' ->
  exists k,
    0 <= k <= Z.of_nat fuel /\
    b' = Block.rehash_at σ k (Block.mk i now ℓ ph 0 EmptyString) /\
    sealed_by difficulty σ b' k /\
    forall j, 0 <= j < k -> ~ sealed_by difficulty σ b' j.
Proof.
  rewrite init_is_rehash. intros H.
  apply mine_at_sound in H as (k & Hk & -> & Hs & Hmin).
  exists k. split; [lia |]. split; [reflexivity |].
  unfold sealed_by in *. split; [now rewrite rehash_rehash |].
  intros j Hj. rewrite rehash_rehash. now apply Hmin.
Qed.

Lemma mine_fresh_block σ now i ℓ ph fuel b' :
  Block.mine fuel σ (Block.__init__ σ now i ℓ ph) = Some b' ->
  startswith (repeat_char "0" Block.DIFFICULTY) (Block.hash b') = true /\
  Block._calculate_hash σ b' = Block.hash b' /\
  (Block.index b' = i /\ Block.timestamp b' = now /\
   Block.transactions b' = ℓ /\ Block.previous_hash b' = ph) /\
  0 <= Block.nonce b' /\
  sealed_by Block.DIFFICULTY σ b' (Block.nonce b') /\
  forall k, 0 <= k < Block.nonce b' -> ~ sealed_by Block.DIFFICULTY σ b' k.
Proof.
  intros H. apply mine_at_fresh_block in H as (k & Hk & -> & Hs & Hmin).
  split; [unfold sealed_by in Hs; now rewrite rehash_rehash in Hs |].
  split; [apply rehash_consistent |]. split; [repeat split |].
  rewrite rehash_nonce. split; [lia |]. split; [exact Hs | exact Hmin].
Qed.

(** If some nonce from 0 on meets the condition, [Block.mine] on a newly
    built block returns once it has fuel to reach it. *)
Lemma mine_fresh_block_returns σ now i ℓ ph k :
  0 <= k ->
  sealed_by Block.DIFFICULTY σ (Block.__init__ σ now i ℓ ph) k ->
  exists b', Block.mine (Z.to_nat k) σ (Block.__init__ σ now i ℓ ph) = Some b'.
Proof.
  intros Hk Hs. unfold Block.mine. rewrite init_is_rehash.
  apply (mine_at_complete _ σ (Z.to_nat k) 0 _ k); [lia |].
  unfold sealed_by in *. now rewrite init_is_rehash, rehash_rehash in Hs.
Qed.

(** C4: a block sealed by [Block.mine] (difficulty 2) has a hash that
    starts with two zeros and that is the hash of its stored fields; its
    other fields are those it was built with; and its nonce is the least
    non-negative integer that, put in its place and rehashed, gives a hash
    with that prefix. *)
Theorem mine_finds_least_nonce σ now i ℓ ph fuel b' :
  Block.mine fuel σ (Block.__init__ σ now i ℓ ph) = Some b' ->
  startswith (repeat_char "0" Block.DIFFICULTY) (Block.hash b') = true /\
  Block._calculate_hash σ b' = Block.hash b' /\
  (Block.index b' = i /\ Block.timestamp b' = now /\
   Block.transactions b' = ℓ /\ Block.previous_hash b' = ph) /\
  0 <= Block.nonce b' /\
  forall k, 0 <= k < Block.nonce b' ->
    startswith (repeat_char "0" Block.DIFFICULTY)
               (Block.hash (Block.rehash_at σ k b')) = false.
Proof.
  unfold Block.mine. intros H.
  apply mine_at_fresh_block in H as (n & Hn & -> & Hs & Hmin).
  unfold sealed_by in Hs. rewrite rehash_rehash in Hs.
  split; [exact Hs |]. split; [apply rehash_consistent |].
  split; [repeat split |]. rewrite rehash_nonce. split; [lia |].
  intros k Hk. apply not_true_is_false. exact (Hmin k Hk).
Qed.

Lemma mine_finds_least_nonce_witness :
  Block.mine 8 [[]]
    (Block.__init__ [[]] Demo.genesis_time 0 0%nat (repeat_char "0" 64))
  = Some Demo.genesis /\
  Block.nonce Demo.genesis = 3 /\
  forall k, 0 <= k < Block.nonce Demo.genesis ->
    startswith (repeat_char "0" Block.DIFFICULTY)
               (Block.hash (Block.rehash_at [[]] k Demo.genesis)) = false.
Proof.
  assert (H : Block.mine 8 [[]]
                (Block.__init__ [[]] Demo.genesis_time 0 0%nat
                   (repeat_char "0" 64)) = Some Demo.genesis)
    by (vm_compute; reflexivity).
  split; [exact H |]. split; [reflexivity |].
  exact (proj2 (proj2 (proj2 (proj2
           (mine_finds_least_nonce _ _ _ _ _ _ _ H))))).
Defined.



(* ===================================================================== *)
(** ** The object store *)
(* ===================================================================== *)

Lemma deref_alloc_new (σ : store) l : deref (σ ++ [l]) (length σ) = l.
Proof.
  unfold deref. rewrite lookup_app_r by lia.
  now rewrite Nat.sub_diag.
Qed.

Lemma deref_alloc_old (σ : store) l ℓ :
  (ℓ < length σ)%nat -> deref (σ ++ [l]) ℓ = deref σ ℓ.
Proof. intros H. unfold deref. now rewrite lookup_app_l. Qed.

Lemma sealed_by_alloc difficulty (σ : store) l b k :
  (Block.transactions b < length σ)%nat ->
  sealed_by difficulty (σ ++ [l]) b k <-> sealed_by difficulty σ b k.
Proof.
  intros H. unfold sealed_by, Block.rehash_at. cbn [Block.hash].
  unfold Block._calculate_hash, Block.block_string. cbn [Block.transactions].
  now rewrite deref_alloc_old.
Qed.

Lemma calculate_hash_alloc (σ : store) l b :
  (Block.transactions b < length σ)%nat ->
  Block._calculate_hash (σ ++ [l]) b = Block._calculate_hash σ b.
Proof.
  intros H. unfold Block._calculate_hash, Block.block_string.
  now rewrite deref_alloc_old.
Qed.

(* ===================================================================== *)
(** ** The ledger's operations *)
(* ===================================================================== *)

(** The two ways [create_drug_batch] ends. *)
Lemma create_drug_batch_cases ms now k dn mf q st bc :
  (str_returns q = true /\
   MedChainBlockchain.create_drug_batch ms now k dn mf q st bc
   = (Returned (tx_id (MedChainBlockchain._new_tx ms now "CREATE_BATCH"
                         (create_payload k dn mf q st))),
      MedChainBlockchain.mk
        (MedChainBlockchain.chain bc)
        (MedChainBlockchain.pending_transactions bc
           ++ [MedChainBlockchain._new_tx ms now "CREATE_BATCH"
                 (create_payload k dn mf q st)])
        (<[k := dict_set "timestamp" (Json.Str now) (create_payload k dn mf q st)]>
           (MedChainBlockchain.world_state bc)))) \/
  (str_returns q = false /\
   MedChainBlockchain.create_drug_batch ms now k dn mf q st bc
   = (Raised (ValueError int_max_str_digits_message), bc)).
Proof.
  unfold MedChainBlockchain.create_drug_batch.
  destruct (str_returns q); [left | right]; split; reflexivity.
Qed.

Section Ledger.
Import MedChainBlockchain.

(** What [_mine_pending] does with a pool that is not empty. *)
Lemma mine_pending_nonempty fuel now σ bc tip r w' :
  pending_transactions bc <> [] ->
  last (chain bc) = Some tip ->
  _mine_pending fuel now (σ, bc) = Some (r, w') ->
  let σ1 := σ ++ [pending_transactions bc] in
  exists b,
    Block.mine fuel σ1
      (Block.__init__ σ1 now (Z.of_nat (length (chain bc))) (length σ)
         (Block.hash tip)) = Some b /\
    r = Returned (Block.hash b) /\
    w' = (σ1, mk (chain bc ++ [b]) [] (world_state bc)).
Proof.
  intros Hne Htip. unfold _mine_pending, alloc.
  destruct (pending_transactions bc) as [|tx txs] eqn:Hp; [congruence |].
  rewrite Htip. cbv zeta.
  destruct (Block.mine _ _ _) as [b|] eqn:Hm; [| discriminate].
  intros [= <- <-]. exists b. auto.
Qed.

Lemma mine_pending_empty fuel now σ bc tip :
  pending_transactions bc = [] ->
  last (chain bc) = Some tip ->
  _mine_pending fuel now (σ, bc) = Some (Returned (Block.hash tip), (σ, bc)).
Proof. intros Hp Htip. unfold _mine_pending. now rewrite Hp, Htip. Qed.

Lemma init_spec fuel now σ w :
  __init__ fuel now σ = Some w ->
  exists g,
    Block.mine fuel (σ ++ [[]])
      (Block.__init__ (σ ++ [[]]) now 0 (length σ) (repeat_char "0" 64))
    = Some g /\
    w = (σ ++ [[]], mk [g] [] ∅).
Proof.
  unfold __init__, _create_genesis_block, alloc.
  destruct (Block.mine _ _ _) as [g|] eqn:Hm; [| discriminate].
  intros [= <-]. exists g. auto.
Qed.

Lemma ledger_inv_init fuel now σ w :
  __init__ fuel now σ = Some w -> ledger_inv w.
Proof.
  intros H. apply init_spec in H as (g & Hm & ->).
  apply mine_fresh_block in Hm as (_ & Hh & (Hi & _ & Hl & _) & Hn & Hs & Hmin).
  unfold ledger_inv; simpl. split; [discriminate |]. split.
  - intros [|i] b Hb; simpl in Hb; [| discriminate].
    injection Hb as <-. rewrite length_app. simpl. split; [exact Hi |].
    split; [exact Hh |]. split; [lia |]. split; [exact Hn |].
    split; [exact Hs | exact Hmin].
  - intros [|i] p b _ Hb; simpl in Hb; discriminate.
Qed.

Lemma ledger_inv_same_chain σ bc bc' :
  chain bc' = chain bc -> ledger_inv (σ, bc) -> ledger_inv (σ, bc').
Proof. unfold ledger_inv; simpl. now intros ->. Qed.

Lemma ledger_inv_mine fuel now w r w' :
  ledger_inv w -> mine fuel now w = Some (r, w') -> ledger_inv w'.
Proof.
  destruct w as [σ bc]. intros Hinv H. unfold mine in H.
  destruct (last (chain bc)) as [tip|] eqn:Htip.
  2:{ apply last_None in Htip. now destruct Hinv. }
  destruct (pending_transactions bc) as [|tx txs] eqn:Hp.
  { rewrite (mine_pending_empty _ _ _ _ _ Hp Htip) in H.
    now injection H as <- <-. }
  apply (mine_pending_nonempty _ _ _ _ tip) in H; [| congruence | exact Htip].
  cbv zeta in H. destruct H as (b & Hm & _ & ->). rewrite Hp in *.
  apply mine_fresh_block in Hm as (_ & Hh & (Hi & _ & Hl & Hprev) & Hn & Hs & Hmin).
  destruct Hinv as (Hne & Hblocks & Hlinks); simpl in *.
  unfold ledger_inv; simpl. split; [now destruct (chain bc) |].
  assert (Hold : forall (i : nat) b0, chain bc !! i = Some b0 ->
                   (chain bc ++ [b]) !! i = Some b0).
  { intros i b0 Hb0. rewrite lookup_app_l; [exact Hb0 |].
    now apply lookup_lt_Some in Hb0. }
  assert (Hnew : forall (i : nat) b0, (chain bc ++ [b]) !! i = Some b0 ->
                   chain bc !! i = Some b0 \/
                   (i = length (chain bc) /\ b0 = b)).
  { intros i b0 Hb0. apply lookup_app_Some in Hb0 as [Hb0 | [Hge Hb0]];
      [now left | right].
    destruct (i - length (chain bc))%nat as [|j] eqn:Hj; simpl in Hb0;
      [| discriminate].
    split; [lia | congruence]. }
  split.
  - intros i b0 Hb0. apply Hnew in Hb0 as [Hb0 | [-> ->]].
    + destruct (Hblocks i b0 Hb0) as (Hi0 & Hh0 & Hl0 & Hn0 & Hs0 & Hmin0).
      rewrite calculate_hash_alloc by exact Hl0. rewrite length_app. simpl.
      split; [exact Hi0 |]. split; [exact Hh0 |]. split; [lia |].
      split; [exact Hn0 |]. split; [now apply sealed_by_alloc |].
      intros k Hk Hsk. apply (Hmin0 k Hk). now apply sealed_by_alloc in Hsk.
    + rewrite length_app. simpl.
      split; [exact Hi |]. split; [exact Hh |]. split; [lia |].
      split; [exact Hn |]. split; [exact Hs | exact Hmin].
  - intros i p b0 Hp0 Hb0.
    apply Hnew in Hb0 as [Hb0 | [Hi' ->]].
    + apply Hnew in Hp0 as [Hp0 | [-> _]]; [now apply (Hlinks i) |].
      apply lookup_lt_Some in Hb0. lia.
    + apply Hnew in Hp0 as [Hp0 | [-> _]]; [| lia].
      rewrite last_lookup in Htip. rewrite <- Hi' in Htip. simpl in Htip.
      rewrite Hprev. congruence.
Qed.

(** Every state of a run satisfies the invariant. *)
Lemma reachable_inv w : reachable w -> ledger_inv w.
Proof.
  induction 1 as [fuel now σ w H | ? ? ? ? ? ? ? σ bc _ IH
                 | ? ? ? ? σ bc _ IH | fuel now w r w' _ IH H].
  - exact (ledger_inv_init _ _ _ _ H).
  - apply (ledger_inv_same_chain σ bc); [| exact IH].
    unfold create_drug_batch. now destruct (str_returns _).
  - apply (ledger_inv_same_chain σ bc); [| exact IH].
    unfold update_batch_status. now destruct (world_state bc !! _).
  - exact (ledger_inv_mine _ _ _ _ _ IH H).
Qed.
End Ledger.

(* ===================================================================== *)
(** ** Construction and sealing *)
(* ===================================================================== *)

(** C10: a constructor call that returns leaves a chain of exactly one
    block, with index 0, an empty transaction list, the previous hash of
    64 zeros, and a mined hash (two leading zeros, and the hash of the
    stored fields); the pending pool and the world state are empty.  The
    call returns whenever some nonce seals the genesis candidate. *)
Theorem genesis_after_construction now (σ : store) :
  (forall fuel w,
      MedChainBlockchain.__init__ fuel now σ = Some w ->
      exists g,
        MedChainBlockchain.chain (snd w) = [g] /\
        Block.index g = 0 /\
        deref (fst w) (Block.transactions g) = [] /\
        Block.previous_hash g = repeat_char "0" 64 /\
        startswith (repeat_char "0" Block.DIFFICULTY) (Block.hash g) = true /\
        Block._calculate_hash (fst w) g = Block.hash g /\
        MedChainBlockchain.pending_transactions (snd w) = [] /\
        MedChainBlockchain.world_state (snd w) = ∅) /\
  ((exists k, 0 <= k /\
      sealed_by Block.DIFFICULTY (σ ++ [[]])
        (Block.__init__ (σ ++ [[]]) now 0 (length σ) (repeat_char "0" 64)) k) ->
   exists fuel w, MedChainBlockchain.__init__ fuel now σ = Some w).
Proof.
  split.
  - intros fuel w H. apply init_spec in H as (g & Hm & ->).
    apply mine_fresh_block in Hm as (Hz & Hh & (Hi & _ & Hl & Hp) & _).
    exists g. simpl. rewrite Hl, deref_alloc_new. auto 10.
  - intros (k & Hk & Hs).
    destruct (mine_fresh_block_returns _ _ _ _ _ _ Hk Hs) as (g & Hg).
    exists (Z.to_nat k), (σ ++ [[]], MedChainBlockchain.mk [g] [] ∅).
    unfold MedChainBlockchain.__init__, MedChainBlockchain._create_genesis_block,
      alloc. now rewrite Hg.
Qed.

Lemma genesis_after_construction_witness :
  MedChainBlockchain.__init__ 8 Demo.genesis_time [] = Some Demo.w0 /\
  exists g,
    MedChainBlockchain.chain (snd Demo.w0) = [g] /\
    Block.index g = 0 /\
    deref (fst Demo.w0) (Block.transactions g) = [] /\
    Block.previous_hash g = repeat_char "0" 64 /\
    startswith (repeat_char "0" Block.DIFFICULTY) (Block.hash g) = true /\
    Block._calculate_hash (fst Demo.w0) g = Block.hash g /\
    MedChainBlockchain.pending_transactions (snd Demo.w0) = [] /\
    MedChainBlockchain.world_state (snd Demo.w0) = ∅.
Proof.
  assert (H : MedChainBlockchain.__init__ 8 Demo.genesis_time [] = Some Demo.w0)
    by (vm_compute; reflexivity).
  split; [exact H |].
  exact (proj1 (genesis_after_construction Demo.genesis_time []) 8%nat Demo.w0 H).
Defined.

(** C8: on a ledger with a pool that is not empty, a call of [mine] that
    returns has appended exactly one block: its index is the former length
    of the chain, its transactions are the former pool in submission
    order, its previous hash is the hash of the former tip, and it is
    sealed; the pool is empty afterwards, the world state is as before,
    and the value returned is the hash of the new block.  The call
    returns whenever some nonce seals the candidate block. *)
Theorem mine_appends_pending_block now (σ : store) bc tip :
  MedChainBlockchain.pending_transactions bc <> [] ->
  last (MedChainBlockchain.chain bc) = Some tip ->
  (forall fuel r w',
      MedChainBlockchain.mine fuel now (σ, bc) = Some (r, w') ->
      exists b,
        MedChainBlockchain.chain (snd w') = MedChainBlockchain.chain bc ++ [b] /\
        Block.index b = Z.of_nat (length (MedChainBlockchain.chain bc)) /\
        deref (fst w') (Block.transactions b) =
          MedChainBlockchain.pending_transactions bc /\
        Block.previous_hash b = Block.hash tip /\
        startswith (repeat_char "0" Block.DIFFICULTY) (Block.hash b) = true /\
        Block._calculate_hash (fst w') b = Block.hash b /\
        MedChainBlockchain.pending_transactions (snd w') = [] /\
        MedChainBlockchain.world_state (snd w') =
          MedChainBlockchain.world_state bc /\
        r = Returned (Block.hash b)) /\
  ((exists k, 0 <= k /\
      sealed_by Block.DIFFICULTY
        (σ ++ [MedChainBlockchain.pending_transactions bc])
        (Block.__init__ (σ ++ [MedChainBlockchain.pending_transactions bc]) now
           (Z.of_nat (length (MedChainBlockchain.chain bc))) (length σ)
           (Block.hash tip)) k) ->
   exists fuel r w', MedChainBlockchain.mine fuel now (σ, bc) = Some (r, w')).
Proof.
  intros Hne Htip. split.
  - intros fuel r w' H. unfold MedChainBlockchain.mine in H.
    apply (mine_pending_nonempty _ _ _ _ tip) in H; [| exact Hne | exact Htip].
    cbv zeta in H. destruct H as (b & Hm & -> & ->).
    apply mine_fresh_block in Hm as (Hz & Hh & (Hi & _ & Hl & Hp) & _).
    exists b. simpl. rewrite Hl, deref_alloc_new. auto 10.
  - intros (k & Hk & Hs).
    destruct (mine_fresh_block_returns _ _ _ _ _ _ Hk Hs) as (b & Hb).
    exists (Z.to_nat k). unfold MedChainBlockchain.mine,
      MedChainBlockchain._mine_pending, alloc.
    destruct (MedChainBlockchain.pending_transactions bc) as [|tx txs];
      [congruence |].
    rewrite Htip, Hb. eauto.
Qed.

Lemma mine_appends_pending_block_witness :
  MedChainBlockchain.mine 8 "2025-06-02T00:00:06+00:00" Demo.w1
    = Some (Returned (Block.hash Demo.block1), Demo.w2) /\
  exists b,
    MedChainBlockchain.chain (snd Demo.w2) = [Demo.genesis] ++ [b] /\
    Block.index b = 1 /\
    deref (fst Demo.w2) (Block.transactions b) = [Demo.tx1] /\
    Block.previous_hash b = Block.hash Demo.genesis /\
    startswith (repeat_char "0" Block.DIFFICULTY) (Block.hash b) = true /\
    Block._calculate_hash (fst Demo.w2) b = Block.hash b /\
    MedChainBlockchain.pending_transactions (snd Demo.w2) = [] /\
    MedChainBlockchain.world_state (snd Demo.w2) =
      MedChainBlockchain.world_state (snd Demo.w1) /\
    Returned (Block.hash Demo.block1) = Returned (Block.hash b).
Proof.
  assert (H : MedChainBlockchain.mine 8 "2025-06-02T00:00:06+00:00"
                (fst Demo.w1, snd Demo.w1)
              = Some (Returned (Block.hash Demo.block1), Demo.w2))
    by (vm_compute; reflexivity).
  split; [exact H |].
  assert (Hne : MedChainBlockchain.pending_transactions (snd Demo.w1) <> [])
    by (vm_compute; discriminate).
  assert (Htip : last (MedChainBlockchain.chain (snd Demo.w1)) = Some Demo.genesis)
    by reflexivity.
  exact (proj1 (mine_appends_pending_block "2025-06-02T00:00:06+00:00"
                  (fst Demo.w1) (snd Demo.w1) Demo.genesis Hne Htip)
               8%nat _ _ H).
Defined.

(** C9: on a ledger with an empty pool, [mine] returns the hash of the
    chain's tip and leaves the chain, the pool, the world state and the
    store as they are, whatever the fuel and the clock. *)
Theorem mine_on_empty_pool fuel now (σ : store) bc tip :
  MedChainBlockchain.pending_transactions bc = [] ->
  last (MedChainBlockchain.chain bc) = Some tip ->
  MedChainBlockchain.mine fuel now (σ, bc)
    = Some (Returned (Block.hash tip), (σ, bc)).
Proof. intros Hp Htip. now apply mine_pending_empty. Qed.

Lemma mine_on_empty_pool_witness :
  MedChainBlockchain.mine 0 "2025-06-04T00:00:00+00:00" Demo.w2
    = Some (Returned (Block.hash Demo.block1), Demo.w2).
Proof.
  exact (mine_on_empty_pool 0%nat "2025-06-04T00:00:00+00:00" (fst Demo.w2)
           (snd Demo.w2) Demo.block1 eq_refl eq_refl).
Defined.

(** C2: in every state of a run, each block of the chain stands at its
    own index and stores the hash of its fields as they are, and each
    block after the genesis names the hash of the block before it. *)
Theorem chain_integrity w :
  reachable w ->
  forall (i : nat) b,
    MedChainBlockchain.chain (snd w) !! i = Some b ->
    Block.index b = Z.of_nat i /\
    Block._calculate_hash (fst w) b = Block.hash b /\
    ((0 < i)%nat ->
     exists p, MedChainBlockchain.chain (snd w) !! (i - 1)%nat = Some p /\
               Block.previous_hash b = Block.hash p).
Proof.
  intros Hr i b Hb. apply reachable_inv in Hr as (_ & Hblocks & Hlinks).
  cbv zeta in *. destruct (Hblocks i b Hb) as (Hi & Hh & _ & _).
  split; [exact Hi |]. split; [exact Hh |].
  intros Hpos. destruct i as [|i]; [lia |].
  replace (S i - 1)%nat with i by lia.
  destruct (MedChainBlockchain.chain (snd w) !! i) as [p|] eqn:Hp.
  - exists p. split; [reflexivity |]. now apply (Hlinks i).
  - apply lookup_ge_None in Hp. apply lookup_lt_Some in Hb. lia.
Qed.

Lemma demo_reachable : reachable Demo.w2.
Proof.
  apply (reach_mine 8 "2025-06-02T00:00:06+00:00" Demo.w1
           (Returned (Block.hash Demo.block1))); [| vm_compute; reflexivity].
  apply (reach_create 1748772000123 "2025-06-01T10:00:00+00:00" "batch001"
           "Paracetamol" "Acme Pharma" 1000 "pending" (fst Demo.w0) (snd Demo.w0)).
  apply (reach_init 8 Demo.genesis_time [] Demo.w0). vm_compute; reflexivity.
Qed.

Lemma chain_integrity_witness :
  reachable Demo.w2 /\
  Block.index Demo.block1 = 1 /\
  Block._calculate_hash (fst Demo.w2) Demo.block1 = Block.hash Demo.block1 /\
  ((0 < 1)%nat ->
   exists p, MedChainBlockchain.chain (snd Demo.w2) !! (1 - 1)%nat = Some p /\
             Block.previous_hash Demo.block1 = Block.hash p).
Proof.
  split; [exact demo_reachable |].
  exact (chain_integrity Demo.w2 demo_reachable 1%nat Demo.block1 eq_refl).
Defined.

(* ===================================================================== *)
(** ** Submitting commands *)
(* ===================================================================== *)

Lemma dict_get_set k v d : dict_get k (dict_set k v d) = Some v.
Proof.
  induction d as [|[k' v'] d IH]; simpl.
  - now rewrite String.eqb_refl.
  - destruct (String.eqb k k') eqn:E; simpl; rewrite ?String.eqb_refl, ?E; auto.
Qed.

Lemma dict_get_set_other k k' v d :
  k <> k' -> dict_get k (dict_set k' v d) = dict_get k d.
Proof.
  intros Hne. apply String.eqb_neq in Hne as Hkk'.
  induction d as [|[k0 v0] d IH]; simpl.
  - now rewrite Hkk'.
  - destruct (String.eqb k' k0) eqn:E; simpl.
    + apply String.eqb_eq in E as <-. now rewrite Hkk'.
    + now rewrite IH.
Qed.

(** C1, as the code has it: [create_drug_batch] makes no check of the
    key.  Whether or not [batch_id] is in the world state: if the
    quantity is an integer that [json.dumps] writes, one below ten to
    the 4300 in absolute value, the call appends exactly one
    [CREATE_BATCH] transaction to the pending pool, puts the record (the
    payload and the transaction's timestamp) under [batch_id], replacing
    what was there, leaves the other keys and the chain alone, and
    returns the id of the new transaction; for any other quantity it
    raises the [ValueError] of the integer conversion and changes
    nothing.  It raises nothing else. *)
Theorem create_drug_batch_accepts_every_key
    ms now batch_id drug_name manufacturer quantity status bc :
  let r := MedChainBlockchain.create_drug_batch
             ms now batch_id drug_name manufacturer quantity status bc in
  (Z.abs quantity < 10 ^ 4300 ->
   exists tx,
     MedChainBlockchain.pending_transactions (snd r) =
       MedChainBlockchain.pending_transactions bc ++ [tx] /\
     type tx = "CREATE_BATCH"%string /\
     timestamp tx = now /\
     payload tx = [("batch_id", Json.Str batch_id);
                   ("drug_name", Json.Str drug_name);
                   ("manufacturer", Json.Str manufacturer);
                   ("quantity", Json.Int quantity);
                   ("status", Json.Str status)]%string /\
     fst r = Returned (tx_id tx) /\
     MedChainBlockchain.world_state (snd r) !! batch_id =
       Some (payload tx ++ [("timestamp"%string, Json.Str now)]) /\
     (forall k, k <> batch_id ->
        MedChainBlockchain.world_state (snd r) !! k =
        MedChainBlockchain.world_state bc !! k) /\
     MedChainBlockchain.chain (snd r) = MedChainBlockchain.chain bc) /\
  (10 ^ 4300 <= Z.abs quantity ->
   r = (Raised (ValueError int_max_str_digits_message), bc)).
Proof.
  cbv zeta. unfold MedChainBlockchain.create_drug_batch.
  pose proof (str_returns_iff quantity) as Hfit.
  destruct (str_returns quantity); split.
  - intros _. eexists.
    cbn [fst snd MedChainBlockchain.pending_transactions
         MedChainBlockchain.world_state MedChainBlockchain.chain].
    split; [reflexivity |]. split; [reflexivity |]. split; [reflexivity |].
    split; [reflexivity |]. split; [reflexivity |].
    split; [now rewrite lookup_insert_eq |].
    split; [| reflexivity].
    intros k Hk. now rewrite lookup_insert_ne.
  - intros Hbig. apply Z.le_ngt in Hbig. elim Hbig. now apply Hfit.
  - intros Hsmall. apply Hfit in Hsmall. discriminate.
  - reflexivity.
Qed.

(** Both ends of C1 on the demo ledger, where [batch001] is present: a
    second create for [batch001] with 5 units is accepted, one with ten
    to the 4300 units raises and leaves the ledger as it was. *)
Lemma create_drug_batch_accepts_every_key_witness :
  let bc := snd Demo.w2 in
  let r := MedChainBlockchain.create_drug_batch 1748944800789
             "2025-06-03T10:00:00+00:00" "batch001" "Aspirin" "Beta Pharma"
             5 "pending" bc in
  let r' := MedChainBlockchain.create_drug_batch 1748944800789
              "2025-06-03T10:00:00+00:00" "batch001" "Aspirin" "Beta Pharma"
              (10 ^ 4300) "pending" bc in
  (exists tx,
     MedChainBlockchain.pending_transactions (snd r) =
       MedChainBlockchain.pending_transactions bc ++ [tx] /\
     fst r = Returned (tx_id tx)) /\
  r' = (Raised (ValueError int_max_str_digits_message), bc).
Proof.
  cbv zeta.
  assert (Hsmall : Z.abs 5 < 10 ^ 4300) by (vm_compute; reflexivity).
  assert (Hbig : 10 ^ 4300 <= Z.abs (10 ^ 4300))
    by (rewrite Z.abs_eq; [apply Z.le_refl | now apply Z.pow_nonneg]).
  split.
  - destruct (proj1 (create_drug_batch_accepts_every_key
                       1748944800789 "2025-06-03T10:00:00+00:00" "batch001"
                       "Aspirin" "Beta Pharma" 5 "pending" (snd Demo.w2)) Hsmall)
      as (tx & Hp & _ & _ & _ & Hid & _).
    exists tx. split; [exact Hp | exact Hid].
  - exact (proj2 (create_drug_batch_accepts_every_key
                    1748944800789 "2025-06-03T10:00:00+00:00" "batch001"
                    "Aspirin" "Beta Pharma" (10 ^ 4300) "pending" (snd Demo.w2))
             Hbig).
Defined.

(** C1, as the specification states it, fails: with [batch001] already
    in the world state, a second [create_drug_batch] for [batch001]
    returns a transaction id, queues the transaction and replaces the
    record. *)
Lemma create_duplicate_key_counterexample :
  let bc := snd Demo.w2 in
  let r := MedChainBlockchain.create_drug_batch 1748944800789
             "2025-06-03T10:00:00+00:00" "batch001" "Aspirin" "Beta Pharma"
             5 "pending" bc in
  (exists record,
     MedChainBlockchain.world_state bc !! "batch001"%string = Some record /\
     dict_get "drug_name" record = Some (Json.Str "Paracetamol")) /\
  fst r = Returned "TX-1748944800789-dba7d500"%string /\
  length (MedChainBlockchain.pending_transactions (snd r)) =
    S (length (MedChainBlockchain.pending_transactions bc)) /\
  exists record',
    MedChainBlockchain.world_state (snd r) !! "batch001"%string = Some record' /\
    dict_get "drug_name" record' = Some (Json.Str "Aspirin").
Proof.
  cbv zeta. split; [eexists; split; vm_compute; reflexivity |].
  split; [vm_compute; reflexivity |]. split; [vm_compute; reflexivity |].
  eexists; split; vm_compute; reflexivity.
Qed.

Lemma length_md5_prefix msg :
  String.length (take_str 8 (Digest.md5_hexdigest msg)) = 8%nat.
Proof. apply length_take_str. rewrite length_md5_hexdigest. lia. Qed.

(** C7, as the code has it: the id of a transaction is a function of the
    millisecond reading of the clock and of the payload.  Two ids are
    equal exactly when the millisecond readings are equal and the MD5
    digests of the two payloads, serialised with sorted keys, agree on
    their first eight hexadecimal digits; ids made at different
    millisecond readings always differ. *)
Theorem tx_ids_equal_iff ms1 now1 ty1 p1 ms2 now2 ty2 p2 :
  tx_id (MedChainBlockchain._new_tx ms1 now1 ty1 p1) =
  tx_id (MedChainBlockchain._new_tx ms2 now2 ty2 p2)
  <->
  ms1 = ms2 /\
  take_str 8 (Digest.md5_hexdigest
                (encode (Json.dumps ", " ": " true (Json.Obj p1)))) =
  take_str 8 (Digest.md5_hexdigest
                (encode (Json.dumps ", " ": " true (Json.Obj p2)))).
Proof.
  unfold MedChainBlockchain._new_tx. cbn [tx_id].
  set (d1 := take_str 8 _). set (d2 := take_str 8 _).
  assert (L1 : String.length d1 = 8%nat) by apply length_md5_prefix.
  assert (L2 : String.length d2 = 8%nat) by apply length_md5_prefix.
  split.
  - intros H. apply (app_str_inj _ _ _ _ eq_refl) in H as [_ H].
    assert (Hlen : String.length (str_of_int ms1) =
                   String.length (str_of_int ms2)).
    { apply (f_equal String.length) in H.
      rewrite !length_app_str, L1, L2 in H. lia. }
    destruct (app_str_inj _ _ _ _ Hlen H) as [Hms Hd].
    split; [now apply str_of_int_inj |].
    now apply (app_str_inj _ _ _ _ eq_refl) in Hd.
  - intros [-> ->]. reflexivity.
Qed.

(** C7, as the specification states it, fails: two updates of the same
    batch to the same status, submitted within one millisecond, are both
    queued, and the two queued transactions carry the same id. *)
Lemma tx_id_collision_counterexample :
  exists id t1 t2,
    fst Demo.updated = Returned id /\
    fst Demo.updated_again = Returned id /\
    MedChainBlockchain.pending_transactions (snd Demo.updated_again) = [t1; t2] /\
    tx_id t1 = id /\ tx_id t2 = id.
Proof.
  eexists _, _, _. repeat split; vm_compute; reflexivity.
Qed.

(* ===================================================================== *)
(** ** The views *)
(* ===================================================================== *)

(** C6, as the code has it: the view has one summary per block, in chain
    order, and a summary carries five entries, [index], [timestamp],
    [hash], [previous_hash] and [transactions], with the values of the
    block; it has no [nonce] entry. *)
Theorem blockchain_view_carries_five_fields bc (i : nat) b :
  MedChainBlockchain.chain bc !! i = Some b ->
  exists s,
    MedChainBlockchain.blockchain_view bc !! i = Some s /\
    summary_get "index" s = Some (Block.FInt (Block.index b)) /\
    summary_get "timestamp" s = Some (Block.FStr (Block.timestamp b)) /\
    summary_get "hash" s = Some (Block.FStr (Block.hash b)) /\
    summary_get "previous_hash" s = Some (Block.FStr (Block.previous_hash b)) /\
    summary_get "transactions" s = Some (Block.FList (Block.transactions b)) /\
    summary_get "nonce" s = None /\
    map fst s = ["index"; "timestamp"; "hash"; "previous_hash";
                 "transactions"]%string.
Proof.
  intros Hb. exists (Block.summary b).
  unfold MedChainBlockchain.blockchain_view.
  rewrite list_lookup_fmap, Hb. repeat split.
Qed.

Lemma blockchain_view_carries_five_fields_witness :
  MedChainBlockchain.chain (snd Demo.w2) !! 1%nat = Some Demo.block1 /\
  exists s,
    MedChainBlockchain.blockchain_view (snd Demo.w2) !! 1%nat = Some s /\
    summary_get "index" s = Some (Block.FInt 1) /\
    summary_get "timestamp" s = Some (Block.FStr "2025-06-02T00:00:06+00:00") /\
    summary_get "hash" s = Some (Block.FStr (Block.hash Demo.block1)) /\
    summary_get "previous_hash" s = Some (Block.FStr (Block.hash Demo.genesis)) /\
    summary_get "transactions" s = Some (Block.FList 1%nat) /\
    summary_get "nonce" s = None /\
    map fst s = ["index"; "timestamp"; "hash"; "previous_hash";
                 "transactions"]%string.
Proof.
  split; [reflexivity |].
  exact (blockchain_view_carries_five_fields (snd Demo.w2) 1%nat Demo.block1
           eq_refl).
Defined.

(** C6, as the specification states it, fails: the summary of the genesis
    block of a newly constructed ledger has no [nonce] entry, although
    the block has a nonce. *)
Lemma blockchain_view_nonce_counterexample :
  exists s,
    MedChainBlockchain.blockchain_view (snd Demo.w0) !! 0%nat = Some s /\
    summary_get "nonce" s = None /\
    Block.nonce Demo.genesis = 3.
Proof. eexists. repeat split. Qed.

(** What [Block.summary] hands out under [transactions] is the block's
    own list object: an append through it is an append to the block. *)
Lemma summary_hands_out_the_list (σ : store) b tx :
  (Block.transactions b < length σ)%nat ->
  summary_get "transactions" (Block.summary b) =
    Some (Block.FList (Block.transactions b)) /\
  deref (list_append (Block.transactions b) tx σ) (Block.transactions b) =
    deref σ (Block.transactions b) ++ [tx].
Proof.
  intros Hl. split; [reflexivity |].
  unfold deref, list_append.
  destruct (lookup_lt_is_Some_2 σ _ Hl) as [l Hlk].
  rewrite list_lookup_alter, Hlk. case_decide; [reflexivity | congruence].
Qed.

(** C5 fails on the code: a caller who appends to the list found under
    [transactions] in a summary of [blockchain_view] changes the block
    itself.  On the demo ledger, after one such append to the summary of
    block 1, the block holds the caller's transaction, the next view
    reads differently from the first, and the stored hash of block 1,
    which was the hash of its fields, no longer is. *)
Theorem blockchain_view_shares_transaction_lists :
  let σ := fst Demo.w2 in
  let bc := snd Demo.w2 in
  let view := MedChainBlockchain.blockchain_view bc in
  exists s ℓ,
    view !! 1%nat = Some s /\
    summary_get "transactions" s = Some (Block.FList ℓ) /\
    let σ' := list_append ℓ Demo.forged σ in
    deref σ (Block.transactions Demo.block1) = [Demo.tx1] /\
    deref σ' (Block.transactions Demo.block1) = [Demo.tx1; Demo.forged] /\
    read_view σ' (MedChainBlockchain.blockchain_view bc) <> read_view σ view /\
    Block._calculate_hash σ Demo.block1 = Block.hash Demo.block1 /\
    Block._calculate_hash σ' Demo.block1 <> Block.hash Demo.block1.
Proof.
  cbv zeta. eexists _, _.
  split; [reflexivity |]. split; [reflexivity |].
  split; [reflexivity |]. split; [reflexivity |].
  split; [intros H; vm_compute in H; discriminate H |].
  split; [vm_compute; reflexivity |].
  intros H; vm_compute in H; discriminate H.
Qed.

(* ===================================================================== *)
(** ** Further properties of runs *)
(* ===================================================================== *)

(** X1: every block of the chain of a run is sealed: its hash starts with two
    zeros, and no smaller non-negative nonce, put in its place and
    rehashed, gives a hash with that prefix. *)
Theorem chain_blocks_are_sealed w :
  reachable w ->
  forall (i : nat) b,
    MedChainBlockchain.chain (snd w) !! i = Some b ->
    startswith (repeat_char "0" Block.DIFFICULTY) (Block.hash b) = true /\
    0 <= Block.nonce b /\
    forall k, 0 <= k < Block.nonce b ->
      startswith (repeat_char "0" Block.DIFFICULTY)
                 (Block.hash (Block.rehash_at (fst w) k b)) = false.
Proof.
  intros Hr i b Hb. apply reachable_inv in Hr as (_ & Hblocks & _).
  cbv zeta in Hblocks.
  destruct (Hblocks i b Hb) as (_ & Hh & _ & Hn & Hs & Hmin).
  split.
  - unfold sealed_by, Block.rehash_at in Hs. cbn [Block.hash] in Hs.
    rewrite <- Hh. destruct b; exact Hs.
  - split; [exact Hn |]. intros k Hk. apply not_true_is_false.
    exact (Hmin k Hk).
Qed.

Lemma chain_blocks_are_sealed_witness :
  reachable Demo.w2 /\
  startswith (repeat_char "0" Block.DIFFICULTY) (Block.hash Demo.block1) = true /\
  0 <= Block.nonce Demo.block1 /\
  forall k, 0 <= k < 4 ->
    startswith (repeat_char "0" Block.DIFFICULTY)
               (Block.hash (Block.rehash_at (fst Demo.w2) k Demo.block1)) = false.
Proof.
  split; [exact demo_reachable |].
  exact (chain_blocks_are_sealed Demo.w2 demo_reachable 1%nat Demo.block1 eq_refl).
Defined.

(** X2: [update_batch_status] on a key that is not in the world state raises
    [ValueError] and changes nothing; on a key that is there it appends
    one [UPDATE_STATUS] transaction to the pending pool, sets [status]
    and [timestamp] in the record of the key, leaves its other fields,
    the other keys and the chain alone, and returns the id of the new
    transaction. *)
Theorem update_batch_status_checks_key ms now batch_id status bc :
  let r := MedChainBlockchain.update_batch_status ms now batch_id status bc in
  (MedChainBlockchain.world_state bc !! batch_id = None ->
   r = (Raised (ValueError ("Batch " +:+ batch_id +:+
                            " does not exist in world state")), bc)) /\
  (forall record,
     MedChainBlockchain.world_state bc !! batch_id = Some record ->
     exists tx record',
       fst r = Returned (tx_id tx) /\
       MedChainBlockchain.pending_transactions (snd r) =
         MedChainBlockchain.pending_transactions bc ++ [tx] /\
       type tx = "UPDATE_STATUS"%string /\
       payload tx = [("batch_id", Json.Str batch_id);
                     ("status", Json.Str status)]%string /\
       MedChainBlockchain.world_state (snd r) !! batch_id = Some record' /\
       dict_get "status" record' = Some (Json.Str status) /\
       dict_get "timestamp" record' = Some (Json.Str now) /\
       (forall key, key <> "status"%string -> key <> "timestamp"%string ->
          dict_get key record' = dict_get key record) /\
       (forall k, k <> batch_id ->
          MedChainBlockchain.world_state (snd r) !! k =
          MedChainBlockchain.world_state bc !! k) /\
       MedChainBlockchain.chain (snd r) = MedChainBlockchain.chain bc).
Proof.
  cbv zeta. unfold MedChainBlockchain.update_batch_status. split.
  - now intros ->.
  - intros record ->. eexists _, _.
    cbn [fst snd MedChainBlockchain.pending_transactions
         MedChainBlockchain.world_state MedChainBlockchain.chain].
    split; [reflexivity |]. split; [reflexivity |]. split; [reflexivity |].
    split; [reflexivity |]. split; [now rewrite lookup_insert_eq |].
    split.
    { rewrite dict_get_set_other by discriminate. apply dict_get_set. }
    split; [apply dict_get_set |].
    split.
    { intros key Hs Ht. now rewrite !dict_get_set_other by congruence. }
    split; [| reflexivity].
    intros k Hk. now rewrite lookup_insert_ne.
Qed.

Lemma accepted_after_mine fuel now w r w' :
  ledger_inv w ->
  MedChainBlockchain.mine fuel now w = Some (r, w') ->
  accepted w' = accepted w /\
  MedChainBlockchain.world_state (snd w') = MedChainBlockchain.world_state (snd w).
Proof.
  destruct w as [σ bc]. intros (Hne & Hblocks & _) H. cbv zeta in *.
  simpl in Hne, Hblocks. unfold MedChainBlockchain.mine in H.
  destruct (last (MedChainBlockchain.chain bc)) as [tip|] eqn:Htip.
  2:{ apply last_None in Htip. contradiction. }
  destruct (MedChainBlockchain.pending_transactions bc) as [|tx txs] eqn:Hp.
  { rewrite (mine_pending_empty _ _ _ _ _ Hp Htip) in H.
    now injection H as <- <-. }
  apply (mine_pending_nonempty _ _ _ _ tip) in H; [| congruence | exact Htip].
  cbv zeta in H. destruct H as (b & Hm & _ & ->).
  apply mine_fresh_block in Hm as (_ & _ & (_ & _ & Hl & _) & _).
  split; [| reflexivity].
  unfold accepted. simpl. rewrite map_app, concat_app. simpl.
  rewrite Hl, deref_alloc_new, !app_nil_r, Hp. f_equal.
  f_equal. apply map_ext_in. intros b0 Hb0.
  apply list_elem_of_In, list_elem_of_lookup in Hb0 as [i Hi].
  apply deref_alloc_old. now destruct (Hblocks i b0 Hi) as (_ & _ & Hl0 & _).
Qed.

(** X3: in every state of a run, a key is in the world state exactly when a
    [CREATE_BATCH] transaction for that key has been accepted. *)
Theorem world_state_keys_are_created w :
  reachable w ->
  forall k,
    is_Some (MedChainBlockchain.world_state (snd w) !! k) <->
    exists tx, In tx (accepted w) /\ creates k tx.
Proof.
  induction 1 as [fuel now σ w H | ms now0 k0 dn mf q st σ bc Hr IH
                 | ms now0 k0 st σ bc Hr IH | fuel now w r w' Hr IH H];
    intros k.
  - apply init_spec in H as (g & Hm & ->).
    apply mine_fresh_block in Hm as (_ & _ & (_ & _ & Hl & _) & _).
    unfold accepted. simpl. rewrite Hl, deref_alloc_new. simpl.
    rewrite lookup_empty. split; [intros [? [=]] | intros (tx & [] & _)].
  - destruct (create_drug_batch_cases ms now0 k0 dn mf q st bc)
      as [[_ Hcr] | [_ Hcr]]; rewrite Hcr; clear Hcr; [| exact (IH k)].
    unfold create_payload. unfold accepted in *. simpl in *.
    setoid_rewrite in_app_iff. setoid_rewrite in_app_iff in IH.
    setoid_rewrite in_app_iff.
    destruct (decide (k = k0)) as [-> | Hne].
    + rewrite lookup_insert_eq. split; [intros _ | eauto].
      eexists. split; [right; right; left; reflexivity |]. split; reflexivity.
    + rewrite lookup_insert_ne by congruence. rewrite IH. split.
      * intros (tx & Hin & Hc). exists tx. split; [tauto | exact Hc].
      * intros (tx & [Hin | [Hin | [<- | []]]] & Hc); [eauto | eauto |].
        destruct Hc as [_ Hc]. simpl in Hc. congruence.
  - unfold MedChainBlockchain.update_batch_status.
    destruct (MedChainBlockchain.world_state bc !! k0) as [record|] eqn:Hk0;
      [| exact (IH k)].
    unfold accepted in *. simpl in *.
    setoid_rewrite in_app_iff. setoid_rewrite in_app_iff in IH.
    setoid_rewrite in_app_iff.
    assert (Hsame : is_Some (<[k0:=dict_set "timestamp" (Json.Str now0)
                                  (dict_set "status" (Json.Str st) record)]>
                               (MedChainBlockchain.world_state bc) !! k) <->
                    is_Some (MedChainBlockchain.world_state bc !! k)).
    { destruct (decide (k = k0)) as [-> | Hne].
      - rewrite lookup_insert_eq, Hk0. split; eauto.
      - now rewrite lookup_insert_ne by congruence. }
    rewrite Hsame, IH. split.
    + intros (tx & Hin & Hc). exists tx. split; [tauto | exact Hc].
    + intros (tx & [Hin | [Hin | [<- | []]]] & Hc); [eauto | eauto |].
      destruct Hc as [Hc _]. simpl in Hc. discriminate.
  - apply reachable_inv in Hr.
    destruct (accepted_after_mine _ _ _ _ _ Hr H) as [-> ->]. apply IH.
Qed.

Lemma world_state_keys_are_created_witness :
  reachable Demo.w2 /\
  (is_Some (MedChainBlockchain.world_state (snd Demo.w2) !! "batch001"%string) <->
   exists tx, In tx (accepted Demo.w2) /\ creates "batch001" tx).
Proof.
  split; [exact demo_reachable |].
  exact (world_state_keys_are_created Demo.w2 demo_reachable "batch001"%string).
Defined.

(* ===================================================================== *)
(** ** Sequences of calls *)
(* ===================================================================== *)

Lemma exec_reachable c w r w' :
  reachable w -> exec c w = Some (r, w') -> reachable w'.
Proof.
  destruct w as [σ bc]. intros Hr H. destruct c; cbn [exec fst snd] in H.
  - injection H as _ <-. now apply reach_create.
  - injection H as _ <-. now apply reach_update.
  - exact (reach_mine _ _ _ _ _ Hr H).
Qed.

Lemma run_reachable cs : forall w rs w',
  reachable w -> run cs w = Some (rs, w') -> reachable w'.
Proof.
  induction cs as [|c cs IH]; intros w rs w' Hr H; simpl in H.
  - now injection H as _ <-.
  - destruct (exec c w) as [[r w1]|] eqn:Hc; [| discriminate].
    destruct (run cs w1) as [[rs' w2]|] eqn:Hrun; [| discriminate].
    injection H as _ <-. eapply IH; [| exact Hrun].
    exact (exec_reachable _ _ _ _ Hr Hc).
Qed.

(** What one call does to the store, the chain and the log. *)
Lemma exec_extends c w r w' :
  ledger_inv w -> exec c w = Some (r, w') ->
  (exists blocks, MedChainBlockchain.chain (snd w') =
                  MedChainBlockchain.chain (snd w) ++ blocks) /\
  (exists lists, fst w' = fst w ++ lists) /\
  (exists txs, accepted w' = accepted w ++ txs /\ (length txs <= 1)%nat).
Proof.
  destruct w as [σ bc]. intros Hinv H. destruct c; cbn [exec fst snd] in H.
  - injection H as _ <-. unfold MedChainBlockchain.create_drug_batch.
    destruct (str_returns quantity); simpl.
    + split; [exists []; now rewrite app_nil_r |].
      split; [exists []; now rewrite app_nil_r |].
      eexists [_]. unfold accepted. simpl. rewrite app_assoc.
      split; [reflexivity | lia].
    + split; [exists []; now rewrite app_nil_r |].
      split; [exists []; now rewrite app_nil_r |].
      exists []. rewrite app_nil_r. split; [reflexivity | simpl; lia].
  - injection H as _ <-. unfold MedChainBlockchain.update_batch_status.
    destruct (MedChainBlockchain.world_state bc !! batch_id); simpl.
    + split; [exists []; now rewrite app_nil_r |].
      split; [exists []; now rewrite app_nil_r |].
      eexists [_]. unfold accepted. simpl. rewrite app_assoc.
      split; [reflexivity | lia].
    + split; [exists []; now rewrite app_nil_r |].
      split; [exists []; now rewrite app_nil_r |].
      exists []. rewrite app_nil_r. split; [reflexivity | simpl; lia].
  - destruct (accepted_after_mine _ _ _ _ _ Hinv H) as [Hacc _].
    split; [| split].
    + destruct Hinv as (Hne & _). simpl in Hne.
      unfold MedChainBlockchain.mine in H.
      destruct (last (MedChainBlockchain.chain bc)) as [tip|] eqn:Htip.
      2:{ apply last_None in Htip. contradiction. }
      destruct (MedChainBlockchain.pending_transactions bc) as [|tx txs] eqn:Hp.
      { rewrite (mine_pending_empty _ _ _ _ _ Hp Htip) in H.
        injection H as _ <-. exists []. now rewrite app_nil_r. }
      apply (mine_pending_nonempty _ _ _ _ tip) in H;
        [| congruence | exact Htip].
      cbv zeta in H. destruct H as (b & _ & _ & ->). now exists [b].
    + destruct Hinv as (Hne & _). simpl in Hne.
      unfold MedChainBlockchain.mine in H.
      destruct (last (MedChainBlockchain.chain bc)) as [tip|] eqn:Htip.
      2:{ apply last_None in Htip. contradiction. }
      destruct (MedChainBlockchain.pending_transactions bc) as [|tx txs] eqn:Hp.
      { rewrite (mine_pending_empty _ _ _ _ _ Hp Htip) in H.
        injection H as _ <-. exists []. now rewrite app_nil_r. }
      apply (mine_pending_nonempty _ _ _ _ tip) in H;
        [| congruence | exact Htip].
      cbv zeta in H. destruct H as (b & _ & _ & ->). simpl. now eexists [_].
    + exists []. rewrite app_nil_r. split; [exact Hacc | simpl; lia].
Qed.

(** X4: history is append-only.  Whatever calls follow a state of a run,
    the chain afterwards is the chain before with blocks added at the
    end, every block that was there holds the same transactions as
    before, and the log afterwards is the log before with at most one
    transaction added per call. *)
Theorem history_is_append_only cs w rs w' :
  reachable w ->
  run cs w = Some (rs, w') ->
  (exists blocks, MedChainBlockchain.chain (snd w') =
                  MedChainBlockchain.chain (snd w) ++ blocks) /\
  (forall (i : nat) b,
     MedChainBlockchain.chain (snd w) !! i = Some b ->
     MedChainBlockchain.chain (snd w') !! i = Some b /\
     deref (fst w') (Block.transactions b) = deref (fst w) (Block.transactions b)) /\
  (exists txs, accepted w' = accepted w ++ txs /\
               (length txs <= length cs)%nat).
Proof.
  revert w rs w'. induction cs as [|c cs IH]; intros w rs w' Hr H; simpl in H.
  - injection H as _ <-.
    split; [exists []; now rewrite app_nil_r |].
    split; [auto |]. exists []. rewrite app_nil_r. split; [reflexivity | simpl; lia].
  - destruct (exec c w) as [[r w1]|] eqn:Hc; [| discriminate].
    destruct (run cs w1) as [[rs' w2]|] eqn:Hrun; [| discriminate].
    injection H as _ <-.
    pose proof (reachable_inv _ Hr) as Hinv.
    destruct (exec_extends _ _ _ _ Hinv Hc)
      as ((bs1 & Hb1) & (ls1 & Hl1) & (t1 & Ht1 & Hn1)).
    pose proof (exec_reachable _ _ _ _ Hr Hc) as Hr1.
    destruct (IH _ _ _ Hr1 Hrun) as ((bs2 & Hb2) & Hold & (t2 & Ht2 & Hn2)).
    split; [exists (bs1 ++ bs2); now rewrite Hb2, Hb1, app_assoc |].
    split.
    + intros i b Hb.
      assert (Hb' : MedChainBlockchain.chain (snd w1) !! i = Some b).
      { rewrite Hb1. rewrite lookup_app_l; [exact Hb |].
        now apply lookup_lt_Some in Hb. }
      destruct (Hold i b Hb') as [Hi Hd]. split; [exact Hi |].
      rewrite Hd, Hl1. unfold deref. rewrite lookup_app_l; [reflexivity |].
      destruct Hinv as (_ & Hblocks & _). cbv zeta in Hblocks.
      now destruct (Hblocks i b Hb) as (_ & _ & Hlt & _).
    + exists (t1 ++ t2). rewrite Ht2, Ht1, app_assoc.
      split; [reflexivity |]. rewrite length_app. simpl. lia.
Qed.

Lemma history_is_append_only_witness :
  reachable Demo.w0 /\
  run [CallCreate 1748772000123 "2025-06-01T10:00:00+00:00" "batch001"
         "Paracetamol" "Acme Pharma" 1000 "pending";
       CallMine 8 "2025-06-02T00:00:06+00:00"] Demo.w0
  = Some ([Returned "TX-1748772000123-5888e43c"%string;
           Returned (Block.hash Demo.block1)], Demo.w2) /\
  (exists blocks, MedChainBlockchain.chain (snd Demo.w2) =
                  MedChainBlockchain.chain (snd Demo.w0) ++ blocks) /\
  (forall (i : nat) b,
     MedChainBlockchain.chain (snd Demo.w0) !! i = Some b ->
     MedChainBlockchain.chain (snd Demo.w2) !! i = Some b /\
     deref (fst Demo.w2) (Block.transactions b) =
     deref (fst Demo.w0) (Block.transactions b)) /\
  (exists txs, accepted Demo.w2 = accepted Demo.w0 ++ txs /\
               (length txs <= 2)%nat).
Proof.
  assert (Hr : reachable Demo.w0).
  { apply (reach_init 8 Demo.genesis_time [] Demo.w0). vm_compute; reflexivity. }
  assert (Hrun : run [CallCreate 1748772000123 "2025-06-01T10:00:00+00:00"
                        "batch001" "Paracetamol" "Acme Pharma" 1000 "pending";
                      CallMine 8 "2025-06-02T00:00:06+00:00"] Demo.w0
                 = Some ([Returned "TX-1748772000123-5888e43c"%string;
                          Returned (Block.hash Demo.block1)], Demo.w2))
    by (vm_compute; reflexivity).
  split; [exact Hr |]. split; [exact Hrun |].
  exact (history_is_append_only _ _ _ _ Hr Hrun).
Defined.

Lemma replay_snoc log tx : replay (log ++ [tx]) = apply_tx (replay log) tx.
Proof. unfold replay. now rewrite fold_left_app. Qed.

(** X5: the world state is what the log says.  In every state of a run,
    replaying the accepted transactions, in order, from the empty world
    state gives exactly the ledger's world state. *)
Theorem world_state_is_replay_of_log w :
  reachable w ->
  MedChainBlockchain.world_state (snd w) = replay (accepted w).
Proof.
  induction 1 as [fuel now σ w H | ms now0 k0 dn mf q st σ bc Hr IH
                 | ms now0 k0 st σ bc Hr IH | fuel now w r w' Hr IH H].
  - apply init_spec in H as (g & Hm & ->).
    apply mine_fresh_block in Hm as (_ & _ & (_ & _ & Hl & _) & _).
    unfold accepted. simpl. rewrite Hl, deref_alloc_new. reflexivity.
  - destruct (create_drug_batch_cases ms now0 k0 dn mf q st bc)
      as [[Hfit Hcr] | [Hfit Hcr]]; rewrite Hcr; clear Hcr; [| exact IH].
    unfold create_payload.
    unfold accepted in *. simpl in *. rewrite app_assoc, replay_snoc, <- IH.
    reflexivity.
  - unfold MedChainBlockchain.update_batch_status.
    destruct (MedChainBlockchain.world_state bc !! k0) as [record|] eqn:Hk0;
      [| exact IH].
    unfold accepted in *. simpl in *. rewrite app_assoc, replay_snoc, <- IH.
    unfold apply_tx. simpl. now rewrite Hk0.
  - apply reachable_inv in Hr.
    destruct (accepted_after_mine _ _ _ _ _ Hr H) as [-> ->]. exact IH.
Qed.

Lemma world_state_is_replay_of_log_witness :
  reachable Demo.w2 /\
  MedChainBlockchain.world_state (snd Demo.w2) = replay [Demo.tx1].
Proof.
  split; [exact demo_reachable |].
  exact (world_state_is_replay_of_log Demo.w2 demo_reachable).
Defined.

(** X6: only the genesis block is empty.  In every state of a run the
    block at index 0 holds no transaction and every later block holds at
    least one. *)
Theorem only_genesis_is_empty w :
  reachable w ->
  forall (i : nat) b,
    MedChainBlockchain.chain (snd w) !! i = Some b ->
    (deref (fst w) (Block.transactions b) = [] <-> i = 0%nat).
Proof.
  induction 1 as [fuel now σ w H | ms now0 k0 dn mf q st σ bc Hr IH
                 | ms now0 k0 st σ bc Hr IH | fuel now w r w' Hr IH H].
  - apply init_spec in H as (g & Hm & ->).
    apply mine_fresh_block in Hm as (_ & _ & (_ & _ & Hl & _) & _).
    intros [|i] b Hb; simpl in Hb; [| discriminate]. injection Hb as <-.
    simpl. now rewrite Hl, deref_alloc_new.
  - destruct (create_drug_batch_cases ms now0 k0 dn mf q st bc)
      as [[Hfit Hcr] | [Hfit Hcr]]; rewrite Hcr; exact IH.
  - unfold MedChainBlockchain.update_batch_status.
    now destruct (MedChainBlockchain.world_state bc !! k0).
  - pose proof (reachable_inv _ Hr) as (Hne & Hblocks & _). cbv zeta in *.
    destruct w as [σ bc]. simpl in Hne, Hblocks, IH.
    unfold MedChainBlockchain.mine in H.
    destruct (last (MedChainBlockchain.chain bc)) as [tip|] eqn:Htip.
    2:{ apply last_None in Htip. contradiction. }
    destruct (MedChainBlockchain.pending_transactions bc) as [|tx txs] eqn:Hp.
    { rewrite (mine_pending_empty _ _ _ _ _ Hp Htip) in H.
      injection H as _ <-. exact IH. }
    apply (mine_pending_nonempty _ _ _ _ tip) in H; [| congruence | exact Htip].
    cbv zeta in H. destruct H as (b & Hm & _ & ->). simpl.
    apply mine_fresh_block in Hm as (_ & _ & (_ & _ & Hl & _) & _).
    intros i b0 Hb0. apply lookup_app_Some in Hb0 as [Hb0 | [Hge Hb0]].
    + destruct (Hblocks i b0 Hb0) as (_ & _ & Hlt & _).
      rewrite deref_alloc_old by exact Hlt. now apply IH.
    + destruct (i - length (MedChainBlockchain.chain bc))%nat as [|j] eqn:Hj;
        simpl in Hb0; [| discriminate].
      injection Hb0 as <-. rewrite Hl, deref_alloc_new, Hp.
      split; [discriminate |]. intros ->.
      destruct (MedChainBlockchain.chain bc); [contradiction | simpl in Hge; lia].
Qed.

Lemma only_genesis_is_empty_witness :
  reachable Demo.w2 /\
  (deref (fst Demo.w2) (Block.transactions Demo.block1) = [] <-> 1%nat = 0%nat) /\
  (deref (fst Demo.w2) (Block.transactions Demo.genesis) = [] <-> 0%nat = 0%nat).
Proof.
  split; [exact demo_reachable |]. split.
  - exact (only_genesis_is_empty Demo.w2 demo_reachable 1%nat Demo.block1 eq_refl).
  - exact (only_genesis_is_empty Demo.w2 demo_reachable 0%nat Demo.genesis eq_refl).
Defined.

(** X7: sealing twice is sealing once.  On a ledger with a chain, a call
    of [mine] that returns is followed by a second call that returns the
    same hash and changes nothing, whatever the clock and however little
    fuel the second call has. *)
Theorem mine_twice_is_mine_once fuel now w r w' fuel' now' :
  MedChainBlockchain.chain (snd w) <> [] ->
  MedChainBlockchain.mine fuel now w = Some (r, w') ->
  MedChainBlockchain.mine fuel' now' w' = Some (r, w').
Proof.
  destruct w as [σ bc]. intros Hne H. simpl in Hne.
  unfold MedChainBlockchain.mine in *.
  destruct (last (MedChainBlockchain.chain bc)) as [tip|] eqn:Htip.
  2:{ apply last_None in Htip. contradiction. }
  destruct (MedChainBlockchain.pending_transactions bc) as [|tx txs] eqn:Hp.
  - rewrite (mine_pending_empty _ _ _ _ _ Hp Htip) in H.
    injection H as <- <-. now apply mine_pending_empty.
  - apply (mine_pending_nonempty _ _ _ _ tip) in H; [| congruence | exact Htip].
    cbv zeta in H. destruct H as (b & _ & -> & ->).
    apply mine_pending_empty; [reflexivity |]. simpl. apply last_snoc.
Qed.

Lemma mine_twice_is_mine_once_witness :
  MedChainBlockchain.mine 8 "2025-06-02T00:00:06+00:00" Demo.w1
    = Some (Returned (Block.hash Demo.block1), Demo.w2) /\
  MedChainBlockchain.mine 0 "2025-06-05T00:00:00+00:00" Demo.w2
    = Some (Returned (Block.hash Demo.block1), Demo.w2).
Proof.
  assert (H : MedChainBlockchain.mine 8 "2025-06-02T00:00:06+00:00" Demo.w1
              = Some (Returned (Block.hash Demo.block1), Demo.w2))
    by (vm_compute; reflexivity).
  split; [exact H |].
  refine (mine_twice_is_mine_once 8 "2025-06-02T00:00:06+00:00" Demo.w1 _ _
            0 "2025-06-05T00:00:00+00:00" _ H).
  vm_compute; discriminate.
Defined.

Lemma snoc_eq_middle {A} (l before after : list A) x y :
  l ++ [x] = before ++ y :: after ->
  (before = l /\ y = x /\ after = []) \/
  (exists after', after = after' ++ [x] /\ l = before ++ y :: after').
Proof.
  destruct after as [|a after' _] using rev_ind; intros H.
  - apply app_inj_tail in H as [-> ->]. now left.
  - right. exists after'.
    change (before ++ y :: after' ++ [a]) with (before ++ (y :: after') ++ [a]) in H.
    rewrite app_assoc in H. apply app_inj_tail in H as [-> ->]. auto.
Qed.

Lemma accepted_create ms now k dn mf q st (σ : store) bc :
  str_returns q = true ->
  accepted (σ, snd (MedChainBlockchain.create_drug_batch ms now k dn mf q st bc))
  = accepted (σ, bc) ++
    [MedChainBlockchain._new_tx ms now "CREATE_BATCH"
       [("batch_id", Json.Str k); ("drug_name", Json.Str dn);
        ("manufacturer", Json.Str mf); ("quantity", Json.Int q);
        ("status", Json.Str st)]%string].
Proof.
  intros Hfit. unfold MedChainBlockchain.create_drug_batch. rewrite Hfit.
  unfold accepted. simpl. now rewrite app_assoc.
Qed.

Lemma accepted_update ms now k st (σ : store) bc record :
  MedChainBlockchain.world_state bc !! k = Some record ->
  accepted (σ, snd (MedChainBlockchain.update_batch_status ms now k st bc))
  = accepted (σ, bc) ++
    [MedChainBlockchain._new_tx ms now "UPDATE_STATUS"
       [("batch_id", Json.Str k); ("status", Json.Str st)]%string].
Proof.
  intros Hk. unfold MedChainBlockchain.update_batch_status. rewrite Hk.
  unfold accepted. simpl. now rewrite app_assoc.
Qed.

(** X8: the log is causal and has no orphans.  In every state of a run,
    every key of the world state has a [CREATE_BATCH] in the log; and
    each accepted transaction names a batch that is in the world state,
    and is either a [CREATE_BATCH] of that batch or an [UPDATE_STATUS]
    that comes after a [CREATE_BATCH] of that batch in the log. *)
Theorem updates_follow_creates w :
  reachable w ->
  (forall k, is_Some (MedChainBlockchain.world_state (snd w) !! k) ->
             exists tx0, In tx0 (accepted w) /\ creates k tx0) /\
  (forall before tx after,
     accepted w = before ++ tx :: after ->
     exists k,
       dict_get "batch_id" (payload tx) = Some (Json.Str k) /\
       is_Some (MedChainBlockchain.world_state (snd w) !! k) /\
       (creates k tx \/
        (type tx = "UPDATE_STATUS"%string /\
         exists tx0, In tx0 before /\ creates k tx0))).
Proof.
  induction 1 as [fuel now σ w H | ms now0 k0 dn mf q st σ bc Hr [IH1 IH2]
                 | ms now0 k0 st σ bc Hr [IH1 IH2] | fuel now w r w' Hr IH H].
  - apply init_spec in H as (g & Hm & ->).
    apply mine_fresh_block in Hm as (_ & _ & (_ & _ & Hl & _) & _).
    unfold accepted. simpl. rewrite Hl, deref_alloc_new. simpl. split.
    + intros k [? Hk]. now rewrite lookup_empty in Hk.
    + intros before tx after Habs. now destruct before.
  - destruct (create_drug_batch_cases ms now0 k0 dn mf q st bc)
      as [[Hfit Hcr] | [Hfit Hcr]];
      [| rewrite Hcr; split; [exact IH1 | exact IH2]].
    rewrite (accepted_create _ _ _ _ _ _ _ _ _ Hfit), Hcr. clear Hcr.
    unfold create_payload. simpl in *. split.
    + intros k Hk. destruct (decide (k = k0)) as [-> | Hne].
      * eexists. split; [apply in_app_iff; right; left; reflexivity |].
        split; reflexivity.
      * rewrite lookup_insert_ne in Hk by congruence.
        destruct (IH1 k Hk) as (tx0 & Hin & Hc).
        exists tx0. split; [apply in_app_iff; now left | exact Hc].
    + intros before tx after Heq.
      apply snoc_eq_middle in Heq as [(-> & -> & ->) | (after' & -> & Heq)].
      * exists k0. split; [reflexivity |].
        split; [rewrite lookup_insert_eq; eauto |]. left. split; reflexivity.
      * destruct (IH2 _ _ _ Heq) as (k & Hk & Hin & Hcase).
        exists k. split; [exact Hk |]. split; [| exact Hcase].
        destruct (decide (k = k0)) as [-> | Hne];
          [rewrite lookup_insert_eq; eauto | now rewrite lookup_insert_ne].
  - destruct (MedChainBlockchain.world_state bc !! k0) as [record|] eqn:Hk0.
    2:{ unfold MedChainBlockchain.update_batch_status. rewrite Hk0.
        split; [exact IH1 | exact IH2]. }
    rewrite (accepted_update _ _ _ _ _ _ _ Hk0).
    unfold MedChainBlockchain.update_batch_status. rewrite Hk0. simpl in *.
    assert (Hsame : forall k,
              is_Some (<[k0:=dict_set "timestamp" (Json.Str now0)
                               (dict_set "status" (Json.Str st) record)]>
                         (MedChainBlockchain.world_state bc) !! k) <->
              is_Some (MedChainBlockchain.world_state bc !! k)).
    { intros k. destruct (decide (k = k0)) as [-> | Hne].
      - rewrite lookup_insert_eq, Hk0. split; eauto.
      - now rewrite lookup_insert_ne by congruence. }
    split.
    + intros k Hk. apply Hsame in Hk. destruct (IH1 k Hk) as (tx0 & Hin & Hc).
      exists tx0. split; [apply in_app_iff; now left | exact Hc].
    + intros before tx after Heq.
      apply snoc_eq_middle in Heq as [(-> & -> & ->) | (after' & -> & Heq)].
      * exists k0. split; [reflexivity |]. split; [apply Hsame; eauto |].
        right. split; [reflexivity |]. apply IH1. eauto.
      * destruct (IH2 _ _ _ Heq) as (k & Hk & Hin & Hcase).
        exists k. split; [exact Hk |]. split; [now apply Hsame | exact Hcase].
  - apply reachable_inv in Hr.
    destruct (accepted_after_mine _ _ _ _ _ Hr H) as [-> ->]. exact IH.
Qed.


Lemma demo_updated_reachable : reachable (fst Demo.w2, snd Demo.updated).
Proof.
  exact (reach_update 1748858400456 "2025-06-02T10:00:00+00:00" "batch001"
           "waiting" (fst Demo.w2) (snd Demo.w2) demo_reachable).
Qed.

Lemma updates_follow_creates_witness :
  reachable (fst Demo.w2, snd Demo.updated) /\
  exists update,
    accepted (fst Demo.w2, snd Demo.updated) = [Demo.tx1] ++ update :: [] /\
    exists k,
      dict_get "batch_id" (payload update) = Some (Json.Str k) /\
      is_Some (MedChainBlockchain.world_state (snd Demo.updated) !! k) /\
      (creates k update \/
       (type update = "UPDATE_STATUS"%string /\
        exists tx0, In tx0 [Demo.tx1] /\ creates k tx0)).
Proof.
  split; [exact demo_updated_reachable |].
  eexists. split; [vm_compute; reflexivity |].
  refine (proj2 (updates_follow_creates _ demo_updated_reachable) [Demo.tx1] _ [] _).
  vm_compute; reflexivity.
Defined.

(* ===================================================================== *)
(** ** Decimal numerals and hexadecimal digests *)
(* ===================================================================== *)

Example hash_passcode_known_values :
  SetupDatabase.hash_passcode [97; 100; 109; 105; 110; 49; 50; 51] =
    Encoded "240be518fabd2724ddb6f04eeb1da5967448d7e831c08c8fa822809f74c720a9"%string /\
  SetupDatabase.hash_passcode [99; 97; 102; 233] =
    Encoded "850f7dc43910ff890f8879c0ed26fe697c93a067ad93a7d50f466a7028a9bf4e"%string /\
  SetupDatabase.hash_passcode [] =
    Encoded "e3b0c44298fc1c149afbf4c8996fb92427ae41e4649b934ca495991b7852b855"%string /\
  SetupDatabase.hash_passcode
    [8377; 53; 48; 48; 32; 2324; 2359; 2343; 2367; 32; 128138] =
    Encoded "be7075957bf4f4919e66ffd1785681ab4dbf1219aec6279f127e71c7147f6f31"%string /\
  SetupDatabase.hash_passcode
    [1114111; 127; 128; 2047; 2048; 65535; 65536] =
    Encoded "ba7ba8fe609393ca097ab4a37ccfc4fbbd32b2b736b2a6061663db49161747ac"%string /\
  SetupDatabase.hash_passcode [97; 98; 55296] = UnicodeEncodeError 2 /\
  SetupDatabase.hash_passcode [57343] = UnicodeEncodeError 0 /\
  SetupDatabase.hash_passcode [97; 55295; 57344; 56320; 55296] =
    UnicodeEncodeError 3.
Proof. vm_compute. repeat split. Qed.

Lemma encode_from_cases start s :
  match encode_from start s with
  | Encoded bytes =>
      List.Forall (fun c => is_surrogate c = false) s /\
      bytes = concat (map utf8 s)
  | UnicodeEncodeError i =>
      (start <= i)%nat /\
      List.Forall (fun c => is_surrogate c = false) (firstn (i - start) s) /\
      exists c, nth_error s (i - start) = Some c /\ is_surrogate c = true
  end.
Proof.
  revert start. induction s as [|c s IH]; intros start; cbn [encode_from].
  - split; [constructor | reflexivity].
  - destruct (is_surrogate c) eqn:Hc.
    + split; [lia |]. rewrite Nat.sub_diag. cbn [firstn nth_error].
      split; [constructor |]. now exists c.
    + specialize (IH (S start)).
      destruct (encode_from (S start) s) as [bytes | i].
      * destruct IH as [Hall ->]. split; [now constructor | reflexivity].
      * destruct IH as (Hle & Hall & c' & Hnth & Hc').
        replace (i - start)%nat with (S (i - S start)) by lia.
        cbn [firstn nth_error]. split; [lia |].
        split; [now constructor |]. now exists c'.
Qed.

Lemma all_chars_app p a b :
  all_chars p (a +:+ b) = all_chars p a && all_chars p b.
Proof.
  induction a as [|c a IH]; simpl; [reflexivity |].
  now rewrite IH, andb_assoc.
Qed.

Lemma hexdigit_is_lower_hex x :
  is_lower_hex (Digest.hexdigit (Z.land x 15)) = true.
Proof.
  change 15 with (Z.ones 4). rewrite Z.land_ones by lia.
  assert (H : 0 <= x mod 2 ^ 4 < 16) by (apply Z.mod_pos_bound; lia).
  set (r := x mod 2 ^ 4) in *.
  assert (Hr : r = 0 \/ r = 1 \/ r = 2 \/ r = 3 \/ r = 4 \/ r = 5 \/ r = 6 \/
               r = 7 \/ r = 8 \/ r = 9 \/ r = 10 \/ r = 11 \/ r = 12 \/
               r = 13 \/ r = 14 \/ r = 15) by lia.
  clearbody r.
  repeat (destruct Hr as [-> | Hr]; [reflexivity |]). subst r. reflexivity.
Qed.

Lemma hex_of_bytes_is_lower_hex bs :
  all_chars is_lower_hex (Digest.hex_of_bytes bs) = true.
Proof.
  induction bs as [|b bs IH]; [reflexivity |].
  cbn [Digest.hex_of_bytes fold_right]. unfold Digest.hex_byte at 1.
  cbn [all_chars]. rewrite !hexdigit_is_lower_hex. exact IH.
Qed.

Lemma sha256_hexdigest_is_lower_hex msg :
  all_chars is_lower_hex (Digest.sha256_hexdigest msg) = true.
Proof. apply hex_of_bytes_is_lower_hex. Qed.

(** X9: [hash_passcode] on a passcode that is any sequence of code
    points.  When it returns, the passcode has no surrogate and the
    result is the SHA-256 of the UTF-8 bytes of its code points: exactly
    64 lowercase hexadecimal digits, for the empty passcode and for
    code points of one, two, three or four bytes alike.  When it raises,
    it is the [UnicodeEncodeError] of [passcode.encode()], at the
    position of the first surrogate of the passcode.  So it returns
    exactly on the passcodes without a surrogate. *)
Theorem hash_passcode_is_a_hex_digest passcode :
  match SetupDatabase.hash_passcode passcode with
  | Encoded digest =>
      List.Forall (fun c => is_surrogate c = false) passcode /\
      digest = Digest.sha256_hexdigest (concat (map utf8 passcode)) /\
      String.length digest = 64%nat /\
      all_chars is_lower_hex digest = true
  | UnicodeEncodeError start =>
      List.Forall (fun c => is_surrogate c = false) (firstn start passcode) /\
      exists c, nth_error passcode start = Some c /\ is_surrogate c = true
  end.
Proof.
  unfold SetupDatabase.hash_passcode, encode_utf8.
  pose proof (encode_from_cases 0 passcode) as H.
  destruct (encode_from 0 passcode) as [bytes | i].
  - destruct H as [Hall ->]. repeat split; try assumption.
    + apply length_sha256_hexdigest.
    + apply sha256_hexdigest_is_lower_hex.
  - rewrite Nat.sub_0_r in H. exact (proj2 H).
Qed.

(** X10: whatever number between 100000000000 and 999999999999 the
    generator draws, [generate_aadhaar_id] returns exactly twelve
    characters, all of them decimal digits, the first not a zero; read
    back as a number they give the number drawn, so different draws give
    different ids. *)
Theorem generate_aadhaar_id_has_twelve_digits drawn :
  100000000000 <= drawn <= 999999999999 ->
  let s := SetupDatabase.generate_aadhaar_id drawn in
  String.length s = 12%nat /\
  all_chars is_digit s = true /\
  startswith "0" s = false /\
  option_map Z.of_int (NilZero.int_of_string s) = Some drawn /\
  forall drawn', SetupDatabase.generate_aadhaar_id drawn' = s -> drawn' = drawn.
Proof.
  intros Hrange. cbv zeta. unfold SetupDatabase.generate_aadhaar_id.
  destruct drawn as [|p|p]; try lia.
  destruct (str_of_int_positive p) as ((Hge & Hlt) & Hdig & Hlead).
  cbv zeta in *. set (s := str_of_int (Z.pos p)) in *.
  split; [| split; [exact Hdig | split; [exact Hlead | split]]].
  - assert (H1 : Z.of_nat (Nat.pred (String.length s)) < 12).
    { apply (Z.pow_lt_mono_r_iff 10); [lia | lia |].
      apply (Z.le_lt_trans _ _ _ Hge). change (10 ^ 12) with 1000000000000.
      lia. }
    assert (H2 : 11 < Z.of_nat (String.length s)).
    { apply (Z.pow_lt_mono_r_iff 10); [lia | lia |].
      apply (Z.le_lt_trans _ (Z.pos p)); [| exact Hlt].
      change (10 ^ 11) with 100000000000. lia. }
    lia.
  - subst s. unfold str_of_int. rewrite NilZero.isi.
    + cbn [option_map]. now rewrite DecimalZ.of_to.
    + cbn [Z.to_int]. intros [= H].
      now apply DecimalPos.Unsigned.to_uint_nonnil in H.
    + discriminate.
  - intros drawn' H. now apply str_of_int_inj.
Qed.

Lemma generate_aadhaar_id_has_twelve_digits_witness :
  100000000000 <= 123456789012 <= 999999999999 /\
  SetupDatabase.generate_aadhaar_id 123456789012 = "123456789012"%string /\
  String.length (SetupDatabase.generate_aadhaar_id 123456789012) = 12%nat.
Proof.
  assert (H : 100000000000 <= 123456789012 <= 999999999999) by lia.
  split; [exact H |]. split; [reflexivity |].
  exact (proj1 (generate_aadhaar_id_has_twelve_digits 123456789012 H)).
Defined.

Lemma genesis_previous_hash w :
  reachable w ->
  forall g, MedChainBlockchain.chain (snd w) !! 0%nat = Some g ->
            Block.previous_hash g = repeat_char "0" 64.
Proof.
  induction 1 as [fuel now σ w H | ms now0 k0 dn mf q st σ bc Hr IH
                 | ms now0 k0 st σ bc Hr IH | fuel now w r w' Hr IH H].
  - apply init_spec in H as (g & Hm & ->).
    apply mine_fresh_block in Hm as (_ & _ & (_ & _ & _ & Hp) & _).
    intros g0 [= <-]. exact Hp.
  - destruct (create_drug_batch_cases ms now0 k0 dn mf q st bc)
      as [[Hfit Hcr] | [Hfit Hcr]]; rewrite Hcr; exact IH.
  - unfold MedChainBlockchain.update_batch_status.
    now destruct (MedChainBlockchain.world_state bc !! k0).
  - pose proof (reachable_inv _ Hr) as Hinv.
    destruct (exec_extends (CallMine fuel now) _ _ _ Hinv H)
      as ((blocks & Hb) & _).
    destruct Hinv as (Hne & _). cbv zeta in Hne.
    intros g Hg. apply IH. rewrite Hb in Hg.
    destruct (MedChainBlockchain.chain (snd w)); [contradiction | exact Hg].
Qed.

(** X11: the hashes of the chain are well formed.  In every state of a
    run, the [hash] and the [previous_hash] of every block are strings
    of exactly 64 lowercase hexadecimal digits. *)
Theorem chain_hashes_are_hex_digests w :
  reachable w ->
  forall (i : nat) b,
    MedChainBlockchain.chain (snd w) !! i = Some b ->
    (String.length (Block.hash b) = 64%nat /\
     all_chars is_lower_hex (Block.hash b) = true) /\
    (String.length (Block.previous_hash b) = 64%nat /\
     all_chars is_lower_hex (Block.previous_hash b) = true).
Proof.
  intros Hr. pose proof (reachable_inv _ Hr) as (_ & Hblocks & Hlinks).
  cbv zeta in *.
  assert (Hhash : forall (i : nat) b,
            MedChainBlockchain.chain (snd w) !! i = Some b ->
            String.length (Block.hash b) = 64%nat /\
            all_chars is_lower_hex (Block.hash b) = true).
  { intros i b Hb. destruct (Hblocks i b Hb) as (_ & <- & _).
    split; [apply length_sha256_hexdigest | apply sha256_hexdigest_is_lower_hex]. }
  intros i b Hb. split; [exact (Hhash i b Hb) |].
  destruct i as [|i].
  - rewrite (genesis_previous_hash w Hr b Hb). split; reflexivity.
  - destruct (MedChainBlockchain.chain (snd w) !! i) as [p|] eqn:Hp.
    + rewrite (Hlinks i p b Hp Hb). exact (Hhash i p Hp).
    + apply lookup_ge_None in Hp. apply lookup_lt_Some in Hb. lia.
Qed.

Lemma chain_hashes_are_hex_digests_witness :
  reachable Demo.w2 /\
  (String.length (Block.hash Demo.block1) = 64%nat /\
   all_chars is_lower_hex (Block.hash Demo.block1) = true) /\
  (String.length (Block.previous_hash Demo.block1) = 64%nat /\
   all_chars is_lower_hex (Block.previous_hash Demo.block1) = true).
Proof.
  split; [exact demo_reachable |].
  exact (chain_hashes_are_hex_digests Demo.w2 demo_reachable 1%nat Demo.block1
           eq_refl).
Defined.
(** * The set-up script

    What holds of every run of [setup_medchain_database], whatever the
    server, the console and the clock reply. *)

Section SetupScript.
Import Mongo.

(** [always] is sound for runs, monotone, and follows [bind]. *)
Section Always.
Context {A : Type}.

Lemma always_mono (p : script A) (Q Q' : list entry -> A -> Prop) :
  (forall t a, Q t a -> Q' t a) -> always p Q -> always p Q'.
Proof.
  revert Q Q'. induction p as [a | X c k IH]; simpl; intros Q Q' HQ Hp.
  - now apply HQ.
  - intros r. eapply IH; [| apply Hp]. intros t a. apply HQ.
Qed.

Lemma always_interp {S} (h : handler S) (p : script A) Q s :
  always p Q -> Q (trace_of h p s) (result_of h p s).
Proof.
  unfold trace_of, result_of. revert Q s.
  induction p as [a | X c k IH]; simpl; intros Q s Hp.
  - exact Hp.
  - destruct (h X c s) as [r s1] eqn:Hh.
    specialize (IH r _ s1 (Hp r)).
    destruct (interp h (k r) s1) as [[t a] s2]. exact IH.
Qed.

Lemma always_bind {B} (m : script B) (f : B -> script A) Q :
  always m (fun t b => always (f b) (fun t' a => Q (t ++ t') a)) ->
  always (bind m f) Q.
Proof.
  revert Q. induction m as [b | X c k IH]; simpl; intros Q Hm.
  - exact Hm.
  - intros r. apply IH. apply Hm.
Qed.

Lemma always_and (p : script A) Q Q' :
  always p Q -> always p Q' -> always p (fun t a => Q t a /\ Q' t a).
Proof.
  revert Q Q'. induction p as [a | X c k IH]; simpl; intros Q Q' H1 H2.
  - now split.
  - intros r. apply (IH r _ _ (H1 r) (H2 r)).
Qed.

End Always.

Section Sequencing.
Variable Q : forall A, list entry -> reply A -> Prop.
Hypothesis Q_ret : forall A (a : A), Q A [] (Value a).
Hypothesis Q_seq : forall A B t1 (a : A) t2 (r : reply B),
  Q A t1 (Value a) -> Q B t2 r -> Q B (t1 ++ t2) r.
Hypothesis Q_raise : forall A B t e, Q A t (Raise e) -> Q B t (Raise e).

Lemma always_and_then {A B} (m : script (reply A)) (f : A -> script (reply B)) :
  always m (Q A) -> (forall a, always (f a) (Q B)) ->
  always (and_then m f) (Q B).
Proof.
  intros Hm Hf. unfold and_then. apply always_bind.
  eapply always_mono; [| exact Hm]. intros t [a | e] Ht; simpl.
  - eapply always_mono; [| apply Hf]. intros t' r Hr. now apply Q_seq with A a.
  - rewrite app_nil_r. now apply Q_raise with A.
Qed.

Lemma always_for_each {A} (l : list A) (body : A -> script (reply unit)) :
  (forall a, In a l -> always (body a) (Q unit)) ->
  always (for_each l body) (Q unit).
Proof.
  induction l as [| a l IH]; intros Hbody; simpl.
  - apply Q_ret.
  - apply always_and_then.
    + apply Hbody. now left.
    + intros _. apply IH. intros a' Ha'. apply Hbody. now right.
Qed.

End Sequencing.

(** The discipline is kept by sequencing. *)
Lemma guarded_app prev t1 t2 :
  prev <> None ->
  guarded_from prev t1 ->
  (forall prev', prev' <> None -> guarded_from prev' t2) ->
  guarded_from prev (t1 ++ t2).
Proof.
  revert prev. induction t1 as [| [X c r] t1 IH]; intros prev Hprev H1 H2; simpl.
  - now apply H2.
  - destruct H1 as [Hc H1]. split; [exact Hc |]. apply IH; [discriminate | exact H1 | exact H2].
Qed.

Lemma inner_ret A (a : A) : inner A [] (Value a).
Proof. intros prev _. exact I. Qed.

Lemma inner_seq A B t1 (a : A) t2 (r : reply B) :
  inner A t1 (Value a) -> inner B t2 r -> inner B (t1 ++ t2) r.
Proof.
  intros H1 H2 prev Hprev. apply guarded_app; [exact Hprev | now apply H1 | exact H2].
Qed.

Lemma inner_raise A B t e : inner A t (Raise e) -> inner B t (Raise e).
Proof. intros H. exact H. Qed.

Lemma mem_In x l : SetupDatabase.mem x l = true <-> In x l.
Proof.
  unfold SetupDatabase.mem. rewrite existsb_exists. split.
  - intros (y & Hy & Heq). apply String.eqb_eq in Heq. now subst.
  - intros H. exists x. split; [exact H | apply String.eqb_refl].
Qed.

Lemma drop_one_guarded collection :
  In collection SetupDatabase.collections_to_drop ->
  always (SetupDatabase.drop_one collection) (inner unit).
Proof.
  intros Hin. unfold SetupDatabase.drop_one. simpl. intros [names | e]; simpl.
  - destruct (SetupDatabase.mem collection names) eqn:Hmem; simpl.
    + apply mem_In in Hmem.
      intros [[] | e]; simpl.
      * intros r prev Hprev. simpl. repeat split; eauto.
        exists names. split; [reflexivity | exact Hmem].
      * intros prev Hprev. simpl. repeat split; eauto.
        exists names. split; [reflexivity | exact Hmem].
    + intros prev Hprev. simpl. auto.
  - intros prev Hprev. simpl. auto.
Qed.

Lemma create_one_guarded name :
  In name SetupDatabase.collections ->
  always (SetupDatabase.create_one name) (inner unit).
Proof.
  intros Hin. unfold SetupDatabase.create_one. simpl. intros [names | e]; simpl.
  - destruct (SetupDatabase.mem name names) eqn:Hmem; simpl.
    + intros prev Hprev. simpl. auto.
    + assert (Hnot : ~ In name names).
      { intros H. apply mem_In in H. congruence. }
      intros [[] | e]; simpl.
      * intros r prev Hprev. simpl. repeat split; eauto.
        exists names. split; [reflexivity | exact Hnot].
      * intros prev Hprev. simpl. repeat split; eauto.
        exists names. split; [reflexivity | exact Hnot].
  - intros prev Hprev. simpl. auto.
Qed.

Lemma call_guarded {X} (c : cmd X) :
  (forall prev, allowed prev c) -> always (call c) (inner X).
Proof.
  intros Hc. simpl. intros r prev _. simpl. split; [apply Hc | exact I].
Qed.

Lemma try_body_guarded : always SetupDatabase.try_body (inner unit).
Proof.
  unfold SetupDatabase.try_body.
  apply (always_and_then inner inner_seq inner_raise);
    [apply call_guarded; intros; exact I | intros _].
  apply (always_and_then inner inner_seq inner_raise);
    [apply (always_for_each inner inner_ret inner_seq inner_raise);
     apply drop_one_guarded | intros _].
  apply (always_and_then inner inner_seq inner_raise);
    [apply (always_for_each inner inner_ret inner_seq inner_raise);
     apply create_one_guarded | intros _].
  repeat (apply (always_and_then inner inner_seq inner_raise);
          [apply call_guarded; intros; simpl; auto | intros ?]).
  apply call_guarded; intros; simpl; auto.
Qed.

Lemma clean_app t1 t2 : clean (t1 ++ t2) = clean t1 && clean t2.
Proof. apply forallb_app. Qed.

Lemma unclosed_app t1 t2 : unclosed (t1 ++ t2) = unclosed t1 && unclosed t2.
Proof. apply forallb_app. Qed.

Lemma tidy_ret A (a : A) : tidy A [] (Value a).
Proof. now split. Qed.

Lemma tidy_seq A B t1 (a : A) t2 (r : reply B) :
  tidy A t1 (Value a) -> tidy B t2 r -> tidy B (t1 ++ t2) r.
Proof.
  intros [Ho1 Hc1] [Ho2 Hs2]. split.
  - rewrite unclosed_app, Ho1, Ho2. reflexivity.
  - destruct r as [b | e]; simpl in *.
    + rewrite clean_app, Hc1, Hs2. reflexivity.
    + destruct Hs2 as (pre & X & c & -> & Hpre & Hc).
      exists (t1 ++ pre), X, c. rewrite app_assoc, clean_app, Hc1, Hpre. auto.
Qed.

Lemma tidy_raise A B t e : tidy A t (Raise e) -> tidy B t (Raise e).
Proof. intros H. exact H. Qed.

Lemma call_tidy {X} (c : cmd X) :
  closes c = false -> always (call c) (tidy X).
Proof.
  intros Hc. simpl. intros r. split.
  - unfold unclosed. simpl. rewrite Hc. reflexivity.
  - destruct r as [x | e]; simpl; [reflexivity |].
    exists [], X, c. auto.
Qed.

Ltac tidy_step :=
  first [ apply (always_and_then tidy tidy_seq tidy_raise); [| intros ?]
        | apply call_tidy; reflexivity
        | apply tidy_ret ].

Lemma drop_one_tidy collection : always (SetupDatabase.drop_one collection) (tidy unit).
Proof.
  unfold SetupDatabase.drop_one. tidy_step; [tidy_step |].
  destruct (SetupDatabase.mem _ _); repeat tidy_step.
Qed.

Lemma create_one_tidy name : always (SetupDatabase.create_one name) (tidy unit).
Proof.
  unfold SetupDatabase.create_one. tidy_step; [tidy_step |].
  destruct (negb _); repeat tidy_step.
Qed.

Lemma try_body_tidy : always SetupDatabase.try_body (tidy unit).
Proof.
  unfold SetupDatabase.try_body.
  tidy_step; [tidy_step |].
  tidy_step; [apply (always_for_each tidy tidy_ret tidy_seq tidy_raise);
              intros; apply drop_one_tidy |].
  tidy_step; [apply (always_for_each tidy tidy_ret tidy_seq tidy_raise);
              intros; apply create_one_tidy |].
  repeat tidy_step.
Qed.

(** The three shapes of a run: the client is not made; the body returns;
    the body raises.  [P] is what is known of the body. *)
Lemma setup_shape (P : list entry -> reply unit -> Prop) :
  always SetupDatabase.try_body P ->
  always SetupDatabase.setup_medchain_database (fun t res =>
    (exists e rp,
        t = [Entry (MongoClient SetupDatabase.MONGODB_URI) (Raise e);
             Entry (print (SetupDatabase.error_text e)) rp] /\
        res = after_print rp) \/
    (exists body rc,
        P body (Value tt) /\
        t = Entry (MongoClient SetupDatabase.MONGODB_URI) (Value tt)
              :: body ++ [Entry close rc] /\
        res = after_close rc (Value true)) \/
    (exists body e rp rc,
        P body (Raise e) /\
        t = Entry (MongoClient SetupDatabase.MONGODB_URI) (Value tt)
              :: body ++ [Entry (print (SetupDatabase.error_text e)) rp; Entry close rc] /\
        res = after_close rc (after_print rp))).
Proof.
  intros Hbody. unfold SetupDatabase.setup_medchain_database.
  cbn [always]. intros [[] | e].
  - apply always_bind. eapply always_mono; [| exact Hbody].
    intros body rb HP. destruct rb as [u | e]; [destruct u |]; simpl.
    + intros rc. destruct rc as [[] | e']; simpl; right; left;
        eexists body, _; (split; [exact HP |]); split; reflexivity.
    + intros rp. destruct rp as [[] | e1]; simpl; intros rc;
        destruct rc as [[] | e2]; simpl; right; right;
        eexists body, e, _, _; (split; [exact HP |]); split; reflexivity.
  - simpl. intros rp. destruct rp as [[] | e1]; simpl; left;
      eexists e, _; split; reflexivity.
Qed.

Lemma guarded_from_at prev pre {X} (c : cmd X) r post :
  guarded_from prev (pre ++ Entry c r :: post) ->
  allowed (match last pre with Some e => Some e | None => prev end) c.
Proof.
  revert prev. induction pre as [| [Y d q] pre IH]; intros prev H.
  - exact (proj1 H).
  - destruct H as [_ H]. apply IH in H. rewrite last_cons.
    destruct (last pre); exact H.
Qed.

Lemma setup_guarded :
  always SetupDatabase.setup_medchain_database
         (fun t _ => guarded_from None t).
Proof.
  eapply always_mono; [| exact (setup_shape _ try_body_guarded)].
  intros t res [(e & rp & -> & _) | [(body & rc & HP & -> & _)
                                    | (body & e & rp & rc & HP & -> & _)]].
  - simpl. auto.
  - split; [now split |]. apply guarded_app; [discriminate | | ].
    + apply HP. discriminate.
    + intros prev _. simpl. auto.
  - split; [now split |]. apply guarded_app; [discriminate | | ].
    + apply HP. discriminate.
    + intros prev _. simpl. auto.
Qed.

(** X12: in every run of [setup_medchain_database], whatever the server
    replies, each call is allowed where it is made: the client is made
    first, once, for [MONGODB_URI]; listings, drops, creations,
    insertions and indexes are on the database [DATABASE_NAME]; a
    collection is dropped only if it is one of [collections_to_drop] and
    the call made just before is a listing that returned its name; a
    collection is created only if it is one of [collections] and the
    call made just before is a listing that returned without its name. *)
Theorem setup_guards_every_drop_and_create
  {S} (h : handler S) (s : S) pre {X} (c : cmd X) r post :
  trace_of h SetupDatabase.setup_medchain_database s = pre ++ Entry c r :: post ->
  allowed (last pre) c.
Proof.
  intros Ht.
  pose proof (always_interp h _ _ s setup_guarded) as H. cbv beta in H.
  rewrite Ht in H. apply guarded_from_at in H.
  destruct (last pre); exact H.
Qed.

Lemma setup_tidy :
  always SetupDatabase.setup_medchain_database (fun t res =>
    (exists e rp,
        t = [Entry (MongoClient SetupDatabase.MONGODB_URI) (Raise e);
             Entry (print (SetupDatabase.error_text e)) rp] /\
        res = after_print rp) \/
    (exists body rc,
        tidy unit body (Value tt) /\
        t = Entry (MongoClient SetupDatabase.MONGODB_URI) (Value tt)
              :: body ++ [Entry close rc] /\
        res = after_close rc (Value true)) \/
    (exists body e rp rc,
        tidy unit body (Raise e) /\
        t = Entry (MongoClient SetupDatabase.MONGODB_URI) (Value tt)
              :: body ++ [Entry (print (SetupDatabase.error_text e)) rp; Entry close rc] /\
        res = after_close rc (after_print rp))).
Proof. exact (setup_shape _ try_body_tidy). Qed.

(** X13: every run of [setup_medchain_database] starts by making the
    client for [MONGODB_URI].  If that returned, the last call of the
    run closes the client and no call before it does, whether the work
    in between raised or not; if it raised, the client is never
    closed. *)
Theorem setup_closes_the_client {S} (h : handler S) (s : S) :
  exists made rest,
    trace_of h SetupDatabase.setup_medchain_database s
    = Entry (MongoClient SetupDatabase.MONGODB_URI) made :: rest /\
    match made with
    | Value _ => exists work closed,
        rest = work ++ [Entry close closed] /\ unclosed work = true
    | Raise _ => unclosed rest = true
    end.
Proof.
  destruct (always_interp h _ _ s setup_tidy)
    as [(e & rp & -> & _) | [(body & rc & [Ho _] & -> & _)
                            | (body & e & rp & rc & [Ho _] & -> & _)]].
  - eexists _, _. split; [reflexivity |]. reflexivity.
  - eexists _, _. split; [reflexivity |]. exists body, rc. now split.
  - eexists _, _. split; [reflexivity |].
    exists (body ++ [Entry (print (SetupDatabase.error_text e)) rp]), rc. split.
    + now rewrite <- app_assoc.
    + rewrite unclosed_app, Ho. reflexivity.
Qed.





Lemma quiet_ret A (a : A) : quiet A [] (Value a).
Proof. now split. Qed.

Lemma quiet_seq A B t1 (a : A) t2 (r : reply B) :
  quiet A t1 (Value a) -> quiet B t2 r -> quiet B (t1 ++ t2) r.
Proof.
  intros [H1 H2] [H3 H4]. unfold quiet, readings, inserted in *.
  rewrite !omap_app, H1, H2, H3, H4. now split.
Qed.

Lemma quiet_raise A B t e : quiet A t (Raise e) -> quiet B t (Raise e).
Proof. intros H. exact H. Qed.

Lemma call_quiet {X} (c : cmd X) :
  (forall r, reading (Entry c r) = None) ->
  (forall r, insertion (Entry c r) = None) ->
  always (call c) (quiet X).
Proof.
  intros H1 H2. cbn [always call]. intros r.
  unfold quiet, readings, inserted. cbn [omap list_omap].
  now rewrite H1, H2.
Qed.

Ltac quiet_step :=
  first [ apply (always_and_then quiet quiet_seq quiet_raise); [| intros ?]
        | apply call_quiet; reflexivity
        | apply quiet_ret ].

Lemma drop_one_quiet collection : always (SetupDatabase.drop_one collection) (quiet unit).
Proof.
  unfold SetupDatabase.drop_one. quiet_step; [quiet_step |].
  destruct (SetupDatabase.mem _ _); repeat quiet_step.
Qed.

Lemma create_one_quiet name : always (SetupDatabase.create_one name) (quiet unit).
Proof.
  unfold SetupDatabase.create_one. quiet_step; [quiet_step |].
  destruct (negb _); repeat quiet_step.
Qed.

Lemma always_and_then_post {A B} (m : script (reply A)) (f : A -> script (reply B))
  (Q1 : list entry -> reply A -> Prop) (Q : list entry -> reply B -> Prop) :
  always m Q1 ->
  (forall t1 a, Q1 t1 (Value a) -> always (f a) (fun t2 r => Q (t1 ++ t2) r)) ->
  (forall t1 e, Q1 t1 (Raise e) -> Q t1 (Raise e)) ->
  always (and_then m f) Q.
Proof.
  intros Hm Hf He. unfold and_then. apply always_bind.
  eapply always_mono; [| exact Hm]. intros t [a | e] Ht; simpl.
  - now apply Hf.
  - rewrite app_nil_r. now apply He.
Qed.

Ltac run_call :=
  cbn [always and_then bind call]; intros [? | ?]; [| exact I].

Lemma try_body_sample_data : always SetupDatabase.try_body (on_success unit).
Proof.
  unfold SetupDatabase.try_body.
  apply always_and_then_post with (Q1 := quiet unit);
    [quiet_step | | intros; exact I].
  intros ta ua [Ha1 Ha2].
  apply always_and_then_post with (Q1 := fun t r => quiet unit (ta ++ t) r);
    [ | | intros; exact I].
  { eapply always_mono;
      [| apply (always_for_each quiet quiet_ret quiet_seq quiet_raise);
         intros; apply drop_one_quiet].
    intros t r Hq. apply quiet_seq with unit tt; [now split | exact Hq]. }
  intros tb ub Hb.
  apply always_and_then_post with (Q1 := fun t r => quiet unit ((ta ++ tb) ++ t) r);
    [ | | intros; exact I].
  { eapply always_mono;
      [| apply (always_for_each quiet quiet_ret quiet_seq quiet_raise);
         intros; apply create_one_quiet].
    intros t r Hq. apply quiet_seq with unit ub; [exact Hb | exact Hq]. }
  intros tc uc [Hc1 Hc2].
  do 28 run_call.
  unfold on_success, sample_data, readings, inserted in *.
  rewrite !app_assoc.
  rewrite (omap_app reading ((ta ++ tb) ++ tc)),
    (omap_app insertion ((ta ++ tb) ++ tc)), Hc1, Hc2.
  eexists _, _, _, _, _, _, _, _. split; reflexivity.
Qed.

(** X16: a run of [setup_medchain_database] that returns [True] has
    read the clock eight times and made exactly four insertions, in
    this order: the two drug batches, the patient, the two inventory
    items and the three users, each document carrying its own reading
    of the clock, in the order of the readings.  And no run, whether it
    returns [True], returns [False] or raises, drops the collection
    [users] it inserts into. *)
Theorem setup_success_inserts_the_sample_data {S} (h : handler S) (s : S) :
  (result_of h SetupDatabase.setup_medchain_database s = Value true ->
   exists t1 t2 t3 t4 t5 t6 t7 t8,
     readings (trace_of h SetupDatabase.setup_medchain_database s)
     = [t1; t2; t3; t4; t5; t6; t7; t8] /\
     inserted (trace_of h SetupDatabase.setup_medchain_database s)
     = [(SetupDatabase.DATABASE_NAME, "drug_batches"%string,
         SetupDatabase.drug_batches t1 t2);
        (SetupDatabase.DATABASE_NAME, "patients"%string,
         SetupDatabase.patients t3);
        (SetupDatabase.DATABASE_NAME, "inventory"%string,
         SetupDatabase.inventory_items t4 t5);
        (SetupDatabase.DATABASE_NAME, "users"%string,
         SetupDatabase.users t6 t7 t8)]) /\
  (forall db r,
     ~ In (Entry (Mongo.drop db "users") r)
          (trace_of h SetupDatabase.setup_medchain_database s)).
Proof.
  split.
  2: { intros db r Hin. apply in_split in Hin as (pre & post & Ht).
       pose proof (always_interp h _ _ s setup_guarded) as H. cbv beta in H.
       rewrite Ht in H. apply guarded_from_at in H.
       destruct H as (_ & Hdrop & _). revert Hdrop. clear.
       unfold SetupDatabase.collections_to_drop. simpl.
       intros H. repeat (destruct H as [H | H]; [discriminate |]). exact H. }
  destruct (always_interp h _ _ s (setup_shape _ try_body_sample_data))
    as [(e0 & rp & Ht & Hres) | [(body & rc & Hb & Ht & Hres)
                              | (body & e0 & rp & rc & _ & Ht & Hres)]];
    rewrite Ht, Hres; clear Ht Hres.
  - now destruct rp.
  - intros _. destruct Hb as (t1 & t2 & t3 & t4 & t5 & t6 & t7 & t8 & Hr & Hi).
    exists t1, t2, t3, t4, t5, t6, t7, t8.
    unfold readings, inserted in *. cbn [omap list_omap reading insertion].
    rewrite !omap_app, Hr, Hi. cbn [omap list_omap reading insertion].
    now rewrite !app_nil_r.
  - now destruct rc, rp.
Qed.


(** Runs: against the server an earlier run left behind, once and once
    more, and against no server. *)
Example run_on_memory :
  let once := interp memory SetupDatabase.setup_medchain_database left_behind in
  let twice := interp memory SetupDatabase.setup_medchain_database (snd once) in
  snd (fst once) = Value true /\
  length (fst (fst once)) = 56%nat /\
  snd (fst twice) = Value true /\
  map (fun p => (fst p, length (snd p))) (held (snd twice))
  = [("users"%string, 6%nat); ("blockchain_transactions"%string, 0%nat);
     ("drug_batches"%string, 2%nat); ("audit_logs"%string, 0%nat);
     ("inventory"%string, 2%nat); ("patients"%string, 1%nat)].
Proof. vm_compute. repeat split; reflexivity. Qed.

Example run_offline :
  trace_of offline SetupDatabase.setup_medchain_database tt
  = [the_client;
     Entry (print "🔗 Connected to MongoDB") (Value tt);
     Entry (list_collection_names "medchain_mvp") (Raise refused);
     Entry (print (SetupDatabase.error_text refused)) (Value tt);
     Entry close (Value tt)] /\
  result_of offline SetupDatabase.setup_medchain_database tt = Value false.
Proof. vm_compute. split; reflexivity. Qed.

Lemma setup_guards_every_drop_and_create_witness :
  let t := trace_of memory SetupDatabase.setup_medchain_database left_behind in
  t = firstn 3 t
        ++ Entry (Mongo.drop "medchain_mvp" "drug_batches") (Value tt)
        :: skipn 4 t /\
  allowed (last (firstn 3 t)) (Mongo.drop "medchain_mvp" "drug_batches").
Proof.
  cbv zeta.
  assert (Ht : trace_of memory SetupDatabase.setup_medchain_database left_behind
               = firstn 3 (trace_of memory SetupDatabase.setup_medchain_database
                                    left_behind)
                   ++ Entry (Mongo.drop "medchain_mvp" "drug_batches") (Value tt)
                   :: skipn 4 (trace_of memory
                                        SetupDatabase.setup_medchain_database
                                        left_behind))
    by (vm_compute; reflexivity).
  split; [exact Ht |].
  exact (setup_guards_every_drop_and_create memory left_behind _ _ _ _ Ht).
Defined.


Lemma setup_success_inserts_the_sample_data_witness :
  result_of memory SetupDatabase.setup_medchain_database left_behind
  = Value true /\
  inserted (trace_of memory SetupDatabase.setup_medchain_database left_behind)
  = [("medchain_mvp"%string, "drug_batches"%string,
      SetupDatabase.drug_batches 0 1);
     ("medchain_mvp"%string, "patients"%string, SetupDatabase.patients 2);
     ("medchain_mvp"%string, "inventory"%string,
      SetupDatabase.inventory_items 3 4);
     ("medchain_mvp"%string, "users"%string, SetupDatabase.users 5 6 7)] /\
  result_of offline SetupDatabase.setup_medchain_database tt = Value false /\
  (forall db r,
     ~ In (Entry (Mongo.drop db "users") r)
          (trace_of offline SetupDatabase.setup_medchain_database tt)).
Proof.
  assert (Hres : result_of memory SetupDatabase.setup_medchain_database
                           left_behind = Value true)
    by (vm_compute; reflexivity).
  split; [exact Hres |].
  split; [| split; [vm_compute; reflexivity |]].
  - destruct (proj1 (setup_success_inserts_the_sample_data memory left_behind) Hres)
      as (t1 & t2 & t3 & t4 & t5 & t6 & t7 & t8 & Hr & Hi).
    assert (Hr0 : readings (trace_of memory SetupDatabase.setup_medchain_database
                                     left_behind)
                  = [0; 1; 2; 3; 4; 5; 6; 7])
      by (vm_compute; reflexivity).
    rewrite Hr0 in Hr. injection Hr as <- <- <- <- <- <- <- <-. exact Hi.
  - exact (proj2 (setup_success_inserts_the_sample_data offline tt)).
Defined.

End SetupScript.

(* ===================================================================== *)
(** * What the hash covers

    [json.dumps] with sorted keys and compact separators writes a block
    so that it can be read back: every attribute of the block, every
    transaction and every member of a payload is found again in the
    string that is hashed, and the order of the keys of a payload is
    the only thing that is lost. *)
(* ===================================================================== *)

Lemma append_cons x (a b : string) : String x a +:+ b = String x (a +:+ b).
Proof. reflexivity. Qed.

Lemma append_nil_l (b : string) : "" +:+ b = b.
Proof. reflexivity. Qed.

Lemma string_cons_inj c (a b : string) : String c a = String c b -> a = b.
Proof. now intros [= H]. Qed.

Lemma append_assoc (a b c : string) : (a +:+ b) +:+ c = a +:+ (b +:+ c).
Proof.
  induction a as [| x a IH]; [reflexivity |].
  rewrite !append_cons. f_equal. exact IH.
Qed.

Lemma append_nil_r (a : string) : a +:+ "" = a.
Proof.
  induction a as [| x a IH]; [reflexivity |].
  rewrite append_cons. f_equal. exact IH.
Qed.

Lemma append_inj_l (a x y : string) : a +:+ x = a +:+ y -> x = y.
Proof.
  induction a as [| c a IH]; [auto |].
  rewrite !append_cons. intros [= H]. auto.
Qed.

Lemma span_inj p (a a' r r' : string) :
  all_chars p a = true -> all_chars p a' = true ->
  stops p r = true -> stops p r' = true ->
  a +:+ r = a' +:+ r' -> a = a' /\ r = r'.
Proof.
  revert a'. induction a as [| c a IH]; intros [| c' a'];
    rewrite ?append_cons, ?append_nil_l; cbn [all_chars];
    intros Ha Ha' Hr Hr' H.
  - auto.
  - subst r. cbn [stops] in Hr. apply andb_prop in Ha' as [Hc _].
    rewrite Hc in Hr. discriminate.
  - subst r'. cbn [stops] in Hr'. apply andb_prop in Ha as [Hc _].
    rewrite Hc in Hr'. discriminate.
  - injection H as -> H.
    apply andb_prop in Ha as [_ Ha]. apply andb_prop in Ha' as [_ Ha'].
    destruct (IH a' Ha Ha' Hr Hr' H) as [-> ->]. auto.
Qed.

Lemma in_all_ascii c : In c all_ascii.
Proof.
  unfold all_ascii. rewrite <- (ascii_nat_embedding c).
  apply in_map. apply in_seq. pose proof (nat_ascii_bounded c). lia.
Qed.

Lemma startswith_app_eq (a b A B : string) :
  a +:+ A = b +:+ B -> startswith a b = true \/ startswith b a = true.
Proof.
  revert b. induction a as [| c a IH]; intros [| c' b];
    rewrite ?append_cons, ?append_nil_l; cbn [startswith]; auto.
  intros [= -> H]. rewrite Ascii.eqb_refl. eauto.
Qed.

Lemma escape_char_app c rest :
  Json.escape_char c rest = Json.escape_char c "" +:+ rest.
Proof.
  unfold Json.escape_char, Digest.hex_byte. cbv zeta.
  repeat match goal with
         | |- context [if ?b then _ else _] => destruct b
         end; reflexivity.
Qed.

Lemma escape_char_prefix_free :
  forallb (fun c =>
    forallb (fun c' =>
      implb (startswith (Json.escape_char c "") (Json.escape_char c' ""))
            (Ascii.eqb c c')) all_ascii) all_ascii = true.
Proof. vm_compute. reflexivity. Qed.

Lemma escape_char_not_quote :
  forallb (fun c =>
    negb (startswith (String Json.quote_char "") (Json.escape_char c "")) &&
    negb (startswith (Json.escape_char c "") (String Json.quote_char "")))
    all_ascii = true.
Proof. vm_compute. reflexivity. Qed.

Lemma escape_char_inj c c' (A B : string) :
  Json.escape_char c A = Json.escape_char c' B -> c = c' /\ A = B.
Proof.
  rewrite (escape_char_app c A), (escape_char_app c' B). intros H.
  assert (Hc : c = c').
  { pose proof escape_char_prefix_free as Hall.
    rewrite forallb_forall in Hall.
    destruct (startswith_app_eq _ _ _ _ H) as [Hp | Hp].
    - specialize (Hall c (in_all_ascii c)). rewrite forallb_forall in Hall.
      specialize (Hall c' (in_all_ascii c')). rewrite Hp in Hall.
      simpl in Hall. now apply Ascii.eqb_eq.
    - specialize (Hall c' (in_all_ascii c')). rewrite forallb_forall in Hall.
      specialize (Hall c (in_all_ascii c)). rewrite Hp in Hall.
      simpl in Hall. symmetry. now apply Ascii.eqb_eq. }
  subst c'. split; [reflexivity |]. now apply append_inj_l in H.
Qed.

Lemma escape_char_quote c (A B : string) :
  Json.escape_char c A <> String Json.quote_char B.
Proof.
  rewrite (escape_char_app c A). intros H.
  pose proof escape_char_not_quote as Hall. rewrite forallb_forall in Hall.
  specialize (Hall c (in_all_ascii c)).
  apply andb_prop in Hall as [H1 H2].
  change (String Json.quote_char B) with (String Json.quote_char "" +:+ B) in H.
  destruct (startswith_app_eq _ _ _ _ H) as [Hp | Hp].
  - rewrite Hp in H2. discriminate.
  - rewrite Hp in H1. discriminate.
Qed.

(** a string literal is read back: its end is found, and its text *)
Lemma escape_inj (s s' r r' : string) :
  Json.escape s +:+ String Json.quote_char r
  = Json.escape s' +:+ String Json.quote_char r' ->
  s = s' /\ r = r'.
Proof.
  revert s'. induction s as [| c s IH]; intros [| c' s'];
    cbn [Json.escape]; rewrite ?append_nil_l; intros H.
  - injection H as ->. auto.
  - symmetry in H. rewrite escape_char_app, append_assoc, <- escape_char_app in H.
    now apply escape_char_quote in H.
  - rewrite escape_char_app, append_assoc, <- escape_char_app in H.
    now apply escape_char_quote in H.
  - rewrite (escape_char_app c), (escape_char_app c'), !append_assoc,
      <- !escape_char_app in H.
    apply escape_char_inj in H as [-> H].
    destruct (IH s' H) as [-> ->]. auto.
Qed.

Lemma quote_inj (s s' r r' : string) :
  Json.quote s +:+ r = Json.quote s' +:+ r' -> s = s' /\ r = r'.
Proof.
  unfold Json.quote. rewrite !append_cons, !append_assoc, !append_cons, !append_nil_l.
  intros [= H]. now apply escape_inj.
Qed.

Lemma all_chars_impl (p q : ascii -> bool) s :
  (forall c, p c = true -> q c = true) ->
  all_chars p s = true -> all_chars q s = true.
Proof.
  intros Hpq. induction s as [| c s IH]; cbn [all_chars]; [auto |].
  intros H. apply andb_prop in H as [Hc Hs]. rewrite (Hpq c Hc). auto.
Qed.

Lemma str_of_int_numeral z :
  all_chars is_numeral (str_of_int z) = true /\ str_of_int z <> ""%string.
Proof.
  assert (Hpos : forall p, all_chars is_numeral (str_of_int (Zpos p)) = true /\
                           str_of_int (Zpos p) <> ""%string).
  { intros p. destruct (str_of_int_positive p) as ((_ & Hlt) & Hdig & _).
    cbv zeta in *. split.
    - eapply all_chars_impl; [| exact Hdig]. intros c Hc.
      unfold is_numeral. now rewrite Hc.
    - intros E. rewrite E in Hlt. simpl in Hlt. lia. }
  destruct z as [| p | p].
  - split; [reflexivity | discriminate].
  - apply Hpos.
  - change (str_of_int (Z.neg p)) with (String "-" (str_of_int (Z.pos p))).
    split; [| discriminate]. cbn [all_chars]. now rewrite (proj1 (Hpos p)).
Qed.

Lemma str_of_int_prefix_inj z z' (r r' : string) :
  stops is_numeral r = true -> stops is_numeral r' = true ->
  str_of_int z +:+ r = str_of_int z' +:+ r' -> z = z' /\ r = r'.
Proof.
  intros Hr Hr' H.
  destruct (span_inj is_numeral _ _ _ _
              (proj1 (str_of_int_numeral z)) (proj1 (str_of_int_numeral z'))
              Hr Hr' H) as [Hz ->].
  split; [now apply str_of_int_inj | reflexivity].
Qed.

(** Integers and strings, as [json.dumps] writes them, are read back. *)
Section Scalars.
Let dumps := Json.dumps "," ":" true.

Lemma dumps_flat_inj v v' (r r' : string) :
  flat_value v = true -> flat_value v' = true ->
  stops is_numeral r = true -> stops is_numeral r' = true ->
  dumps v +:+ r = dumps v' +:+ r' -> v = v' /\ r = r'.
Proof.
  destruct v as [z | s | |], v' as [z' | s' | |]; try discriminate;
    intros _ _ Hr Hr'; unfold dumps; cbn [Json.dumps]; intros H.
  - apply str_of_int_prefix_inj in H as [-> ->]; auto.
  - exfalso. destruct (str_of_int_numeral z) as [Hall Hne].
    destruct (str_of_int z) as [| c t]; [congruence |].
    unfold Json.quote in H. rewrite !append_cons in H. injection H as -> _.
    cbn [all_chars] in Hall. discriminate.
  - exfalso. destruct (str_of_int_numeral z') as [Hall Hne].
    destruct (str_of_int z') as [| c t]; [congruence |].
    unfold Json.quote in H. rewrite !append_cons in H. injection H as <- _.
    cbn [all_chars] in Hall. discriminate.
  - apply quote_inj in H as [-> ->]. auto.
Qed.
End Scalars.

Lemma join_cons sep p rest : Json.join sep (p :: rest) = p +:+ more sep rest.
Proof.
  revert p. induction rest as [| q rest IH]; intros p.
  - cbn [Json.join more]. now rewrite append_nil_r.
  - change (Json.join sep (p :: q :: rest))
      with (p +:+ sep +:+ Json.join sep (q :: rest)).
    rewrite IH. reflexivity.
Qed.

Lemma insert_by_key_perm kv l : Permutation (Json.insert_by_key kv l) (kv :: l).
Proof.
  induction l as [| kv' l IH]; cbn [Json.insert_by_key]; [reflexivity |].
  destruct (String.leb _ _); [reflexivity |].
  rewrite IH. apply perm_swap.
Qed.

Lemma sort_by_key_perm l : Permutation (Json.sort_by_key l) l.
Proof.
  unfold Json.sort_by_key. induction l as [| kv l IH]; cbn [fold_right]; [reflexivity |].
  rewrite insert_by_key_perm. now constructor.
Qed.

Section Dictionaries.
Let dumps := Json.dumps "," ":" true.

Lemma stops_more l c r :
  c = "}"%char \/ c = "]"%char ->
  stops is_numeral (more "," l +:+ String c r) = true.
Proof.
  intros Hc. destruct l as [| p l]; cbn [more].
  - rewrite append_nil_l. now destruct Hc as [-> | ->].
  - reflexivity.
Qed.

Lemma more_members_inj S S' (r r' : string) :
  Forall flat_text S -> Forall flat_text S' ->
  more "," (map (member_text ":") S) +:+ String "}" r
  = more "," (map (member_text ":") S') +:+ String "}" r' ->
  S = S' /\ r = r'.
Proof.
  intros HS. revert S'. induction HS as [| [k d] S (v & Hv & Hd) HS IH];
    intros S' HS'; destruct HS' as [| [k' d'] S' (v' & Hv' & Hd') HS'];
    cbn [map more]; rewrite ?append_nil_l; intros H.
  - injection H as ->. auto.
  - discriminate.
  - discriminate.
  - unfold member_text in H. cbn [fst snd] in *. subst d d'.
    rewrite !append_assoc in H. apply append_inj_l in H.
    apply quote_inj in H as [-> H]. apply append_inj_l in H.
    apply dumps_flat_inj in H as [-> H]; auto using stops_more.
    destruct (IH _ HS' H) as [-> ->]. auto.
Qed.

Lemma members_inj S S' (r r' : string) :
  Forall flat_text S -> Forall flat_text S' ->
  Json.join "," (map (member_text ":") S) +:+ String "}" r
  = Json.join "," (map (member_text ":") S') +:+ String "}" r' ->
  S = S' /\ r = r'.
Proof.
  intros HS HS'.
  destruct HS as [| [k d] S (v & Hv & Hd) HS];
    destruct HS' as [| [k' d'] S' (v' & Hv' & Hd') HS'];
    cbn [map]; rewrite ?join_cons; cbn [Json.join]; rewrite ?append_nil_l;
    intros H.
  - injection H as ->. auto.
  - unfold member_text, Json.quote in H. rewrite !append_cons in H. discriminate.
  - unfold member_text, Json.quote in H. rewrite !append_cons in H. discriminate.
  - unfold member_text in H. cbn [fst snd] in *. subst d d'.
    rewrite !append_assoc in H.
    apply quote_inj in H as [-> H]. apply append_inj_l in H.
    apply dumps_flat_inj in H as [-> H]; auto using stops_more.
    destruct (more_members_inj _ _ _ _ HS HS' H) as [-> ->]. auto.
Qed.

Lemma written_flat d :
  flat d = true -> Forall flat_text (map (written dumps) d).
Proof.
  unfold flat. rewrite forallb_forall. intros H.
  apply List.Forall_forall. intros kd Hin. apply in_map_iff in Hin as (kv & <- & Hin).
  exists (snd kv). split; [now apply H | reflexivity].
Qed.

Lemma written_inj kv kv' :
  flat_value (snd kv) = true -> flat_value (snd kv') = true ->
  written dumps kv = written dumps kv' -> kv = kv'.
Proof.
  destruct kv as [k v], kv' as [k' v']. unfold written. cbn [fst snd].
  intros Hv Hv' [= -> H].
  assert (H' : dumps v +:+ "" = dumps v' +:+ "") by now rewrite !append_nil_r.
  apply dumps_flat_inj in H' as [-> _]; auto.
Qed.

Lemma map_written_inj d d' :
  flat d = true -> flat d' = true ->
  map (written dumps) d = map (written dumps) d' -> d = d'.
Proof.
  revert d'. induction d as [| kv d IH]; intros [| kv' d']; cbn [map flat forallb];
    try discriminate; [auto |].
  intros Hd Hd' Heq.
  assert (Hkv : written dumps kv = written dumps kv') by congruence.
  assert (H : map (written dumps) d = map (written dumps) d') by congruence.
  apply andb_prop in Hd as [Hv Hd]. apply andb_prop in Hd' as [Hv' Hd'].
  f_equal; [now apply written_inj | now apply IH].
Qed.

Lemma flat_perm d d' : Permutation d d' -> flat d = true -> flat d' = true.
Proof.
  unfold flat. rewrite !forallb_forall. intros Hp H kv Hin.
  apply H. apply (Permutation_in _ (Permutation_sym Hp) Hin).
Qed.

(** a dictionary of integers and strings is read back, up to the order
    of its keys *)
Lemma dumps_dict_inj d d' (r r' : string) :
  flat d = true -> flat d' = true ->
  dumps (Json.Obj d) +:+ r = dumps (Json.Obj d') +:+ r' ->
  Permutation d d' /\ r = r'.
Proof.
  intros Hd Hd'. unfold dumps. cbn [Json.dumps]. fold dumps.
  rewrite !append_cons, !append_assoc, !append_cons, !append_nil_l.
  intros [= H].
  change (fun kv : string * Json.value => (fst kv, dumps (snd kv)))
    with (written dumps) in H.
  change (fun kv : string * string => Json.quote (fst kv) +:+ ":" +:+ snd kv)
    with (member_text ":") in H.
  apply members_inj in H as [HS ->].
  - split; [| reflexivity].
    assert (Hp : Permutation (map (written dumps) d) (map (written dumps) d')).
    { rewrite <- (sort_by_key_perm (map (written dumps) d)), HS.
      apply sort_by_key_perm. }
    apply Permutation_map_inv in Hp as (d1 & Heq & Hp).
    assert (Hd1 : flat d1 = true) by (eapply flat_perm; eauto).
    apply map_written_inj in Heq; auto. subst d1. now symmetry.
  - rewrite List.Forall_forall. intros kd Hin.
    apply (Permutation_in _ (sort_by_key_perm _)) in Hin.
    revert kd Hin. apply List.Forall_forall. now apply written_flat.
  - rewrite List.Forall_forall. intros kd Hin.
    apply (Permutation_in _ (sort_by_key_perm _)) in Hin.
    revert kd Hin. apply List.Forall_forall. now apply written_flat.
Qed.
End Dictionaries.

(** The text of a transaction and of a block, and what is read back. *)
Section Transactions.
Let dumps := Json.dumps "," ":" true.

Lemma sort_four (a b c d : string) :
  Json.sort_by_key [("tx_id", a); ("type", b); ("payload", c); ("timestamp", d)]%string
  = [("payload", c); ("timestamp", d); ("tx_id", a); ("type", b)]%string.
Proof. reflexivity. Qed.

Lemma sort_five (a b c d e : string) :
  Json.sort_by_key [("index", a); ("timestamp", b); ("transactions", c);
                    ("previous_hash", d); ("nonce", e)]%string
  = [("index", a); ("nonce", e); ("previous_hash", d); ("timestamp", b);
     ("transactions", c)]%string.
Proof. reflexivity. Qed.

Lemma dumps_tx_json tx (r : string) :
  dumps (tx_json tx) +:+ r
  = String "{"
      (Json.quote "payload" +:+ ":" +:+ dumps (Json.Obj (payload tx)) +:+ "," +:+
       Json.quote "timestamp" +:+ ":" +:+ Json.quote (timestamp tx) +:+ "," +:+
       Json.quote "tx_id" +:+ ":" +:+ Json.quote (tx_id tx) +:+ "," +:+
       Json.quote "type" +:+ ":" +:+ Json.quote (type tx) +:+ String "}" r).
Proof.
  unfold dumps, tx_json. cbn [Json.dumps map fst snd]. rewrite sort_four.
  cbn [map fst snd Json.join]. rewrite (append_cons "{"). f_equal.
  rewrite !append_assoc. reflexivity.
Qed.

Lemma dumps_tx_inj tx tx' (r r' : string) :
  flat (payload tx) = true -> flat (payload tx') = true ->
  dumps (tx_json tx) +:+ r = dumps (tx_json tx') +:+ r' ->
  tx_same tx tx' /\ r = r'.
Proof.
  intros Hf Hf'. rewrite !dumps_tx_json. intros H.
  apply string_cons_inj in H.
  apply quote_inj in H as [_ H]. apply append_inj_l in H.
  apply dumps_dict_inj in H as [Hp H]; auto. apply append_inj_l in H.
  apply quote_inj in H as [_ H]. apply append_inj_l in H.
  apply quote_inj in H as [Hts H]. apply append_inj_l in H.
  apply quote_inj in H as [_ H]. apply append_inj_l in H.
  apply quote_inj in H as [Hid H]. apply append_inj_l in H.
  apply quote_inj in H as [_ H]. apply append_inj_l in H.
  apply quote_inj in H as [Hty H]. apply string_cons_inj in H. subst r'.
  unfold tx_same. auto.
Qed.

Lemma more_txs_inj txs txs' (r r' : string) :
  all_flat txs = true -> all_flat txs' = true ->
  more "," (map dumps (map tx_json txs)) +:+ String "]" r
  = more "," (map dumps (map tx_json txs')) +:+ String "]" r' ->
  Forall2 tx_same txs txs' /\ r = r'.
Proof.
  revert txs'. induction txs as [| tx txs IH]; intros [| tx' txs'];
    cbn [map more all_flat forallb]; rewrite ?append_nil_l; intros Hf Hf' H.
  - injection H as ->. auto.
  - discriminate.
  - discriminate.
  - apply andb_prop in Hf as [Hf Hfs]. apply andb_prop in Hf' as [Hf' Hfs'].
    rewrite !append_assoc in H. apply append_inj_l in H.
    apply dumps_tx_inj in H as [Hsame H]; auto.
    destruct (IH _ Hfs Hfs' H) as [Hall ->]. auto.
Qed.

Lemma dumps_txs_inj txs txs' (r r' : string) :
  all_flat txs = true -> all_flat txs' = true ->
  dumps (Json.Arr (map tx_json txs)) +:+ r
  = dumps (Json.Arr (map tx_json txs')) +:+ r' ->
  Forall2 tx_same txs txs' /\ r = r'.
Proof.
  unfold dumps. cbn [Json.dumps]. fold dumps.
  rewrite !(append_cons "["), !append_assoc, !(append_cons "]"), !append_nil_l.
  destruct txs as [| tx txs], txs' as [| tx' txs'];
    cbn [map all_flat forallb]; rewrite ?join_cons; cbn [Json.join];
    rewrite ?append_nil_l; intros Hf Hf' H; apply string_cons_inj in H.
  - apply string_cons_inj in H. subst. auto.
  - rewrite append_assoc, dumps_tx_json in H. discriminate.
  - rewrite append_assoc, dumps_tx_json in H. discriminate.
  - apply andb_prop in Hf as [Hf Hfs]. apply andb_prop in Hf' as [Hf' Hfs'].
    rewrite !append_assoc in H.
    apply dumps_tx_inj in H as [Hsame H]; auto.
    destruct (more_txs_inj _ _ _ _ Hfs Hfs' H) as [Hall ->]. auto.
Qed.

Lemma block_string_text σ b :
  Block.block_string σ b
  = String "{"
      (Json.quote "index" +:+ ":" +:+ str_of_int (Block.index b) +:+ "," +:+
       Json.quote "nonce" +:+ ":" +:+ str_of_int (Block.nonce b) +:+ "," +:+
       Json.quote "previous_hash" +:+ ":" +:+ Json.quote (Block.previous_hash b) +:+ "," +:+
       Json.quote "timestamp" +:+ ":" +:+ Json.quote (Block.timestamp b) +:+ "," +:+
       Json.quote "transactions" +:+ ":" +:+
       dumps (Json.Arr (map tx_json (deref σ (Block.transactions b)))) +:+ "}").
Proof.
  unfold Block.block_string. cbn [Json.dumps map fst snd]. fold dumps.
  rewrite sort_five. cbn [map fst snd Json.join]. f_equal.
  rewrite !append_assoc. reflexivity.
Qed.

Lemma block_string_inj σ b σ' b' :
  all_flat (deref σ (Block.transactions b)) = true ->
  all_flat (deref σ' (Block.transactions b')) = true ->
  Block.block_string σ b = Block.block_string σ' b' ->
  Block.index b = Block.index b' /\
  Block.timestamp b = Block.timestamp b' /\
  Block.previous_hash b = Block.previous_hash b' /\
  Block.nonce b = Block.nonce b' /\
  Forall2 tx_same (deref σ (Block.transactions b))
                  (deref σ' (Block.transactions b')).
Proof.
  intros Hf Hf'. rewrite !block_string_text. intros H.
  apply string_cons_inj in H.
  apply quote_inj in H as [_ H]. apply append_inj_l in H.
  apply str_of_int_prefix_inj in H as [Hi H]; [| reflexivity | reflexivity].
  apply append_inj_l in H.
  apply quote_inj in H as [_ H]. apply append_inj_l in H.
  apply str_of_int_prefix_inj in H as [Hn H]; [| reflexivity | reflexivity].
  apply append_inj_l in H.
  apply quote_inj in H as [_ H]. apply append_inj_l in H.
  apply quote_inj in H as [Hp H]. apply append_inj_l in H.
  apply quote_inj in H as [_ H]. apply append_inj_l in H.
  apply quote_inj in H as [Ht H]. apply append_inj_l in H.
  apply quote_inj in H as [_ H]. apply append_inj_l in H.
  apply dumps_txs_inj in H as [Htx _]; auto.
Qed.
End Transactions.

Lemma leb_trans (a b c : string) :
  String.leb a b = true -> String.leb b c = true -> String.leb a c = true.
Proof.
  unfold String.leb.
  revert b c. induction a as [| x a IH]; intros [| y b] [| z c];
    cbn [String.compare]; try (intros; reflexivity || discriminate).
  specialize (IH b c).
  unfold Ascii.compare.
  destruct (N.compare_spec (N_of_ascii x) (N_of_ascii y)) as [Hxy | Hxy | Hxy];
    destruct (N.compare_spec (N_of_ascii y) (N_of_ascii z)) as [Hyz | Hyz | Hyz];
    destruct (N.compare_spec (N_of_ascii x) (N_of_ascii z)) as [Hxz | Hxz | Hxz];
    try (intros; reflexivity || discriminate); try lia; auto.
Qed.

Lemma insert_by_key_sorted kv l :
  StronglySorted key_le l -> StronglySorted key_le (Json.insert_by_key kv l).
Proof.
  induction 1 as [| kv' l Hl IH Hall]; cbn [Json.insert_by_key].
  - repeat constructor.
  - destruct (String.leb (fst kv) (fst kv')) eqn:E.
    + constructor; [now constructor |]. constructor; [exact E |].
      eapply List.Forall_impl; [| exact Hall]. intros kv'' H.
      unfold key_le in *. eapply leb_trans; eauto.
    + constructor; [exact IH |].
      assert (E' : key_le kv' kv).
      { unfold key_le. destruct (String.leb_total (fst kv) (fst kv')); congruence. }
      rewrite List.Forall_forall. intros kv'' Hin.
      apply (Permutation_in _ (insert_by_key_perm kv l)) in Hin.
      destruct Hin as [<- | Hin]; [exact E' |].
      rewrite List.Forall_forall in Hall. now apply Hall.
Qed.

Lemma sort_by_key_sorted l : StronglySorted key_le (Json.sort_by_key l).
Proof.
  unfold Json.sort_by_key. induction l as [| kv l IH]; cbn [fold_right].
  - constructor.
  - now apply insert_by_key_sorted.
Qed.

(** two sorted lists with the same elements, no key twice, are the same *)
Lemma sorted_unique l l' :
  StronglySorted key_le l -> StronglySorted key_le l' ->
  List.NoDup (map fst l) -> Permutation l l' -> l = l'.
Proof.
  intros Hl. revert l'. induction Hl as [| x l Hl IH Hx]; intros l' Hl' Hnd Hp.
  - now apply Permutation_nil in Hp.
  - destruct Hl' as [| y l' Hl' Hy].
    + symmetry in Hp. now apply Permutation_nil in Hp.
    + cbn [map] in Hnd.
      assert (Hxy : x = y).
      { assert (Hin : In x (y :: l')) by (apply (Permutation_in _ Hp); now left).
        assert (Hin' : In y (x :: l))
          by (apply (Permutation_in _ (Permutation_sym Hp)); now left).
        destruct Hin as [-> | Hin]; [reflexivity |].
        destruct Hin' as [-> | Hin']; [reflexivity |].
        rewrite List.Forall_forall in Hx, Hy.
        pose proof (Hx _ Hin') as H1. pose proof (Hy _ Hin) as H2.
        unfold key_le in *.
        assert (Hk : fst x = fst y).
        { pose proof (String.leb_antisym (fst x) (fst y)) as Ha.
          destruct (String.eqb_spec (fst x) (fst y)) as [E | E]; [exact E |].
          exfalso. clear - H1 H2 E.
          unfold String.leb in *.
          rewrite String.compare_antisym in H2.
          destruct (String.compare (fst x) (fst y)) eqn:C; simpl in *;
            try discriminate.
          now apply String.compare_eq_iff in C. }
        exfalso. apply List.NoDup_cons_iff in Hnd as [Hnotin _]. apply Hnotin.
        rewrite Hk. now apply in_map. }
      subst y. f_equal. apply IH; [exact Hl' | | ].
      * now apply List.NoDup_cons_iff in Hnd as [_ Hnd].
      * now apply Permutation_cons_inv in Hp.
Qed.

Lemma sort_by_key_canonical l l' :
  List.NoDup (map fst l) -> Permutation l l' ->
  Json.sort_by_key l = Json.sort_by_key l'.
Proof.
  intros Hnd Hp. apply sorted_unique; try apply sort_by_key_sorted.
  - eapply Permutation_NoDup; [| exact Hnd].
    apply Permutation_map. symmetry. apply sort_by_key_perm.
  - rewrite sort_by_key_perm, Hp. symmetry. apply sort_by_key_perm.
Qed.

Lemma dumps_canonical item_sep key_sep d d' :
  List.NoDup (map fst d) -> Permutation d d' ->
  Json.dumps item_sep key_sep true (Json.Obj d)
  = Json.dumps item_sep key_sep true (Json.Obj d').
Proof.
  intros Hnd Hp. cbn [Json.dumps].
  rewrite (sort_by_key_canonical
             (map (fun kv => (fst kv, Json.dumps item_sep key_sep true (snd kv))) d)
             (map (fun kv => (fst kv, Json.dumps item_sep key_sep true (snd kv))) d')).
  - reflexivity.
  - now rewrite map_map.
  - now apply Permutation_map.
Qed.

Section KeyOrder.
Let dumps := Json.dumps "," ":" true.

Lemma dumps_tx_canonical tx tx' :
  List.NoDup (map fst (payload tx)) -> tx_same tx tx' ->
  dumps (tx_json tx) = dumps (tx_json tx').
Proof.
  intros Hnd (Hid & Hty & Hts & Hp).
  rewrite <- (append_nil_r (dumps (tx_json tx))),
          <- (append_nil_r (dumps (tx_json tx'))), !dumps_tx_json.
  rewrite Hid, Hty, Hts. unfold dumps.
  now rewrite (dumps_canonical "," ":" _ _ Hnd Hp).
Qed.

Lemma dumps_txs_canonical txs txs' :
  keyed txs -> Forall2 tx_same txs txs' ->
  map dumps (map tx_json txs) = map dumps (map tx_json txs').
Proof.
  intros Hk H. induction H as [| tx tx' txs txs' Hs H IH]; [reflexivity |].
  apply Forall_cons in Hk as [Hnd Hk]. cbn [map]. f_equal.
  - now apply dumps_tx_canonical.
  - now apply IH.
Qed.

Lemma block_string_canonical σ b σ' b' :
  keyed (deref σ (Block.transactions b)) ->
  Block.index b = Block.index b' ->
  Block.timestamp b = Block.timestamp b' ->
  Block.previous_hash b = Block.previous_hash b' ->
  Block.nonce b = Block.nonce b' ->
  Forall2 tx_same (deref σ (Block.transactions b))
                  (deref σ' (Block.transactions b')) ->
  Block.block_string σ b = Block.block_string σ' b'.
Proof.
  intros Hk Hi Ht Hp Hn Htx. rewrite !block_string_text.
  rewrite Hi, Ht, Hp, Hn. unfold dumps. cbn [Json.dumps]. fold dumps.
  now rewrite (dumps_txs_canonical _ _ Hk Htx).
Qed.
End KeyOrder.

Lemma hashable_all_flat σ b :
  hashable σ b = true -> all_flat (deref σ (Block.transactions b)) = true.
Proof.
  unfold hashable, all_flat. intros H. apply andb_prop in H as [_ H].
  rewrite forallb_forall in H. apply forallb_forall. intros tx Hin.
  specialize (H tx Hin). now apply andb_prop in H as [H _].
Qed.

(** On the strings of this development, those of code points 0 to 255,
    the general [escape_point] is [Json.escape_char]. *)
Lemma escape_point_char c (rest : string) :
  escape_point (Z.of_N (N_of_ascii c)) rest = Json.escape_char c rest.
Proof. destruct c as [[] [] [] [] [] [] [] []]; reflexivity. Qed.

Lemma escape_points_string s :
  escape_points (encode s) = Json.escape s.
Proof.
  unfold escape_points, encode.
  induction s as [| c s IH]; [reflexivity |].
  cbn [list_ascii_of_string map fold_right Json.escape].
  now rewrite escape_point_char, IH.
Qed.

(** Beyond them [json.dumps] is no longer one to one: a code point
    beyond 65535 and the pair of surrogates that encodes it are written
    the same.  This is why the statements about the written text are
    for strings of code points 0 to 255. *)
Example escape_points_known_values :
  escape_points [8364] = String Json.backslash "u20ac" /\
  escape_points [65535] = String Json.backslash "uffff" /\
  escape_points [128138]
  = String Json.backslash ("ud83d" +:+ String Json.backslash "udc8a") /\
  escape_points [1114111]
  = String Json.backslash ("udbff" +:+ String Json.backslash "udfff") /\
  escape_points [65536] = escape_points [55296; 56320] /\
  escape_points [65536]
  = String Json.backslash ("ud800" +:+ String Json.backslash "udc00").
Proof. vm_compute. repeat split; reflexivity. Qed.

(** X17: what [_calculate_hash] hashes determines the block, and nothing
    else does.  The statement is for the blocks that [_calculate_hash]
    can hash and this development can tell apart: every integer of at
    most 4300 digits, payloads of integers and strings with no key
    twice, and strings of code points 0 to 255 (beyond them a code
    point and its pair of surrogates are written the same, see
    [escape_points_known_values]).  For such blocks the strings hashed
    for two blocks are the same exactly when the blocks have the same
    index, timestamp, previous hash and nonce, and as many
    transactions, which have, one by one, the same id, type and
    timestamp and the same payload members, in whatever order. *)
Theorem hashed_string_determines_the_block σ b σ' b' :
  hashable σ b = true ->
  hashable σ' b' = true ->
  keyed (deref σ (Block.transactions b)) ->
  Block.block_string σ b = Block.block_string σ' b' <->
  Block.index b = Block.index b' /\
  Block.timestamp b = Block.timestamp b' /\
  Block.previous_hash b = Block.previous_hash b' /\
  Block.nonce b = Block.nonce b' /\
  Forall2 tx_same (deref σ (Block.transactions b))
                  (deref σ' (Block.transactions b')).
Proof.
  intros Hf Hf' Hk. apply hashable_all_flat in Hf, Hf'. split.
  - now apply block_string_inj.
  - intros (Hi & Ht & Hp & Hn & Htx). now apply block_string_canonical.
Qed.

(** X18: the id [_new_tx] gives does not depend on the order in which
    the keys of the payload were inserted: payloads with the same
    members, no key twice, get the same id at the same millisecond. *)
Theorem tx_id_ignores_key_order ms now tx_type d d' :
  List.NoDup (map fst d) -> Permutation d d' ->
  tx_id (MedChainBlockchain._new_tx ms now tx_type d)
  = tx_id (MedChainBlockchain._new_tx ms now tx_type d').
Proof.
  intros Hnd Hp. unfold MedChainBlockchain._new_tx. cbn [tx_id].
  now rewrite (dumps_canonical ", " ": " _ _ Hnd Hp).
Qed.

Lemma accepted_minted w : reachable w -> Forall minted (accepted w).
Proof.
  induction 1 as [fuel now σ w H | ms now0 k0 dn mf q st σ bc Hr IH
                 | ms now0 k0 st σ bc Hr IH | fuel now w r w' Hr IH H].
  - apply init_spec in H as (g & Hm & ->).
    apply mine_fresh_block in Hm as (_ & _ & (_ & _ & Hl & _) & _).
    unfold accepted. simpl. rewrite Hl, deref_alloc_new. constructor.
  - destruct (create_drug_batch_cases ms now0 k0 dn mf q st bc)
      as [[Hfit Hcr] | [Hfit Hcr]]; [| rewrite Hcr; exact IH].
    rewrite (accepted_create _ _ _ _ _ _ _ _ _ Hfit). apply Forall_app.
    split; [exact IH |].
    constructor; [| constructor]. left. now eexists _, _, _, _, _, _, _.
  - destruct (MedChainBlockchain.world_state bc !! k0) as [record|] eqn:Hk0.
    2:{ unfold MedChainBlockchain.update_batch_status. rewrite Hk0. exact IH. }
    rewrite (accepted_update _ _ _ _ _ _ _ Hk0). apply Forall_app.
    split; [exact IH |]. constructor; [| constructor]. right.
    now eexists _, _, _, _.
  - apply reachable_inv in Hr.
    destruct (accepted_after_mine _ _ _ _ _ Hr H) as [-> _]. exact IH.
Qed.

Lemma block_txs_accepted w (i : nat) b tx :
  MedChainBlockchain.chain (snd w) !! i = Some b ->
  In tx (deref (fst w) (Block.transactions b)) -> In tx (accepted w).
Proof.
  intros Hb Hin. unfold accepted. apply in_app_iff. left.
  apply in_concat. exists (deref (fst w) (Block.transactions b)).
  split; [| exact Hin].
  apply in_map_iff. exists b. split; [reflexivity |].
  apply list_elem_of_In. eapply list_elem_of_lookup_2. exact Hb.
Qed.

Lemma minted_flat tx : minted tx -> flat (payload tx) = true.
Proof.
  intros [(ms & now & k & dn & mf & q & st & ->) | (ms & now & k & st & ->)];
    reflexivity.
Qed.

Lemma minted_keyed tx : minted tx -> List.NoDup (map fst (payload tx)).
Proof.
  intros [(ms & now & k & dn & mf & q & st & ->) | (ms & now & k & st & ->)];
    cbn [payload MedChainBlockchain._new_tx create_payload update_payload map fst];
    repeat (constructor; [cbn [In]; intuition discriminate |]); constructor.
Qed.

(** lists with the same keys in the same order, none twice, and the
    same members, are the same *)
Lemma perm_same_keys (d d' : Dict) :
  map fst d = map fst d' -> List.NoDup (map fst d) -> Permutation d d' -> d = d'.
Proof.
  revert d'. induction d as [| x d IH]; intros [| x' d']; cbn [map];
    try discriminate; [auto |].
  intros Hk Hnd Hp. injection Hk as Hx Hk.
  apply List.NoDup_cons_iff in Hnd as [Hnotin Hnd].
  assert (Hxx : x = x').
  { assert (Hin : In x (x' :: d')) by (apply (Permutation_in _ Hp); now left).
    destruct Hin as [-> | Hin]; [reflexivity |].
    exfalso. apply Hnotin. rewrite Hk. now apply in_map. }
  subst x'. f_equal. apply IH; auto. now apply Permutation_cons_inv in Hp.
Qed.

Lemma minted_same tx tx' : minted tx -> minted tx' -> tx_same tx tx' -> tx = tx'.
Proof.
  intros Hm Hm' (Hid & Hty & Hts & Hp).
  assert (Hpay : payload tx = payload tx').
  { apply perm_same_keys; [| now apply minted_keyed | exact Hp].
    destruct Hm as [(ms & now & k & dn & mf & q & st & ->)
                   | (ms & now & k & st & ->)],
             Hm' as [(ms' & now' & k' & dn' & mf' & q' & st' & ->)
                    | (ms' & now' & k' & st' & ->)];
      try reflexivity; discriminate. }
  destruct tx, tx'. cbn in *. congruence.
Qed.

Lemma minted_all_same txs txs' :
  Forall minted txs -> Forall minted txs' -> Forall2 tx_same txs txs' ->
  txs = txs'.
Proof.
  intros Hm Hm' H. induction H as [| tx tx' txs txs' Hs H IH]; [reflexivity |].
  apply Forall_cons in Hm as [Hm Hms]. apply Forall_cons in Hm' as [Hm' Hms'].
  f_equal; [now apply minted_same | now apply IH].
Qed.

Lemma forall_minted_flat txs : Forall minted txs -> all_flat txs = true.
Proof.
  intros H. unfold all_flat. apply forallb_forall. intros tx Hin.
  apply minted_flat. rewrite List.Forall_forall in H. now apply H.
Qed.

Lemma block_txs_minted w (i : nat) b :
  reachable w -> MedChainBlockchain.chain (snd w) !! i = Some b ->
  Forall minted (deref (fst w) (Block.transactions b)).
Proof.
  intros Hr Hb. apply List.Forall_forall. intros tx Hin.
  pose proof (accepted_minted w Hr) as Hall.
  rewrite List.Forall_forall in Hall. apply Hall.
  eapply block_txs_accepted; eauto.
Qed.

(** X19: in ledgers reached by the commands, the hash binds the block.
    The commands are given strings of code points 0 to 255, as
    everywhere in this development; a batch id, a name or a status
    with a code point beyond 65535 is outside the statement (it is
    written as its pair of surrogates is, see
    [escape_points_known_values]).  Two blocks of such chains for which
    [_calculate_hash] hashes the same string stand at the same index
    and have the same timestamp, previous hash, nonce and list of
    transactions; so two such blocks with equal hashes are equal in all
    of these, or their two different strings are a collision of
    SHA-256. *)
Theorem chain_hash_binds_the_block w w' (i i' : nat) b b' :
  reachable w -> reachable w' ->
  MedChainBlockchain.chain (snd w) !! i = Some b ->
  MedChainBlockchain.chain (snd w') !! i' = Some b' ->
  (Block.block_string (fst w) b = Block.block_string (fst w') b' ->
   i = i' /\
   Block.timestamp b = Block.timestamp b' /\
   Block.previous_hash b = Block.previous_hash b' /\
   Block.nonce b = Block.nonce b' /\
   deref (fst w) (Block.transactions b)
   = deref (fst w') (Block.transactions b')) /\
  (Block.hash b = Block.hash b' ->
   Block.block_string (fst w) b = Block.block_string (fst w') b' \/
   (Block.block_string (fst w) b <> Block.block_string (fst w') b' /\
    Digest.sha256_hexdigest (encode (Block.block_string (fst w) b))
    = Digest.sha256_hexdigest (encode (Block.block_string (fst w') b')))).
Proof.
  intros Hr Hr' Hb Hb'.
  pose proof (block_txs_minted _ _ _ Hr Hb) as Hm.
  pose proof (block_txs_minted _ _ _ Hr' Hb') as Hm'.
  destruct (reachable_inv _ Hr) as (_ & Hblocks & _).
  destruct (reachable_inv _ Hr') as (_ & Hblocks' & _).
  cbv zeta in *.
  destruct (Hblocks _ _ Hb) as (Hi & Hh & _).
  destruct (Hblocks' _ _ Hb') as (Hi' & Hh' & _).
  split.
  - intros Hs.
    apply block_string_inj in Hs as (Hidx & Ht & Hp & Hn & Htx);
      auto using forall_minted_flat.
    split; [lia |]. repeat (split; [assumption |]).
    now apply minted_all_same.
  - intros Hhash. rewrite <- Hh, <- Hh' in Hhash.
    unfold Block._calculate_hash in Hhash.
    destruct (string_dec (Block.block_string (fst w) b)
                         (Block.block_string (fst w') b')) as [E | E]; auto.
Qed.

Lemma demo_tx1_minted : minted Demo.tx1.
Proof.
  left. exists 1748772000123, "2025-06-01T10:00:00+00:00"%string,
    "batch001"%string, "Paracetamol"%string, "Acme Pharma"%string, 1000,
    "pending"%string.
  vm_compute. reflexivity.
Qed.

Lemma reordered_same : tx_same Demo.tx1 reordered.
Proof.
  unfold tx_same. repeat (split; [reflexivity |]). apply perm_swap.
Qed.

Lemma hashed_string_determines_the_block_witness :
  Demo.tx1 <> reordered /\
  Block.block_string (fst Demo.w2) Demo.block1
  = Block.block_string reordered_store Demo.block1.
Proof.
  split; [discriminate |].
  refine (proj2 (hashed_string_determines_the_block
                   (fst Demo.w2) Demo.block1 reordered_store Demo.block1
                   _ _ _) _).
  - vm_compute. reflexivity.
  - vm_compute. reflexivity.
  - constructor; [| constructor]. exact (minted_keyed _ demo_tx1_minted).
  - repeat (split; [reflexivity |]).
    constructor; [exact reordered_same | constructor].
Defined.

Lemma tx_id_ignores_key_order_witness :
  tx_id (MedChainBlockchain._new_tx 1748772000123 "2025-06-01T10:00:00+00:00"
           "CREATE_BATCH" (payload reordered))
  = "TX-1748772000123-5888e43c"%string.
Proof.
  rewrite <- (tx_id_ignores_key_order 1748772000123 "2025-06-01T10:00:00+00:00"
                "CREATE_BATCH" (payload Demo.tx1) (payload reordered)).
  - vm_compute. reflexivity.
  - exact (minted_keyed _ demo_tx1_minted).
  - apply perm_swap.
Defined.

Lemma chain_hash_binds_the_block_witness :
  reachable Demo.w2 /\
  reachable (fst Demo.w2, snd Demo.updated) /\
  MedChainBlockchain.chain (snd Demo.w2) !! 1%nat = Some Demo.block1 /\
  MedChainBlockchain.chain (snd Demo.updated) !! 1%nat = Some Demo.block1 /\
  Block.block_string (fst Demo.w2) Demo.block1
  = Block.block_string (fst Demo.w2) Demo.block1 /\
  (1%nat = 1%nat /\
   Block.timestamp Demo.block1 = Block.timestamp Demo.block1 /\
   Block.previous_hash Demo.block1 = Block.previous_hash Demo.block1 /\
   Block.nonce Demo.block1 = Block.nonce Demo.block1 /\
   deref (fst Demo.w2) (Block.transactions Demo.block1) = [Demo.tx1]).
Proof.
  split; [exact demo_reachable |]. split; [exact demo_updated_reachable |].
  split; [reflexivity |]. split; [reflexivity |]. split; [reflexivity |].
  exact (proj1 (chain_hash_binds_the_block
                  Demo.w2 (fst Demo.w2, snd Demo.updated) 1 1
                  Demo.block1 Demo.block1 demo_reachable demo_updated_reachable
                  eq_refl eq_refl) eq_refl).
Defined.

(* ===================================================================== *)
(** * The copy that [world_state_view] returns

    [json.loads] reads back what [json.dumps] wrote: every escape as its
    character, every numeral as its integer, lists and dictionaries
    member by member. *)
(* ===================================================================== *)

Section Decoding.
Import JsonDecoder.

(** The decoder against known values of [json.loads]. *)
Example loads_known_values :
  loads "[1, 2,  3]" = Decoded (Json.Arr [Json.Int 1; Json.Int 2; Json.Int 3]) /\
  loads " [ ] " = Decoded (Json.Arr []) /\
  loads "-0" = Decoded (Json.Int 0) /\
  loads "[-0, 10, 100]"
  = Decoded (Json.Arr [Json.Int 0; Json.Int 10; Json.Int 100]) /\
  loads "01" = JSONDecodeError /\
  loads "[1,]" = JSONDecodeError /\
  loads "[1 2]" = JSONDecodeError /\
  loads "[1] x" = JSONDecodeError /\
  loads "- 1" = JSONDecodeError /\
  loads ("{" +:+ Json.quote "a" +:+ ": 1, " +:+ Json.quote "b" +:+ ": 2, "
             +:+ Json.quote "a" +:+ ": 3}")
  = Decoded (Json.Obj [("a", Json.Int 3); ("b", Json.Int 2)]%string) /\
  loads ("{" +:+ Json.quote "a" +:+ " : 1 } ")
  = Decoded (Json.Obj [("a", Json.Int 1)]%string) /\
  loads ("{" +:+ Json.quote "a" +:+ ": 1,}") = JSONDecodeError /\
  loads (String Json.quote_char
           (String Json.backslash
              ("u00e9" +:+ String Json.backslash
                 ("n" +:+ String Json.backslash
                    ("/" +:+ String Json.quote_char "")))))
  = Decoded (Json.Str (String (ascii_of_N 233) (String (ascii_of_N 10) "/"))) /\
  loads (String Json.quote_char
           (String Json.backslash ("x" +:+ String Json.quote_char "")))
  = JSONDecodeError /\
  loads (String Json.quote_char
           (String (ascii_of_N 10) (String Json.quote_char "")))
  = JSONDecodeError /\
  loads (String Json.quote_char
           (String Json.backslash ("u+123" +:+ String Json.quote_char "")))
  = JSONDecodeError /\
  loads (repeat_char "1" 4300) = Decoded (Json.Int ((10 ^ 4300 - 1) / 9)) /\
  loads (repeat_char "1" 4301) = IntValueError /\
  loads "1.5" = Unmodelled /\
  loads "[true]" = Unmodelled /\
  loads (String Json.quote_char
           (String Json.backslash ("u0100" +:+ String Json.quote_char "")))
  = Unmodelled.
Proof. vm_compute. repeat split; reflexivity. Qed.

Lemma value_induction (P : Json.value -> Prop) :
  (forall z, P (Json.Int z)) ->
  (forall s, P (Json.Str s)) ->
  (forall items, Forall P items -> P (Json.Arr items)) ->
  (forall members, Forall (fun kv => P (snd kv)) members -> P (Json.Obj members)) ->
  forall v, P v.
Proof.
  intros HInt HStr HArr HObj. fix IH 1. intros [z | s | items | members].
  - apply HInt.
  - apply HStr.
  - apply HArr. induction items as [| x items IHl]; constructor; [apply IH | exact IHl].
  - apply HObj. induction members as [| [k x] members IHl]; constructor;
      [apply IH | exact IHl].
Qed.

Lemma wf_arr items : wf (Json.Arr items) <-> Forall wf items.
Proof.
  cbn [wf]. induction items as [| x items IH].
  - split; [constructor | auto].
  - rewrite IH. split.
    + intros [H1 H2]. now constructor.
    + intros H. apply Forall_cons in H. exact H.
Qed.

Lemma wf_obj members :
  wf (Json.Obj members) <->
  List.NoDup (map fst members) /\ Forall (fun kv => wf (snd kv)) members.
Proof.
  cbn [wf]. apply and_iff_compat_l.
  induction members as [| [k x] members IH].
  - split; [constructor | auto].
  - rewrite IH. split.
    + intros [H1 H2]. now constructor.
    + intros H. apply Forall_cons in H. exact H.
Qed.

(** each escape is read back as its character *)
Lemma scanstring_escape_char c (X : string) :
  scanstring (Json.escape_char c X)
  = bind (scanstring X) (fun tr => Decoded (String c (fst tr), snd tr)).
Proof.
  destruct c as [[] [] [] [] [] [] [] []]; reflexivity.
Qed.

Lemma scanstring_escape s (rest : string) :
  scanstring (Json.escape s +:+ String Json.quote_char rest)
  = Decoded (s, rest).
Proof.
  induction s as [| c s IH]; cbn [Json.escape].
  - reflexivity.
  - rewrite escape_char_app, append_assoc, <- escape_char_app.
    now rewrite scanstring_escape_char, IH.
Qed.

Lemma digits_span (d rest : string) :
  all_chars is_digit d = true -> stops is_digit rest = true ->
  digits (d +:+ rest) = (d, rest).
Proof.
  intros Hd Hr. induction d as [| c d IH].
  - rewrite append_nil_l. destruct rest as [| c r]; [reflexivity |].
    cbn [stops] in Hr. cbn [digits]. apply negb_true_iff in Hr. now rewrite Hr.
  - cbn [all_chars] in Hd. apply andb_prop in Hd as [Hc Hd].
    rewrite append_cons. cbn [digits]. rewrite Hc, (IH Hd). reflexivity.
Qed.

Lemma int_of_str_of_int z :
  option_map Z.of_int (NilZero.int_of_string (str_of_int z)) = Some z.
Proof.
  unfold str_of_int. rewrite NilZero.isi.
  - cbn [option_map]. now rewrite DecimalZ.of_to.
  - destruct z; cbn; try discriminate.
    intros [= H]. now apply DecimalPos.Unsigned.to_uint_nonnil in H.
  - destruct z; cbn; try discriminate.
    intros [= H]. now apply DecimalPos.Unsigned.to_uint_nonnil in H.
Qed.

Lemma scan_int_positive p (sign rest : string) :
  str_returns (Z.pos p) = true ->
  after_value rest = true ->
  (let s1 := str_of_int (Z.pos p) +:+ rest in
   match s1 with
   | String c r =>
       let '(d, rest') :=
         if code c =? 48 then (String c EmptyString, r) else digits s1 in
       match d with
       | EmptyString =>
           if names_literal sign c then Unmodelled else JSONDecodeError
       | _ =>
           if goes_on rest' then Unmodelled
           else if Nat.leb (String.length d) int_max_str_digits then
             match NilZero.int_of_string (sign +:+ d) with
             | Some i => Decoded (Z.of_int i, rest')
             | None => Unmodelled
             end
           else IntValueError
       end
   | EmptyString => JSONDecodeError
   end)
  = match NilZero.int_of_string (sign +:+ str_of_int (Z.pos p)) with
    | Some i => Decoded (Z.of_int i, rest)
    | None => Unmodelled
    end.
Proof.
  intros Hfit Hr. apply andb_prop in Hr as [Hstop Hgo].
  apply negb_true_iff in Hgo.
  unfold str_returns in Hfit. change (Z.abs (Z.pos p)) with (Z.pos p) in Hfit.
  destruct (str_of_int_positive p) as ((_ & Hlt) & Hdig & Hlead).
  cbv zeta in *. pose proof (digits_span _ _ Hdig Hstop) as Hspan.
  destruct (str_of_int (Z.pos p)) as [| c t] eqn:E.
  - simpl in Hlt. lia.
  - rewrite append_cons in *.
    assert (Hc : (code c =? 48) = false).
    { cbn [startswith] in Hlead. destruct (Ascii.eqb_spec "0"%char c) as [<- | Hne].
      - discriminate.
      - apply Z.eqb_neq. intros H. apply Hne. unfold code in H.
        apply (f_equal Z.to_N) in H. rewrite N2Z.id in H.
        apply (f_equal ascii_of_N) in H. rewrite ascii_N_embedding in H.
        now subst c. }
    rewrite Hc, Hspan, Hgo, Hfit. reflexivity.
Qed.

Lemma scan_int_str_of_int z (rest : string) :
  str_returns z = true ->
  after_value rest = true ->
  scan_int (str_of_int z +:+ rest) = Decoded (z, rest).
Proof.
  intros Hfit Hr. pose proof Hr as Hr'. apply andb_prop in Hr' as [Hstop Hgo].
  apply negb_true_iff in Hgo.
  destruct z as [| p | p].
  - change (str_of_int 0) with "0"%string. rewrite append_cons, append_nil_l.
    unfold scan_int. change (code "0" =? 45) with false. cbv beta iota.
    change (code "0" =? 48) with true. cbv beta iota. rewrite Hgo. reflexivity.
  - unfold scan_int.
    destruct (str_of_int_positive p) as ((_ & Hlt) & Hdig & _). cbv zeta in *.
    pose proof (scan_int_positive p "" rest Hfit Hr) as H. cbv zeta in H.
    destruct (str_of_int (Z.pos p)) as [| c t] eqn:E; [simpl in Hlt; lia |].
    rewrite append_cons in *.
    cbn [all_chars] in Hdig. apply andb_prop in Hdig as [Hc _].
    assert (Hm : (code c =? 45) = false).
    { unfold is_digit in Hc. cbv zeta in Hc. fold (code c) in Hc.
      apply andb_prop in Hc as [Hc _]. apply Z.leb_le in Hc.
      apply Z.eqb_neq. lia. }
    rewrite Hm. rewrite H. rewrite append_nil_l, <- E.
    pose proof (int_of_str_of_int (Z.pos p)) as Hi.
    destruct (NilZero.int_of_string (str_of_int (Z.pos p))) as [i |];
      [| discriminate].
    cbn [option_map] in *. now injection Hi as ->.
  - change (str_of_int (Z.neg p)) with (String "-" (str_of_int (Z.pos p))).
    rewrite append_cons. unfold scan_int.
    change (code "-" =? 45) with true. cbv iota.
    pose proof (scan_int_positive p "-" rest Hfit Hr) as H. cbv zeta in H.
    rewrite H.
    change (String "-" "" +:+ str_of_int (Z.pos p)) with (str_of_int (Z.neg p)).
    pose proof (int_of_str_of_int (Z.neg p)) as Hi.
    destruct (NilZero.int_of_string (str_of_int (Z.neg p))) as [i |];
      [| discriminate].
    cbn [option_map] in *. now injection Hi as ->.
Qed.

Section RoundTrip.
Local Abbreviation dumps := (Json.dumps ", " ": " false).

Lemma dumps_opens v : exists c t, dumps v = String c t /\ opens_value c = true.
Proof.
  destruct v as [z | s | items | members]; unfold dumps; cbn [Json.dumps].
  - destruct (str_of_int_numeral z) as [Hall Hne].
    destruct (str_of_int z) as [| c t]; [congruence |].
    exists c, t. split; [reflexivity |]. cbn [all_chars] in Hall.
    apply andb_prop in Hall as [Hc _]. unfold opens_value. now rewrite Hc.
  - unfold Json.quote. eexists _, _. split; reflexivity.
  - eexists _, _. split; reflexivity.
  - eexists _, _. split; reflexivity.
Qed.

Lemma opens_not_ws c : opens_value c = true -> is_ws c = false.
Proof. destruct c as [[] [] [] [] [] [] [] []]; vm_compute; congruence. Qed.

Lemma opens_not_closing c :
  opens_value c = true -> (code c =? 93) = false /\ (code c =? 125) = false.
Proof. destruct c as [[] [] [] [] [] [] [] []]; vm_compute; auto; discriminate. Qed.

Lemma numeral_not_opening c :
  is_numeral c = true ->
  (code c =? 34) = false /\ (code c =? 91) = false /\ (code c =? 123) = false.
Proof. destruct c as [[] [] [] [] [] [] [] []]; vm_compute; auto; discriminate. Qed.

Lemma skip_ws_dumps v (rest : string) :
  skip_ws (dumps v +:+ rest) = dumps v +:+ rest.
Proof.
  destruct (dumps_opens v) as (c & t & -> & Hc). rewrite append_cons.
  cbn [skip_ws]. now rewrite (opens_not_ws c Hc).
Qed.

Lemma skip_ws_space (s : string) : skip_ws (String " " s) = skip_ws s.
Proof. reflexivity. Qed.

Lemma skip_ws_mark c (s : string) :
  is_ws c = false -> skip_ws (String c s) = String c s.
Proof. intros H. cbn [skip_ws]. now rewrite H. Qed.

Lemma parse_items_S f s :
  parse_items (S f) s
  = bind (parse_value f s) (fun vr =>
      match skip_ws (snd vr) with
      | String c r1 =>
          if code c =? 44 then
            bind (parse_items f (skip_ws r1)) (fun ir =>
              Decoded (fst vr :: fst ir, snd ir))
          else if code c =? 93 then Decoded ([fst vr], r1)
          else JSONDecodeError
      | EmptyString => JSONDecodeError
      end).
Proof. reflexivity. Qed.

Lemma parse_members_S f q (r : string) :
  parse_members (S f) (String q r)
  = if code q =? 34 then
      bind (scanstring r) (fun kr =>
        match skip_ws (snd kr) with
        | String c r2 =>
            if code c =? 58 then
              bind (parse_value f (skip_ws r2)) (fun vr =>
                match skip_ws (snd vr) with
                | String c' r4 =>
                    if code c' =? 44 then
                      bind (parse_members f (skip_ws r4)) (fun mr =>
                        Decoded ((fst kr, fst vr) :: fst mr, snd mr))
                    else if code c' =? 125 then
                      Decoded ([(fst kr, fst vr)], r4)
                    else JSONDecodeError
                | EmptyString => JSONDecodeError
                end)
            else JSONDecodeError
        | EmptyString => JSONDecodeError
        end)
    else JSONDecodeError.
Proof. reflexivity. Qed.

Lemma parse_value_S f c (r : string) :
  parse_value (S f) (String c r)
  = if code c =? 34 then
      bind (scanstring r) (fun tr => Decoded (Json.Str (fst tr), snd tr))
    else if code c =? 91 then
      match skip_ws r with
      | String c1 r2 =>
          if code c1 =? 93 then Decoded (Json.Arr [], r2)
          else
            bind (parse_items f (skip_ws r)) (fun ir =>
              Decoded (Json.Arr (fst ir), snd ir))
      | EmptyString => JSONDecodeError
      end
    else if code c =? 123 then
      match skip_ws r with
      | String c1 r2 =>
          if code c1 =? 125 then Decoded (Json.Obj [], r2)
          else
            bind (parse_members f (skip_ws r)) (fun pr =>
              Decoded (Json.Obj (dict (fst pr)), snd pr))
      | EmptyString => JSONDecodeError
      end
    else
      bind (scan_int (String c r)) (fun zr =>
        Decoded (Json.Int (fst zr), snd zr)).
Proof. reflexivity. Qed.

Lemma length_more (l : list string) :
  String.length (more ", " l)
  = fold_right (fun p n => (2 + String.length p + n)%nat) 0%nat l.
Proof.
  induction l as [| p l IH]; [reflexivity |].
  cbn [more fold_right]. rewrite !length_app_str, IH. reflexivity.
Qed.

Lemma parse_items_ok xs :
  Forall value_ok xs -> Forall wf xs ->
  forall x, value_ok x -> wf x ->
  forall (fuel : nat) (rest : string),
    (2 * String.length (dumps x +:+ more ", " (map dumps xs)) + 2 <= fuel)%nat ->
    parse_items fuel (dumps x +:+ more ", " (map dumps xs) +:+ String "]" rest)
    = Decoded (x :: xs, rest).
Proof.
  induction xs as [| y ys IH]; intros Hok Hwf x Hx Hwx fuel rest Hfuel;
    (destruct fuel as [| f]; [lia |]); rewrite parse_items_S;
    rewrite length_app_str in Hfuel; cbn [map more] in *.
  - rewrite Hx; [| exact Hwx | lia | reflexivity].
    rewrite append_nil_l. reflexivity.
  - apply Forall_cons in Hok as [Hy Hok]. apply Forall_cons in Hwf as [Hwy Hwf].
    rewrite !length_app_str in Hfuel.
    rewrite Hx; [| exact Hwx | lia | reflexivity]. cbn [bind fst snd].
    rewrite !append_assoc, !append_cons, append_nil_l.
    rewrite skip_ws_mark by reflexivity.
    change (code "," =? 44) with true. cbv beta iota.
    rewrite skip_ws_space, skip_ws_dumps.
    rewrite (IH Hok Hwf y Hy Hwy f rest).
    + reflexivity.
    + rewrite length_app_str. change (String.length ", ") with 2%nat in Hfuel. lia.
Qed.

Lemma quote_app k (X : string) :
  Json.quote k +:+ X
  = String Json.quote_char (Json.escape k +:+ String Json.quote_char X).
Proof.
  unfold Json.quote. rewrite append_cons, append_assoc, append_cons, append_nil_l.
  reflexivity.
Qed.

Lemma not_closing_bracket {A} v (R : string) (a : string -> result A) b :
  match dumps v +:+ R with
  | String c1 r2 => if code c1 =? 93 then a r2 else b
  | EmptyString => JSONDecodeError
  end = b.
Proof.
  destruct (dumps_opens v) as (c & t & -> & Hc). rewrite append_cons.
  now rewrite (proj1 (opens_not_closing c Hc)).
Qed.

Lemma not_closing_brace {A} k (R : string) (a : string -> result A) b :
  match Json.quote k +:+ R with
  | String c1 r2 => if code c1 =? 125 then a r2 else b
  | EmptyString => JSONDecodeError
  end = b.
Proof. rewrite quote_app. reflexivity. Qed.

Lemma parse_members_ok ms :
  Forall (fun kv => value_ok (snd kv)) ms -> Forall (fun kv => wf (snd kv)) ms ->
  forall m, value_ok (snd m) -> wf (snd m) ->
  forall (fuel : nat) (rest : string),
    (2 * String.length (member m +:+ more ", " (map member ms)) + 2 <= fuel)%nat ->
    parse_members fuel (member m +:+ more ", " (map member ms) +:+ String "}" rest)
    = Decoded (m :: ms, rest).
Proof.
  induction ms as [| m' ms IH]; intros Hok Hwf [k v] Hv Hwv fuel rest Hfuel;
    (destruct fuel as [| f]; [lia |]); cbn [fst snd] in *;
    unfold member at 1; unfold member at 1 in Hfuel; cbn [fst snd map more] in *;
    rewrite !length_app_str in Hfuel;
    rewrite !append_assoc, quote_app, parse_members_S;
    change (code Json.quote_char =? 34) with true; cbv beta iota;
    rewrite scanstring_escape; cbn [bind fst snd];
    rewrite !append_cons, append_nil_l;
    rewrite skip_ws_mark by reflexivity;
    change (code ":" =? 58) with true; cbv beta iota;
    rewrite skip_ws_space, skip_ws_dumps.
  - rewrite Hv; [| exact Hwv | lia | reflexivity].
    rewrite append_nil_l. reflexivity.
  - apply Forall_cons in Hok as [Hm' Hok]. apply Forall_cons in Hwf as [Hwm' Hwf].
    rewrite Hv; [| exact Hwv | lia | reflexivity]. cbn [bind fst snd].
    rewrite ?append_cons, ?append_nil_l.
    rewrite skip_ws_mark by reflexivity.
    change (code "," =? 44) with true. cbv beta iota.
    rewrite skip_ws_space.
    assert (Hskip : forall R : string, skip_ws (member m' +:+ R) = member m' +:+ R).
    { intros R. unfold member. rewrite !append_assoc, quote_app. reflexivity. }
    rewrite Hskip.
    rewrite (IH Hok Hwf m' Hm' Hwm' f rest).
    + reflexivity.
    + rewrite !length_app_str in *. change (String.length ", ") with 2%nat in Hfuel.
      lia.
Qed.

Lemma dict_set_fresh k v (d : Dict) :
  ~ In k (map fst d) -> dict_set k v d = d ++ [(k, v)].
Proof.
  induction d as [| [k' v'] d IH]; cbn [dict_set map fst In]; [reflexivity |].
  intros Hn. destruct (String.eqb_spec k k') as [-> | Hne]; [tauto |].
  rewrite IH by tauto. reflexivity.
Qed.

Lemma dict_unique pairs :
  List.NoDup (map fst pairs) -> dict pairs = pairs.
Proof.
  unfold dict.
  assert (H : forall acc,
             List.NoDup (map fst (acc ++ pairs)) ->
             fold_left (fun d kv => dict_set (fst kv) (snd kv) d) pairs acc
             = acc ++ pairs).
  { induction pairs as [| [k v] pairs IH]; intros acc Hnd; cbn [fold_left fst snd].
    - now rewrite app_nil_r.
    - rewrite dict_set_fresh.
      + rewrite IH; rewrite <- app_assoc; [reflexivity | exact Hnd].
      + rewrite map_app in Hnd. cbn [map fst] in Hnd.
        apply List.NoDup_remove_2 in Hnd. intros Hin. apply Hnd.
        apply in_app_iff. now left. }
  intros Hnd. now apply (H []).
Qed.

Lemma length_dumps_positive v : (1 <= String.length (dumps v))%nat.
Proof. destruct (dumps_opens v) as (c & t & -> & _). simpl. lia. Qed.

Lemma dumps_round_trip v : value_ok v.
Proof.
  induction v as [z | s | items IH | members IH] using value_induction;
    intros Hwf fuel rest Hfuel Hrest;
    match type of Hfuel with
    | (2 * String.length (dumps ?v) <= _)%nat =>
        pose proof (length_dumps_positive v) as Hpos
    end;
    (destruct fuel as [| f]; [lia |]).
  - unfold dumps in *. cbn [Json.dumps] in *.
    destruct (str_of_int_numeral z) as [Hall Hne].
    destruct (str_of_int z) as [| c t] eqn:E; [congruence |].
    rewrite append_cons, parse_value_S.
    cbn [all_chars] in Hall. apply andb_prop in Hall as [Hc _].
    destruct (numeral_not_opening c Hc) as (-> & -> & ->).
    rewrite <- append_cons, <- E, scan_int_str_of_int by assumption.
    reflexivity.
  - unfold dumps. cbn [Json.dumps]. rewrite quote_app, parse_value_S.
    change (code Json.quote_char =? 34) with true. cbv beta iota.
    now rewrite scanstring_escape.
  - apply wf_arr in Hwf. unfold dumps in Hfuel |- *. cbn [Json.dumps] in Hfuel |- *.
    fold dumps in Hfuel |- *. rewrite append_cons, parse_value_S.
    change (code "[" =? 34) with false. change (code "[" =? 91) with true.
    cbv beta iota.
    destruct items as [| x xs].
    + cbn [map Json.join]. rewrite !append_nil_l, append_cons, append_nil_l.
      reflexivity.
    + apply Forall_cons in IH as [Hx IH]. apply Forall_cons in Hwf as [Hwx Hwf].
      cbn [map] in *. rewrite join_cons in *. rewrite !append_assoc.
      rewrite append_cons, append_nil_l. rewrite skip_ws_dumps.
      rewrite not_closing_bracket.
      rewrite parse_items_ok; auto.
      cbn [String.length] in Hfuel. rewrite !length_app_str in *.
      cbn [String.length] in Hfuel. lia.
  - apply wf_obj in Hwf as [Hnd Hwf].
    unfold dumps in Hfuel |- *. cbn [Json.dumps] in Hfuel |- *.
    fold dumps in Hfuel |- *. rewrite map_map in Hfuel |- *. cbn [fst snd] in *.
    change (fun x : string * Json.value => Json.quote (fst x) +:+ ": " +:+ dumps (snd x))
      with member in *.
    rewrite append_cons, parse_value_S.
    change (code "{" =? 34) with false. change (code "{" =? 91) with false.
    change (code "{" =? 123) with true. cbv beta iota.
    destruct members as [| m ms].
    + cbn [map Json.join]. rewrite !append_nil_l, append_cons, append_nil_l.
      reflexivity.
    + apply Forall_cons in IH as [Hm IH]. apply Forall_cons in Hwf as [Hwm Hwf].
      cbn [map] in *. rewrite join_cons in *. rewrite !append_assoc.
      rewrite append_cons, append_nil_l.
      assert (Hskip : forall R : string, skip_ws (member m +:+ R) = member m +:+ R).
      { intros R. unfold member. rewrite !append_assoc, quote_app. reflexivity. }
      rewrite Hskip. unfold member at 1. rewrite (append_assoc (Json.quote _)).
      rewrite not_closing_brace.
      rewrite parse_members_ok; auto.
      * cbn [bind fst snd]. now rewrite dict_unique.
      * cbn [String.length] in Hfuel. rewrite !length_app_str in *.
        cbn [String.length] in Hfuel. lia.
Qed.

(** [json.loads(json.dumps(v))] is [v], for every value with no key twice. *)
Lemma loads_dumps v : wf v -> loads (dumps v) = Decoded v.
Proof.
  intros Hwf. unfold loads.
  rewrite <- (append_nil_r (dumps v)) at 2. rewrite skip_ws_dumps.
  rewrite (dumps_round_trip v Hwf); [reflexivity | lia | reflexivity].
Qed.
End RoundTrip.

Lemma dict_set_keys k v (d : Dict) :
  In k (map fst d) -> map fst (dict_set k v d) = map fst d.
Proof.
  induction d as [| [k' v'] d IH]; cbn [dict_set map fst In]; [tauto |].
  intros Hin. destruct (String.eqb_spec k k') as [-> | Hne]; [reflexivity |].
  cbn [map fst]. rewrite IH; [reflexivity |]. destruct Hin; congruence.
Qed.

Lemma dict_set_forallb (p : Json.value -> bool) k v (d : Dict) :
  p v = true -> forallb (fun kv => p (snd kv)) d = true ->
  forallb (fun kv => p (snd kv)) (dict_set k v d) = true.
Proof.
  intros Hv.
  induction d as [| [k' v'] d IH]; cbn [dict_set forallb snd].
  - now rewrite Hv.
  - intros H. apply andb_prop in H as [H1 H2].
    destruct (String.eqb k k'); cbn [forallb snd].
    + now rewrite Hv, H2.
    + now rewrite H1, IH.
Qed.

Lemma dict_set_ok k v (d : Dict) :
  flat_value v = true -> writes v = true ->
  record_ok d -> record_ok (dict_set k v d).
Proof.
  intros Hv Hw (Hnd & Hf & Hfit).
  split; [| split; [now apply (dict_set_forallb flat_value)
                   | now apply (dict_set_forallb writes)]].
  destruct (in_dec string_dec k (map fst d)) as [Hin | Hn].
  - now rewrite dict_set_keys.
  - rewrite dict_set_fresh by exact Hn. rewrite map_app. cbn [map fst].
    apply NoDup_ListNoDup. apply NoDup_app. split; [now apply NoDup_ListNoDup |].
    split; [| apply NoDup_singleton].
    intros x Hx Hx'. apply list_elem_of_singleton in Hx'. subst x.
    apply Hn. now apply list_elem_of_In.
Qed.

Lemma world_state_ok w :
  reachable w ->
  forall k record,
    MedChainBlockchain.world_state (snd w) !! k = Some record -> record_ok record.
Proof.
  induction 1 as [fuel now σ w H | ms now0 k0 dn mf q st σ bc Hr IH
                 | ms now0 k0 st σ bc Hr IH | fuel now w r w' Hr IH H];
    intros k record Hk.
  - apply init_spec in H as (g & _ & ->). cbn in Hk.
    now rewrite lookup_empty in Hk.
  - destruct (create_drug_batch_cases ms now0 k0 dn mf q st bc)
      as [[Hfit Hcr] | [Hfit Hcr]]; rewrite Hcr in Hk; clear Hcr;
      [| exact (IH k record Hk)].
    unfold create_payload in Hk. cbn in Hk.
    destruct (decide (k = k0)) as [-> | Hne].
    + rewrite lookup_insert_eq in Hk. injection Hk as <-.
      split; [| split; [reflexivity |]].
      * cbn [map fst].
        repeat (constructor; [cbn [In]; intuition discriminate |]); constructor.
      * cbn [forallb snd writes]. now rewrite Hfit.
    + rewrite lookup_insert_ne in Hk by congruence. exact (IH k record Hk).
  - unfold MedChainBlockchain.update_batch_status in Hk.
    destruct (MedChainBlockchain.world_state bc !! k0) as [record0 |] eqn:Hk0;
      cbn in Hk; [| exact (IH k record Hk)].
    destruct (decide (k = k0)) as [-> | Hne].
    + rewrite lookup_insert_eq in Hk. injection Hk as <-.
      apply dict_set_ok; [reflexivity | reflexivity |].
      apply dict_set_ok; [reflexivity | reflexivity |].
      exact (IH k0 record0 Hk0).
    + rewrite lookup_insert_ne in Hk by congruence. exact (IH k record Hk).
  - apply reachable_inv in Hr.
    destruct (accepted_after_mine _ _ _ _ _ Hr H) as [_ Hws].
    rewrite Hws in Hk. exact (IH k record Hk).
Qed.

Lemma flat_value_wf v : flat_value v = true -> writes v = true -> wf v.
Proof. destruct v; cbn; auto; discriminate. Qed.

Lemma record_wf record : record_ok record -> wf (Json.Obj record).
Proof.
  intros (Hnd & Hf & Hfit). apply wf_obj. split; [exact Hnd |].
  apply List.Forall_forall. intros kv Hin.
  unfold flat in Hf. rewrite forallb_forall in Hf, Hfit.
  apply flat_value_wf; [now apply Hf | now apply Hfit].
Qed.

Lemma as_state_json items : as_state (state_json items) = Some (list_to_map items).
Proof.
  unfold as_state, state_json.
  induction items as [| [k record] items IH]; [reflexivity |].
  cbn [map foldr fst snd]. now rewrite IH.
Qed.

(** X20: [world_state_view] returns a copy of the world state.  In
    every ledger reached by the commands (the strings are those of code
    points 0 to 255, the integers are of at most 4300 digits after
    [create_drug_batch] has let them through), [json.loads] decodes what
    [json.dumps] writes of the world state, whatever the order in which
    the batches were inserted, and gives a dictionary with the same
    keys in the same order, each with a record that has the same keys
    and values.  So [world_state_view] returns, and what it returns,
    read as a map, is the world state. *)
Theorem world_state_view_is_a_copy w :
  reachable w ->
  (forall items,
      Permutation items (map_to_list (MedChainBlockchain.world_state (snd w))) ->
      JsonDecoder.loads (Json.dumps ", " ": " false (state_json items))
      = JsonDecoder.Decoded (state_json items) /\
      as_state (state_json items)
      = Some (MedChainBlockchain.world_state (snd w))) /\
  exists view,
    MedChainBlockchain.world_state_view (snd w) = JsonDecoder.Decoded view /\
    as_state view = Some (MedChainBlockchain.world_state (snd w)).
Proof.
  intros Hr.
  assert (Hall : forall items,
             Permutation items (map_to_list (MedChainBlockchain.world_state (snd w))) ->
             JsonDecoder.loads (Json.dumps ", " ": " false (state_json items))
             = JsonDecoder.Decoded (state_json items) /\
             as_state (state_json items)
             = Some (MedChainBlockchain.world_state (snd w))).
  { intros items Hp.
    assert (Hnd : NoDup (map fst items)).
    { rewrite Hp. apply NoDup_fst_map_to_list. }
    split.
    - apply loads_dumps. unfold state_json. apply wf_obj. split.
      + rewrite map_map. cbn [fst]. now apply NoDup_ListNoDup.
      + apply List.Forall_forall. intros kv Hin.
        apply in_map_iff in Hin as ([k record] & <- & Hin). cbn [fst snd].
        apply record_wf. apply (world_state_ok w Hr k).
        apply elem_of_map_to_list. rewrite <- Hp. now apply list_elem_of_In.
    - rewrite as_state_json. f_equal.
      rewrite (list_to_map_proper items
                 (map_to_list (MedChainBlockchain.world_state (snd w))) Hnd Hp).
      apply list_to_map_to_list. }
  split; [exact Hall |].
  exists (state_json (map_to_list (MedChainBlockchain.world_state (snd w)))).
  unfold MedChainBlockchain.world_state_view.
  exact (Hall _ (Permutation_refl _)).
Qed.

Example demo_world_state_view :
  MedChainBlockchain.world_state_view (snd Demo.updated)
  = JsonDecoder.Decoded
      (Json.Obj
         [("batch001",
           Json.Obj
             [("batch_id", Json.Str "batch001");
              ("drug_name", Json.Str "Paracetamol");
              ("manufacturer", Json.Str "Acme Pharma");
              ("quantity", Json.Int 1000); ("status", Json.Str "waiting");
              ("timestamp", Json.Str "2025-06-02T10:00:00+00:00")])])%string.
Proof. vm_compute. reflexivity. Qed.

Lemma world_state_view_is_a_copy_witness :
  reachable Demo.w2 /\
  exists view,
    MedChainBlockchain.world_state_view (snd Demo.w2) = JsonDecoder.Decoded view /\
    as_state view = Some (MedChainBlockchain.world_state (snd Demo.w2)).
Proof.
  split; [exact demo_reachable |].
  exact (proj2 (world_state_view_is_a_copy Demo.w2 demo_reachable)).
Defined.

End Decoding.
